(** * DispatchTodoApp: the recurrence reconciliation engine

    A shallow embedding of the recurrence-series code of the repository
    ([recurrence-series-sync], [task-recurrence-rollover], the
    [/api/recurrences] route handlers, the recurrence previews and the
    task list of the client) together with the properties the
    specification states about it and further properties of the same
    code.

    Conventions of the embedding:
    - the two tables the engine reads and writes ([task] and
      [recurrence_series]) are lists of rows, in insertion order; a
      [SELECT ... WHERE] is a [filter], an [UPDATE ... WHERE] a [map], an
      [INSERT] appends one row;
    - text columns are [string]s; ISO dates are compared as text, as the
      source does ([lte] in SQL, [>] on JavaScript strings);
    - a nullable column is an [option];
    - the clock ([new Date().toISOString()]) is an argument [now] of every
      operation that stamps a row;
    - row identifiers are allocated by [newId], which stands for the
      column default [crypto.randomUUID()]. *)

From Stdlib Require Import List Bool Arith Lia String Ascii NArith ZArith ZifyNat.
From Stdlib Require Import Permutation Sorted.
Import ListNotations.
Open Scope string_scope.
Open Scope bool_scope.
Open Scope list_scope.
Open Scope nat_scope.

Set Implicit Arguments.

(** ** Text comparison *)

(** [cursor > todayIsoDate] on JavaScript strings, and [lte] on SQLite text
    columns: both are lexicographic on code units. *)
Definition str_leb (a b : string) : bool := String.leb a b.
Definition str_gtb (a b : string) : bool := negb (String.leb a b).

Definition str_le (a b : string) : Prop := str_leb a b = true.
Definition str_lt (a b : string) : Prop := String.compare a b = Lt.

(** ** Data model *)

Inductive TaskStatus := open | in_progress | done.
Inductive TaskPriority := low | medium | high.
Inductive TaskRecurrenceType := none | daily | weekly | monthly | custom.
Inductive TaskRecurrenceBehavior := after_completion | duplicate_on_schedule.

Definition status_eqb (a b : TaskStatus) : bool :=
  match a, b with
  | open, open | in_progress, in_progress | done, done => true
  | _, _ => false
  end.

Definition type_eqb (a b : TaskRecurrenceType) : bool :=
  match a, b with
  | none, none | daily, daily | weekly, weekly
  | monthly, monthly | custom, custom => true
  | _, _ => false
  end.

Definition behavior_eqb (a b : TaskRecurrenceBehavior) : bool :=
  match a, b with
  | after_completion, after_completion
  | duplicate_on_schedule, duplicate_on_schedule => true
  | _, _ => false
  end.

(** A row of table [task]. *)
Record Task := mkTask {
  task_id : string;
  task_userId : string;
  task_projectId : option string;
  task_title : string;
  task_description : option string;
  task_status : TaskStatus;
  task_priority : TaskPriority;
  task_dueDate : option string;
  task_recurrenceType : TaskRecurrenceType;
  task_recurrenceBehavior : TaskRecurrenceBehavior;
  task_recurrenceRule : option string;
  task_recurrenceSeriesId : option string;
  task_recurrenceProcessedAt : option string;
  task_deletedAt : option string;
  task_createdAt : string;
  task_updatedAt : string
}.

(** A row of table [recurrence_series]. *)
Record Series := mkSeries {
  series_id : string;
  series_userId : string;
  series_projectId : option string;
  series_title : string;
  series_description : option string;
  series_priority : TaskPriority;
  series_recurrenceType : TaskRecurrenceType;
  series_recurrenceBehavior : TaskRecurrenceBehavior;
  series_recurrenceRule : option string;
  series_nextDueDate : string;
  series_active : bool;
  series_deletedAt : option string;
  series_createdAt : string;
  series_updatedAt : string
}.

(** A row of table [project], as far as the route handlers look at it. *)
Record Project := mkProject {
  project_id : string;
  project_userId : string
}.

Record Db := mkDb {
  tasks : list Task;
  recurrenceSeries : list Series;
  projects : list Project
}.

(** ** SQL predicates *)

Definition isNull {A} (v : option A) : bool :=
  match v with None => true | Some _ => false end.

(** [eq(column, value)] on a nullable text column: NULL equals nothing. *)
Definition eqText (v : option string) (x : string) : bool :=
  match v with Some y => String.eqb y x | None => false end.

(** [lte(column, value)] on a nullable text column. *)
Definition lteText (v : option string) (x : string) : bool :=
  match v with Some y => str_leb y x | None => false end.

(** ** [isIsoDate]: the pattern [^\d{4}-\d{2}-\d{2}$] *)

Definition isDigit (c : ascii) : bool :=
  (48 <=? nat_of_ascii c) && (nat_of_ascii c <=? 57).

Definition isDash (c : ascii) : bool := Ascii.eqb c "-"%char.

Definition matchesIsoPattern (s : string) : bool :=
  match s with
  | String y1 (String y2 (String y3 (String y4 (String d1
      (String m1 (String m2 (String d2
        (String a1 (String a2 EmptyString))))))))) =>
      isDigit y1 && isDigit y2 && isDigit y3 && isDigit y4 && isDash d1
      && isDigit m1 && isDigit m2 && isDash d2 && isDigit a1 && isDigit a2
  | _ => false
  end.

Definition isIsoDate (value : option string) : bool :=
  match value with
  | Some s => matchesIsoPattern s
  | None => false
  end.

(** ** Row updates *)

Definition task_reopen (now : string) (t : Task) : Task :=
  mkTask (task_id t) (task_userId t) (task_projectId t) (task_title t)
    (task_description t) open (task_priority t) (task_dueDate t)
    (task_recurrenceType t) (task_recurrenceBehavior t)
    (task_recurrenceRule t) (task_recurrenceSeriesId t)
    (task_recurrenceProcessedAt t) (task_deletedAt t) (task_createdAt t) now.

(** The [set] clause of the migration's [UPDATE task]. *)
Definition task_linkToSeries (sid now : string) (wasDone : bool) (t : Task)
  : Task :=
  mkTask (task_id t) (task_userId t) (task_projectId t) (task_title t)
    (task_description t) (task_status t) (task_priority t) (task_dueDate t)
    none after_completion None (Some sid)
    (if wasDone then Some now else None)
    (task_deletedAt t) (task_createdAt t) now.

Definition series_setNextDueDate (cursor now : string) (s : Series) : Series :=
  mkSeries (series_id s) (series_userId s) (series_projectId s)
    (series_title s) (series_description s) (series_priority s)
    (series_recurrenceType s) (series_recurrenceBehavior s)
    (series_recurrenceRule s) cursor (series_active s) (series_deletedAt s)
    (series_createdAt s) now.

Definition updateTasksWhere (p : Task -> bool) (f : Task -> Task) (db : Db)
  : Db :=
  mkDb (map (fun t => if p t then f t else t) (tasks db))
       (recurrenceSeries db) (projects db).

Definition updateSeriesWhere (p : Series -> bool) (f : Series -> Series)
  (db : Db) : Db :=
  mkDb (tasks db)
       (map (fun s => if p s then f s else s) (recurrenceSeries db))
       (projects db).

Definition insertTask (t : Task) (db : Db) : Db :=
  mkDb (tasks db ++ [t]) (recurrenceSeries db) (projects db).

Definition insertSeries (s : Series) (db : Db) : Db :=
  mkDb (tasks db) (recurrenceSeries db ++ [s]) (projects db).

(** ** Rollover: [releaseDueRecurringTasksForUser] *)

Definition rolloverDue (userId todayIsoDate : string) (t : Task) : bool :=
  String.eqb (task_userId t) userId
  && isNull (task_deletedAt t)
  && status_eqb (task_status t) done
  && negb (type_eqb (task_recurrenceType t) none)
  && negb (isNull (task_dueDate t))
  && lteText (task_dueDate t) todayIsoDate.

Definition releaseDueRecurringTasksForUser
  (userId todayIsoDate now : string) (db : Db) : Db :=
  updateTasksWhere (rolloverDue userId todayIsoDate) (task_reopen now) db.

(** ** The reconciliation engine *)

Section Engine.

(** [getNextTaskRecurrenceDate] of [@/lib/task-recurrence]: the engine only
    calls it, so it is a parameter here; [IsoCalendar] below gives the
    instance the specification describes. *)
Variable getNextTaskRecurrenceDate :
  string -> TaskRecurrenceType -> option string -> option string.

(** The identifier a table's [id] column default produces, given the
    identifiers already in the table. *)
Variable newId : list string -> string.

(** *** Legacy migration *)

(** The [where] clause that selects [legacyRows]. *)
Definition isLegacyRow (userId : string) (t : Task) : bool :=
  String.eqb (task_userId t) userId
  && isNull (task_deletedAt t)
  && isNull (task_recurrenceSeriesId t)
  && negb (type_eqb (task_recurrenceType t) none).

Definition legacyDueAnchor (todayIsoDate : string) (row : Task) : string :=
  match task_dueDate row with
  | Some d => if isIsoDate (Some d) then d else todayIsoDate
  | None => todayIsoDate
  end.

Definition legacyCompletionAnchor (todayIsoDate : string) (row : Task)
  : string :=
  let dueAnchor := legacyDueAnchor todayIsoDate row in
  if str_gtb dueAnchor todayIsoDate then dueAnchor else todayIsoDate.

Definition legacyNextDueDate (todayIsoDate : string) (row : Task) : string :=
  match task_status row with
  | done =>
      let completionAnchor := legacyCompletionAnchor todayIsoDate row in
      match getNextTaskRecurrenceDate completionAnchor
              (task_recurrenceType row) (task_recurrenceRule row) with
      | Some next => next
      | None => completionAnchor
      end
  | _ => legacyDueAnchor todayIsoDate row
  end.

Definition seriesOfLegacyRow (sid todayIsoDate now : string) (row : Task)
  : Series :=
  mkSeries sid (task_userId row) (task_projectId row) (task_title row)
    (task_description row) (task_priority row) (task_recurrenceType row)
    (task_recurrenceBehavior row) (task_recurrenceRule row)
    (legacyNextDueDate todayIsoDate row) true None now now.

(** One turn of the [for (const row of legacyRows)] loop.  The insert
    always returns the created row, so the [if (!createdSeries)] guard
    never fires. *)
Definition migrateLegacyRow (todayIsoDate now : string) (db : Db) (row : Task)
  : Db :=
  match task_recurrenceType row with
  | none => db
  | _ =>
      let sid := newId (map series_id (recurrenceSeries db)) in
      let db1 := insertSeries (seriesOfLegacyRow sid todayIsoDate now row) db in
      updateTasksWhere (fun t => String.eqb (task_id t) (task_id row))
        (task_linkToSeries sid now (status_eqb (task_status row) done)) db1
  end.

Definition migrateLegacyTaskRecurrencesForUser
  (userId todayIsoDate now : string) (db : Db) : Db :=
  let legacyRows := filter (isLegacyRow userId) (tasks db) in
  fold_left (migrateLegacyRow todayIsoDate now) legacyRows db.

(** *** Materialization *)

Definition linkedTo (seriesId : string) (t : Task) : bool :=
  eqText (task_recurrenceSeriesId t) seriesId.

Definition outstandingFor (seriesId : string) (t : Task) : bool :=
  linkedTo seriesId t
  && isNull (task_deletedAt t)
  && negb (status_eqb (task_status t) done).

Definition materializedFor (seriesId dueDate : string) (t : Task) : bool :=
  linkedTo seriesId t
  && eqText (task_dueDate t) dueDate
  && isNull (task_deletedAt t).

Definition hasOutstandingInstance (db : Db) (seriesId : string) : bool :=
  existsb (outstandingFor seriesId) (tasks db).

Definition hasMaterializedDueDate (db : Db) (seriesId dueDate : string)
  : bool :=
  existsb (materializedFor seriesId dueDate) (tasks db).

(** The row [materializeSeries] inserts. *)
Definition instanceOf (tid now : string) (series : Series) (dueDate : string)
  : Task :=
  mkTask tid (series_userId series) (series_projectId series)
    (series_title series) (series_description series) open
    (series_priority series) (Some dueDate) none after_completion None
    (Some (series_id series)) None None now now.

Definition materializeSeries (now : string) (db : Db) (series : Series)
  (dueDate : string) : Db :=
  insertTask (instanceOf (newId (map task_id (tasks db))) now series dueDate)
    db.

(** [!next || next === cursor]: the helper's result is null, empty, or the
    cursor itself. *)
Definition stalls (cursor : string) (next : option string) : bool :=
  match next with
  | None => true
  | Some n => String.eqb n "" || String.eqb n cursor
  end.

(** The [for (let i = 0; i < 500; i += 1)] loop of the
    [duplicate_on_schedule] branch; [n] is the number of turns left. *)
Fixpoint catchUp (n : nat) (todayIsoDate now : string) (series : Series)
  (db : Db) (cursor : string) : Db * string :=
  match n with
  | O => (db, cursor)
  | S n' =>
      if str_gtb cursor todayIsoDate then (db, cursor)
      else
        let db1 :=
          if hasMaterializedDueDate db (series_id series) cursor then db
          else materializeSeries now db series cursor in
        let next := getNextTaskRecurrenceDate cursor
                      (series_recurrenceType series)
                      (series_recurrenceRule series) in
        if stalls cursor next then (db1, cursor)
        else
          match next with
          | Some n1 => catchUp n' todayIsoDate now series db1 n1
          | None => (db1, cursor)
          end
  end.

Definition catchUpLimit : nat := 500.

(** Whether the loop, started on [cursor], ends before it runs out of
    turns: the cursor passes today, or the helper stalls.  This follows the
    dates only. *)
Fixpoint catchUpSettles (n : nat) (todayIsoDate : string) (series : Series)
  (cursor : string) : bool :=
  match n with
  | O => str_gtb cursor todayIsoDate
  | S n' =>
      if str_gtb cursor todayIsoDate then true
      else
        let next := getNextTaskRecurrenceDate cursor
                      (series_recurrenceType series)
                      (series_recurrenceRule series) in
        if stalls cursor next then true
        else
          match next with
          | Some n1 => catchUpSettles n' todayIsoDate series n1
          | None => true
          end
  end.

(** One turn of the [for (const series of seriesRows)] loop. *)
Definition syncSeries (todayIsoDate now : string) (db : Db) (series : Series)
  : Db :=
  match series_recurrenceBehavior series with
  | after_completion =>
      if hasOutstandingInstance db (series_id series) then db
      else if hasMaterializedDueDate db (series_id series)
                (series_nextDueDate series) then db
      else materializeSeries now db series (series_nextDueDate series)
  | duplicate_on_schedule =>
      let '(db1, cursor) :=
        catchUp catchUpLimit todayIsoDate now series db
          (series_nextDueDate series) in
      if String.eqb cursor (series_nextDueDate series) then db1
      else updateSeriesWhere
             (fun s => String.eqb (series_id s) (series_id series))
             (series_setNextDueDate cursor now) db1
  end.

(** The [where] clause that selects [seriesRows]. *)
Definition isDueSeries (userId todayIsoDate : string) (s : Series) : bool :=
  String.eqb (series_userId s) userId
  && isNull (series_deletedAt s)
  && Bool.eqb (series_active s) true
  && str_leb (series_nextDueDate s) todayIsoDate.

Definition syncRecurrenceSeriesForUser
  (userId todayIsoDate now : string) (db : Db) : Db :=
  let db1 := migrateLegacyTaskRecurrencesForUser userId todayIsoDate now db in
  let seriesRows :=
    filter (isDueSeries userId todayIsoDate) (recurrenceSeries db1) in
  fold_left (syncSeries todayIsoDate now) seriesRows db1.

(** Every [duplicate_on_schedule] series that is due catches up within
    the limit of the loop. *)
Definition withinCatchUpLimit (userId todayIsoDate : string) (db : Db)
  : bool :=
  forallb
    (fun s =>
       match series_recurrenceBehavior s with
       | after_completion => true
       | duplicate_on_schedule =>
           catchUpSettles catchUpLimit todayIsoDate s (series_nextDueDate s)
       end)
    (filter (isDueSeries userId todayIsoDate) (recurrenceSeries db)).

(** The dates the catch-up loop goes through from [cursor] when it is not
    cut short: each is at or before today and the helper leads from it to
    the next; [final] is the first date past today. *)
Fixpoint visits (todayIsoDate : string) (series : Series) (cursor : string)
  (dates : list string) (final : string) : Prop :=
  match dates with
  | [] => cursor = final /\ str_gtb final todayIsoDate = true
  | d :: rest =>
      d = cursor
      /\ str_gtb cursor todayIsoDate = false
      /\ exists next,
           getNextTaskRecurrenceDate cursor (series_recurrenceType series)
             (series_recurrenceRule series) = Some next
           /\ stalls cursor (Some next) = false
           /\ visits todayIsoDate series next rest final
  end.

(** A series row the pass has nothing left to do for, in the state [db]. *)
Definition settled (todayIsoDate : string) (db : Db) (r : Series) : Prop :=
  match series_recurrenceBehavior r with
  | after_completion =>
      hasOutstandingInstance db (series_id r) = true
      \/ hasMaterializedDueDate db (series_id r) (series_nextDueDate r) = true
  | duplicate_on_schedule =>
      str_gtb (series_nextDueDate r) todayIsoDate = true
      \/ (hasMaterializedDueDate db (series_id r) (series_nextDueDate r)
           = true
          /\ stalls (series_nextDueDate r)
               (getNextTaskRecurrenceDate (series_nextDueDate r)
                  (series_recurrenceType r) (series_recurrenceRule r))
             = true)
  end.

End Engine.

Global Opaque catchUpLimit.

(** ** Vocabulary of the statements *)

(** The rows a pass appended to table [task]. *)
Definition createdTasks (before after : Db) : list Task :=
  skipn (List.length (tasks before)) (tasks after).

(** The instances a pass created for one series. *)
Definition createdFor (seriesId : string) (before after : Db) : list Task :=
  filter (linkedTo seriesId) (createdTasks before after).

(** Primary keys: [id] is unique in each table. *)
Definition uniqueSeriesIds (db : Db) : Prop :=
  NoDup (map series_id (recurrenceSeries db)).

Definition uniqueTaskIds (db : Db) : Prop :=
  NoDup (map task_id (tasks db)).

(** What is assumed of the identifier generator: no collision. *)
Definition allocatesFresh (newId : list string -> string) : Prop :=
  forall ids, ~ In (newId ids) ids.

(** The rows the rollover's [where] clause is meant to select, in the words
    of the specification. *)
Definition RolloverSelected (userId todayIsoDate : string) (t : Task) : Prop :=
  task_userId t = userId
  /\ task_deletedAt t = None
  /\ task_status t = done
  /\ task_recurrenceType t <> none
  /\ exists d, task_dueDate t = Some d /\ str_le d todayIsoDate.

(** A legacy item, in the words of the specification. *)
Definition LegacyItem (userId : string) (t : Task) : Prop :=
  task_userId t = userId
  /\ task_deletedAt t = None
  /\ task_recurrenceSeriesId t = None
  /\ task_recurrenceType t <> none.

(** A series the pass has to look at. *)
Definition DueSeries (userId todayIsoDate : string) (s : Series) : Prop :=
  series_userId s = userId
  /\ series_deletedAt s = None
  /\ series_active s = true
  /\ str_le (series_nextDueDate s) todayIsoDate.

(** Two task rows that differ at most in [status] and [updatedAt]. *)
Definition sameButStatus (t t' : Task) : Prop :=
  task_id t' = task_id t
  /\ task_userId t' = task_userId t
  /\ task_projectId t' = task_projectId t
  /\ task_title t' = task_title t
  /\ task_description t' = task_description t
  /\ task_priority t' = task_priority t
  /\ task_dueDate t' = task_dueDate t
  /\ task_recurrenceType t' = task_recurrenceType t
  /\ task_recurrenceBehavior t' = task_recurrenceBehavior t
  /\ task_recurrenceRule t' = task_recurrenceRule t
  /\ task_recurrenceSeriesId t' = task_recurrenceSeriesId t
  /\ task_recurrenceProcessedAt t' = task_recurrenceProcessedAt t
  /\ task_deletedAt t' = task_deletedAt t
  /\ task_createdAt t' = task_createdAt t.

(** What the migration's [UPDATE] may have done to a row. *)
Definition relinked (now : string) (t t' : Task) : Prop :=
  t' = t \/ exists sid b, t' = task_linkToSeries sid now b t.


(** The later of two dates, as text. *)
Definition str_max (a b : string) : string := if str_gtb a b then a else b.

(** The anchor the specification gives a legacy item: its own due date
    when that is an ISO date, today otherwise. *)
Definition dueAnchorOf (todayIsoDate : string) (t : Task) : string :=
  match task_dueDate t with
  | Some d => if isIsoDate (Some d) then d else todayIsoDate
  | None => todayIsoDate
  end.

(** A row that [materializeSeries] made for [series]. *)
Definition IsInstanceOf (now : string) (series : Series) (t : Task) : Prop :=
  exists tid dueDate, t = instanceOf tid now series dueDate.

(** What the pass may have done to a series row while it handled
    [series]: nothing, or it moved [nextDueDate] to the cursor the
    catch-up loop ended on. *)
Definition advancedBy
  (getNext : string -> TaskRecurrenceType -> option string -> option string)
  (newId : list string -> string) (todayIsoDate now : string)
  (series : Series) (r r' : Series) : Prop :=
  r' = r
  \/ (series_id r = series_id series
      /\ series_recurrenceBehavior series = duplicate_on_schedule
      /\ exists db0,
           r' = series_setNextDueDate
                  (snd (catchUp getNext newId catchUpLimit todayIsoDate now
                          series db0 (series_nextDueDate series)))
                  now r).

(** The rows still to visit are rows of the table, read before the loop,
    and no two rows share an [id]. *)
Definition pending (db : Db) (rows : list Series) : Prop :=
  uniqueSeriesIds db
  /\ NoDup (map series_id rows)
  /\ forall s, In s rows -> In s (recurrenceSeries db).


(** An open or in-progress instance of the series that is not soft-deleted:
    what [hasOutstandingInstance] looks for. *)
Definition Outstanding (db : Db) (seriesId : string) : Prop :=
  exists t, In t (tasks db)
    /\ task_recurrenceSeriesId t = Some seriesId
    /\ task_deletedAt t = None
    /\ task_status t <> done.

(** An instance of the series due on [dueDate] that is not soft-deleted:
    what [hasMaterializedDueDate] looks for. *)
Definition MaterializedAt (db : Db) (seriesId dueDate : string) : Prop :=
  exists t, In t (tasks db)
    /\ task_recurrenceSeriesId t = Some seriesId
    /\ task_dueDate t = Some dueDate
    /\ task_deletedAt t = None.

(** What the catch-up loop relies on: the helper never answers with a date
    before its anchor. *)
Definition neverEarlier
  (getNext : string -> TaskRecurrenceType -> option string -> option string)
  : Prop :=
  forall anchor ty rule next,
    getNext anchor ty rule = Some next -> str_le anchor next.

(** A row the pass made for [series] in the state [db]: an instance due on
    a date at or before today for which [db] held no live instance. *)
Definition freshlyMade (todayIsoDate now : string) (db : Db) (series : Series)
  (t : Task) : Prop :=
  exists tid dueDate,
    t = instanceOf tid now series dueDate
    /\ str_le dueDate todayIsoDate
    /\ hasMaterializedDueDate db (series_id series) dueDate = false.

(** Two task rows that agree on everything the engine does not own: all
    but the inline recurrence fields, the series link and [updatedAt]. *)
Definition sameContent (t t' : Task) : Prop :=
  task_id t' = task_id t
  /\ task_userId t' = task_userId t
  /\ task_projectId t' = task_projectId t
  /\ task_title t' = task_title t
  /\ task_description t' = task_description t
  /\ task_status t' = task_status t
  /\ task_priority t' = task_priority t
  /\ task_dueDate t' = task_dueDate t
  /\ task_deletedAt t' = task_deletedAt t
  /\ task_createdAt t' = task_createdAt t.

(** Two series rows that differ at most in [nextDueDate] and
    [updatedAt]. *)
Definition sameButCursor (s s' : Series) : Prop :=
  series_id s' = series_id s
  /\ series_userId s' = series_userId s
  /\ series_projectId s' = series_projectId s
  /\ series_title s' = series_title s
  /\ series_description s' = series_description s
  /\ series_priority s' = series_priority s
  /\ series_recurrenceType s' = series_recurrenceType s
  /\ series_recurrenceBehavior s' = series_recurrenceBehavior s
  /\ series_recurrenceRule s' = series_recurrenceRule s
  /\ series_active s' = series_active s
  /\ series_deletedAt s' = series_deletedAt s
  /\ series_createdAt s' = series_createdAt s.

(** ** The recurrence rule algebra *)

(** Modelled from the spec: [getNextTaskRecurrenceDate],
    [parseTaskCustomRecurrenceRule], [serializeTaskCustomRecurrenceRule] and
    [isTaskRecurrenceBehavior] of [src/lib/task-recurrence.ts], which the
    engine and the route handlers import and which is not among the sources.
    The specification (section 4.1) gives: daily adds one day, weekly seven,
    monthly one calendar month clamped to the last day of the target month,
    custom adds [interval] units of [unit]; none only for a missing or
    malformed rule on a custom kind; a rule is an [interval] in 1..365 and a
    [unit] among day, week, month.  Dates are calendar dates written
    [YYYY-MM-DD]; a text that is not such a date, and a result past year
    9999, have no next occurrence here. *)
Module IsoCalendar.

Record date := mkDate { dyear : nat; dmonth : nat; dday : nat }.

Definition isLeapYear (y : nat) : bool :=
  ((y mod 4 =? 0) && negb (y mod 100 =? 0)) || (y mod 400 =? 0).

Definition daysInMonth (y m : nat) : nat :=
  match m with
  | 2 => if isLeapYear y then 29 else 28
  | 4 | 6 | 9 | 11 => 30
  | _ => 31
  end.

(** The last year that fits four digits. *)
Definition maxYear : nat := 99 * 100 + 99.

Definition validDate (d : date) : bool :=
  (1 <=? dmonth d) && (dmonth d <=? 12)
  && (1 <=? dday d) && (dday d <=? daysInMonth (dyear d) (dmonth d))
  && (dyear d <=? maxYear).

(** A day that exists in the calendar, whatever the year. *)
Definition calendarDate (d : date) : Prop :=
  1 <= dmonth d <= 12 /\ 1 <= dday d <= daysInMonth (dyear d) (dmonth d).

(** *** Reading and writing [YYYY-MM-DD] *)

Definition digitOf (c : ascii) : nat := nat_of_ascii c - 48.
Definition digitChar (n : nat) : ascii := ascii_of_nat (48 + n).

Arguments digitOf : simpl never.
Arguments digitChar : simpl never.

Definition parseIsoDate (s : string) : option date :=
  match s with
  | String y1 (String y2 (String y3 (String y4 (String _
      (String m1 (String m2 (String _
        (String d1 (String d2 EmptyString))))))))) =>
      if matchesIsoPattern s then
        let d := mkDate
                   (1000 * digitOf y1 + 100 * digitOf y2
                    + 10 * digitOf y3 + digitOf y4)
                   (10 * digitOf m1 + digitOf m2)
                   (10 * digitOf d1 + digitOf d2) in
        if validDate d then Some d else None
      else None
  | _ => None
  end.

Definition formatIsoDate (d : date) : string :=
  String (digitChar (dyear d / 1000))
    (String (digitChar (dyear d / 100 mod 10))
      (String (digitChar (dyear d / 10 mod 10))
        (String (digitChar (dyear d mod 10))
          (String "-"%char
            (String (digitChar (dmonth d / 10))
              (String (digitChar (dmonth d mod 10))
                (String "-"%char
                  (String (digitChar (dday d / 10))
                    (String (digitChar (dday d mod 10))
                       EmptyString))))))))).

(** *** Stepping *)

Definition nextDay (d : date) : date :=
  if dday d <? daysInMonth (dyear d) (dmonth d)
  then mkDate (dyear d) (dmonth d) (S (dday d))
  else if dmonth d <? 12 then mkDate (dyear d) (S (dmonth d)) 1
  else mkDate (S (dyear d)) 1 1.

Arguments nextDay : simpl never.

Fixpoint addDays (n : nat) (d : date) : date :=
  match n with
  | O => d
  | S n' => addDays n' (nextDay d)
  end.

(** [n] calendar months later, the day clamped to the target month. *)
Definition addMonths (n : nat) (d : date) : date :=
  let total := dyear d * 12 + (dmonth d - 1) + n in
  let y := total / 12 in
  let m := total mod 12 + 1 in
  mkDate y m (Nat.min (dday d) (daysInMonth y m)).

Inductive TaskCustomRecurrenceUnit := day | week | month.

Record TaskCustomRecurrenceRule := mkRule {
  interval : nat;
  unit : TaskCustomRecurrenceUnit
}.

Definition validRule (r : TaskCustomRecurrenceRule) : bool :=
  (1 <=? interval r) && (interval r <=? 365).

Definition nextOccurrence (anchor : date) (kind : TaskRecurrenceType)
  (rule : option TaskCustomRecurrenceRule) : option date :=
  match kind with
  | none => None
  | daily => Some (addDays 1 anchor)
  | weekly => Some (addDays 7 anchor)
  | monthly => Some (addMonths 1 anchor)
  | custom =>
      match rule with
      | Some r =>
          Some (match unit r with
                | day => addDays (interval r) anchor
                | week => addDays (7 * interval r) anchor
                | month => addMonths (interval r) anchor
                end)
      | None => None
      end
  end.

(** *** The stored form of a rule *)

Definition unitName (u : TaskCustomRecurrenceUnit) : string :=
  match u with day => "day" | week => "week" | month => "month" end.

Definition unitOfName (s : string) : option TaskCustomRecurrenceUnit :=
  if String.eqb s "day" then Some day
  else if String.eqb s "week" then Some week
  else if String.eqb s "month" then Some month
  else None.

Definition quote : string := String "034"%char EmptyString.

Fixpoint digitsOf (fuel n : nat) (acc : string) : string :=
  match fuel with
  | O => acc
  | S fuel' =>
      let acc' := String (digitChar (n mod 10)) acc in
      if n <? 10 then acc' else digitsOf fuel' (n / 10) acc'
  end.

Definition showNat (n : nat) : string := digitsOf (S n) n EmptyString.

(** The canonical encoding: a JSON object with the two members in this
    order and no white space. *)
Definition serializeTaskCustomRecurrenceRule (r : TaskCustomRecurrenceRule)
  : string :=
  ("{" ++ quote ++ "interval" ++ quote ++ ":" ++ showNat (interval r)
   ++ "," ++ quote ++ "unit" ++ quote ++ ":" ++ quote ++ unitName (unit r)
   ++ quote ++ "}")%string.

Definition dropPrefix (p s : string) : option string :=
  if String.prefix p s
  then Some (String.substring (String.length p)
               (String.length s - String.length p) s)
  else None.

Fixpoint readDigits (s : string) (acc : nat) (seen : bool)
  : option (nat * string) :=
  match s with
  | String c rest =>
      if isDigit c then readDigits rest (10 * acc + digitOf c) true
      else if seen then Some (acc, s) else None
  | EmptyString => if seen then Some (acc, s) else None
  end.

Definition parseStoredRule (s : string) : option TaskCustomRecurrenceRule :=
  match dropPrefix ("{" ++ quote ++ "interval" ++ quote ++ ":")%string s with
  | None => None
  | Some s1 =>
      match readDigits s1 0 false with
      | None => None
      | Some (n, s2) =>
          match dropPrefix ("," ++ quote ++ "unit" ++ quote ++ ":" ++ quote)%string
                  s2 with
          | None => None
          | Some s3 =>
              match dropPrefix (quote ++ "}")%string
                      (String.substring
                         (String.length s3 - 2) 2 s3) with
              | None => None
              | Some _ =>
                  match unitOfName
                          (String.substring 0 (String.length s3 - 2) s3) with
                  | Some u =>
                      if validRule (mkRule n u) then Some (mkRule n u)
                      else None
                  | None => None
                  end
              end
          end
      end
  end.

(** *** The helper the engine calls *)

Definition getNextTaskRecurrenceDate (anchor : string)
  (kind : TaskRecurrenceType) (rule : option string) : option string :=
  match parseIsoDate anchor with
  | None => None
  | Some d =>
      let parsed := match rule with
                    | Some text => parseStoredRule text
                    | None => None
                    end in
      match nextOccurrence d kind parsed with
      | Some d' => if validDate d' then Some (formatIsoDate d') else None
      | None => None
      end
  end.

(** [n] days after the date written [s]. *)
Definition isoAddDays (n : nat) (s : string) : option string :=
  match parseIsoDate s with
  | Some d =>
      if validDate (addDays n d) then Some (formatIsoDate (addDays n d))
      else None
  | None => None
  end.

(** The [k] days from [d] on, written out. *)
Fixpoint daysFrom (k : nat) (d : date) : list string :=
  match k with
  | O => []
  | S k' => formatIsoDate d :: daysFrom k' (nextDay d)
  end.

(** Dates in calendar order. *)
Definition dateKey (d : date) : nat :=
  (dyear d * 100 + dmonth d) * 100 + dday d.

End IsoCalendar.

(** ** An identifier generator *)

(** One generator without collisions, for the worked examples: a text longer
    than every identifier in use. *)
Definition longest (ids : list string) : nat :=
  fold_right (fun s n => Nat.max (String.length s) n) 0 ids.

Fixpoint stars (n : nat) : string :=
  match n with
  | O => EmptyString
  | S n' => String "*"%char (stars n')
  end.

Definition padId (ids : list string) : string := stars (S (longest ids)).

(** ** The route handlers of [/api/recurrences] *)

Module Api.

Import IsoCalendar.

Set Warnings "-register-all".

(** A parsed request body.  A number is kept as a fraction. *)
Inductive json :=
| JNull
| JBool (b : bool)
| JNum (num : Z) (den : positive)
| JStr (s : string)
| JArr (items : list json)
| JObj (members : list (string * json)).

(** [o[key]] on the members [JSON.parse] read: a later member wins. *)
Fixpoint lookup (key : string) (members : list (string * json))
  : option json :=
  match members with
  | [] => None
  | (k, v) :: rest =>
      match lookup key rest with
      | Some later => Some later
      | None => if String.eqb k key then Some v else None
      end
  end.

(** [body.key]; [None] is [undefined]. *)
Definition prop (key : string) (body : json) : option json :=
  match body with
  | JObj members => lookup key members
  | _ => None
  end.

Definition isUndefined (v : option json) : bool :=
  match v with None => true | Some _ => false end.

Definition isNullValue (v : option json) : bool :=
  match v with Some JNull => true | _ => false end.

Definition isString (v : option json) : bool :=
  match v with Some (JStr _) => true | _ => false end.

Definition isBoolean (v : option json) : bool :=
  match v with Some (JBool _) => true | _ => false end.

Definition stringOf (v : option json) : string :=
  match v with Some (JStr s) => s | _ => "" end.

(** JavaScript truthiness. *)
Definition truthy (v : option json) : bool :=
  match v with
  | None | Some JNull => false
  | Some (JBool b) => b
  | Some (JNum n _) => negb (Z.eqb n 0)
  | Some (JStr s) => negb (String.eqb s "")
  | Some (JArr _) | Some (JObj _) => true
  end.

(** [String.prototype.trim], on the ASCII white space. *)
Definition isWhiteSpace (c : ascii) : bool :=
  let n := nat_of_ascii c in
  (n =? 32) || ((9 <=? n) && (n <=? 13)).

Fixpoint trimStart (s : string) : string :=
  match s with
  | String c rest => if isWhiteSpace c then trimStart rest else s
  | EmptyString => EmptyString
  end.

Fixpoint trimEnd (s : string) : string :=
  match s with
  | String c rest =>
      match trimEnd rest with
      | EmptyString => if isWhiteSpace c then EmptyString
                       else String c EmptyString
      | kept => String c kept
      end
  | EmptyString => EmptyString
  end.

Definition trim (s : string) : string := trimEnd (trimStart s).

Definition priorityOfName (s : string) : option TaskPriority :=
  if String.eqb s "low" then Some low
  else if String.eqb s "medium" then Some medium
  else if String.eqb s "high" then Some high
  else None.

(** [VALID_PRIORITIES.includes(priority)] *)
Definition priorityOf (v : option json) : option TaskPriority :=
  match v with Some (JStr s) => priorityOfName s | _ => None end.

Definition seriesTypeOfName (s : string) : option TaskRecurrenceType :=
  if String.eqb s "daily" then Some daily
  else if String.eqb s "weekly" then Some weekly
  else if String.eqb s "monthly" then Some monthly
  else if String.eqb s "custom" then Some custom
  else None.

(** [isSeriesType] *)
Definition seriesTypeOf (v : option json) : option TaskRecurrenceType :=
  match v with Some (JStr s) => seriesTypeOfName s | _ => None end.

Definition behaviorOfName (s : string) : option TaskRecurrenceBehavior :=
  if String.eqb s "after_completion" then Some after_completion
  else if String.eqb s "duplicate_on_schedule"
       then Some duplicate_on_schedule
  else None.

(** [isTaskRecurrenceBehavior], after the handlers' error message:
    one of [after_completion], [duplicate_on_schedule]. *)
Definition behaviorOf (v : option json) : option TaskRecurrenceBehavior :=
  match v with Some (JStr s) => behaviorOfName s | _ => None end.

Definition isSome {A} (v : option A) : bool :=
  match v with Some _ => true | None => false end.

(** [parseTaskCustomRecurrenceRule]: only an object with an integer
    [interval] in 1..365 and a [unit] among day, week, month. *)
Definition parseTaskCustomRecurrenceRule (input : option json)
  : option TaskCustomRecurrenceRule :=
  match input with
  | Some (JObj members) =>
      match lookup "interval" members, lookup "unit" members with
      | Some (JNum n d), Some (JStr u) =>
          if (Z.eqb (n mod Zpos d) 0)
             && (Z.leb 1 (n / Zpos d)) && (Z.leb (n / Zpos d) 365)
          then match unitOfName u with
               | Some un => Some (mkRule (Z.to_nat (n / Zpos d)) un)
               | None => None
               end
          else None
      | _, _ => None
      end
  | _ => None
  end.

Inductive response :=
| errorResponse (message : string) (status : nat)
| jsonResponse (row : option Series) (status : nat)
| typeError.

(** [projectId] resolves to a project of the user. *)
Definition ownsProject (userId : string) (projectId : string) (db : Db)
  : bool :=
  existsb (fun p => String.eqb (project_id p) projectId
                    && String.eqb (project_userId p) userId) (projects db).

Definition optionString (v : option json) : option string :=
  match v with Some (JStr s) => Some s | _ => None end.

Definition boolOf (v : option json) (default : bool) : bool :=
  match v with Some (JBool b) => b | _ => default end.

(** [POST /api/recurrences] for the signed-in user. *)
Definition POST (newId : list string -> string) (now userId : string)
  (body : json) (db : Db) : response * Db :=
  match body with
  | JNull => (typeError, db)
  | _ =>
  let bad (message : string) := (errorResponse message 400, db) in
  let title := prop "title" body in
  let description := prop "description" body in
  let priority := prop "priority" body in
  let projectId := prop "projectId" body in
  let recurrenceType := prop "recurrenceType" body in
  let recurrenceBehavior := prop "recurrenceBehavior" body in
  let recurrenceRule := prop "recurrenceRule" body in
  let nextDueDate := prop "nextDueDate" body in
  let active := prop "active" body in
  if negb (truthy title) || negb (isString title)
     || (String.length (trim (stringOf title)) =? 0)
  then bad "title is required and must be a non-empty string"
  else if 500 <? String.length (stringOf title)
  then bad "title must be at most 500 characters"
  else if negb (isUndefined description) && negb (isString description)
  then bad "description must be a string"
  else if truthy description
          && (50 * 100 <? String.length (stringOf description))
  then bad "description must be at most 5000 characters"
  else if negb (isUndefined priority) && negb (isSome (priorityOf priority))
  then bad "Invalid priority. Must be one of: low, medium, high"
  else if negb (isUndefined projectId) && negb (isNullValue projectId)
          && negb (isString projectId)
  then bad "projectId must be a string or null"
  else if negb (isSome (seriesTypeOf recurrenceType))
  then bad "recurrenceType must be one of: daily, weekly, monthly, custom"
  else if negb (isUndefined recurrenceBehavior)
          && negb (isSome (behaviorOf recurrenceBehavior))
  then bad "recurrenceBehavior must be one of: after_completion, duplicate_on_schedule"
  else if negb (truthy nextDueDate) || negb (isString nextDueDate)
  then bad "nextDueDate is required and must be an ISO date string"
  else if negb (matchesIsoPattern (stringOf nextDueDate))
  then bad "nextDueDate must be a YYYY-MM-DD date"
  else if negb (isUndefined active) && negb (isBoolean active)
  then bad "active must be a boolean"
  else if negb (isUndefined projectId) && negb (isNullValue projectId)
          && negb (ownsProject userId (stringOf projectId) db)
  then bad "projectId does not match an existing project"
  else
  let resolvedProjectId := optionString projectId in
  let resolvedBehavior :=
    match behaviorOf recurrenceBehavior with
    | Some b => b
    | None => after_completion
    end in
  let kind := match seriesTypeOf recurrenceType with
              | Some k => k
              | None => daily
              end in
  let insert (resolvedRule : option string) :=
    let created :=
      mkSeries (newId (map series_id (recurrenceSeries db))) userId
        resolvedProjectId (trim (stringOf title)) (optionString description)
        (match priorityOf priority with Some p => p | None => medium end)
        kind resolvedBehavior resolvedRule (stringOf nextDueDate)
        (boolOf active true) None now now in
    (jsonResponse (Some created) 201, insertSeries created db) in
  match kind with
  | custom =>
      match parseTaskCustomRecurrenceRule recurrenceRule with
      | None =>
          bad "recurrenceRule is required for custom recurrence and must include interval (1-365) and unit (day|week|month)"
      | Some parsed => insert (Some (serializeTaskCustomRecurrenceRule parsed))
      end
  | _ =>
      if negb (isUndefined recurrenceRule) && negb (isNullValue recurrenceRule)
      then bad "recurrenceRule can only be set when recurrenceType is custom"
      else insert None
  end
  end.

(** The row [PUT] works on. *)
Definition findSeries (userId id : string) (db : Db) : option Series :=
  find (fun s => String.eqb (series_id s) id
                 && String.eqb (series_userId s) userId
                 && isNull (series_deletedAt s)) (recurrenceSeries db).

(** The [updates] object of [PUT], applied to a row. *)
Definition applyUpdates (body : json) (nextType : TaskRecurrenceType)
  (nextRule : option string) (now : string) (s : Series) : Series :=
  let title := prop "title" body in
  let description := prop "description" body in
  let priority := prop "priority" body in
  let projectId := prop "projectId" body in
  let recurrenceBehavior := prop "recurrenceBehavior" body in
  let nextDueDate := prop "nextDueDate" body in
  let active := prop "active" body in
  let hasRecurrenceType := isSome (prop "recurrenceType" body) in
  let hasRecurrenceRule := isSome (prop "recurrenceRule" body) in
  mkSeries (series_id s) (series_userId s)
    (if isUndefined projectId then series_projectId s
     else optionString projectId)
    (if isUndefined title then series_title s else trim (stringOf title))
    (if isUndefined description then series_description s
     else optionString description)
    (match priorityOf priority with
     | Some p => p
     | None => series_priority s
     end)
    (if hasRecurrenceType then nextType else series_recurrenceType s)
    (match behaviorOf recurrenceBehavior with
     | Some b => b
     | None => series_recurrenceBehavior s
     end)
    (if hasRecurrenceRule || hasRecurrenceType then nextRule
     else series_recurrenceRule s)
    (if isUndefined nextDueDate then series_nextDueDate s
     else stringOf nextDueDate)
    (boolOf active (series_active s))
    (series_deletedAt s) (series_createdAt s) now.

(** [!nextRule] on a stored rule. *)
Definition noRule (rule : option string) : bool :=
  match rule with
  | None => true
  | Some text => String.eqb text ""
  end.

(** [PUT /api/recurrences/[id]] for the signed-in user. *)
Definition PUT (now userId id : string) (body : json) (db : Db)
  : response * Db :=
  match body with
  | JNull => (typeError, db)
  | _ =>
  let bad (message : string) := (errorResponse message 400, db) in
  let title := prop "title" body in
  let description := prop "description" body in
  let priority := prop "priority" body in
  let projectId := prop "projectId" body in
  let recurrenceType := prop "recurrenceType" body in
  let recurrenceBehavior := prop "recurrenceBehavior" body in
  let recurrenceRule := prop "recurrenceRule" body in
  let nextDueDate := prop "nextDueDate" body in
  let active := prop "active" body in
  if negb (isUndefined title)
     && (negb (isString title)
         || (String.length (trim (stringOf title)) =? 0))
  then bad "title must be a non-empty string"
  else if truthy title && (500 <? String.length (stringOf title))
  then bad "title must be at most 500 characters"
  else if negb (isUndefined description) && negb (isString description)
  then bad "description must be a string"
  else if truthy description
          && (50 * 100 <? String.length (stringOf description))
  then bad "description must be at most 5000 characters"
  else if negb (isUndefined priority) && negb (isSome (priorityOf priority))
  then bad "Invalid priority. Must be one of: low, medium, high"
  else if negb (isUndefined projectId) && negb (isNullValue projectId)
          && negb (isString projectId)
  then bad "projectId must be a string or null"
  else if negb (isUndefined recurrenceType)
          && negb (isSome (seriesTypeOf recurrenceType))
  then bad "recurrenceType must be one of: daily, weekly, monthly, custom"
  else if negb (isUndefined recurrenceBehavior)
          && negb (isSome (behaviorOf recurrenceBehavior))
  then bad "recurrenceBehavior must be one of: after_completion, duplicate_on_schedule"
  else if negb (isUndefined nextDueDate) && negb (isString nextDueDate)
  then bad "nextDueDate must be an ISO date string"
  else if isString nextDueDate
          && negb (matchesIsoPattern (stringOf nextDueDate))
  then bad "nextDueDate must be a YYYY-MM-DD date"
  else if negb (isUndefined active) && negb (isBoolean active)
  then bad "active must be a boolean"
  else
  match findSeries userId id db with
  | None => (errorResponse "Recurrence series not found" 404, db)
  | Some existing =>
  if negb (isUndefined projectId) && negb (isNullValue projectId)
     && negb (ownsProject userId (stringOf projectId) db)
  then bad "projectId does not match an existing project"
  else
  let hasRecurrenceType := isSome recurrenceType in
  let hasRecurrenceRule := isSome recurrenceRule in
  let nextType :=
    if hasRecurrenceType
    then match seriesTypeOf recurrenceType with
         | Some k => k
         | None => series_recurrenceType existing
         end
    else series_recurrenceType existing in
  let update (nextRule : option string) :=
    let db' := updateSeriesWhere (fun s => String.eqb (series_id s) id)
                 (applyUpdates body nextType nextRule now) db in
    (jsonResponse
       (find (fun s => String.eqb (series_id s) id) (recurrenceSeries db'))
       200, db') in
  let finish (nextRule : option string) :=
    match nextType with
    | custom =>
        if noRule nextRule
        then bad "recurrenceRule is required when recurrenceType is custom"
        else update nextRule
    | _ =>
        if hasRecurrenceRule && negb (isNullValue recurrenceRule)
        then bad "recurrenceRule can only be set when recurrenceType is custom"
        else if hasRecurrenceType then update None
        else update nextRule
    end in
  if hasRecurrenceRule
  then if isNullValue recurrenceRule then finish None
       else match parseTaskCustomRecurrenceRule recurrenceRule with
            | None =>
                bad "recurrenceRule must include interval (1-365) and unit (day|week|month)"
            | Some parsed =>
                finish (Some (serializeTaskCustomRecurrenceRule parsed))
            end
  else finish (series_recurrenceRule existing)
  end
  end.

(** A rule the specification rules out: an object whose [interval] is a
    number outside 1..365, or whose [unit] is a text other than day, week,
    month. *)
Definition outOfRange (rule : json) : Prop :=
  exists members,
    rule = JObj members
    /\ ((exists n d, lookup "interval" members = Some (JNum n d)
                     /\ (n < 1 * Zpos d \/ n > 365 * Zpos d)%Z)
        \/ (exists u, lookup "unit" members = Some (JStr u)
                      /\ u <> "day" /\ u <> "week" /\ u <> "month")).

(** What a handler that sends no series row answers. *)
Inductive reply (A : Type) :=
| failure (message : string) (status : nat)
| success (body : A).

Arguments failure {A} message status.
Arguments success {A} body.

(** JavaScript truthiness of a nullable text column. *)
Definition isSet (v : option string) : bool :=
  match v with
  | None => false
  | Some text => negb (String.eqb text "")
  end.

(** [DELETE /api/recurrences/[id]] for the signed-in user; the clock is
    read once for [deletedAt] and once for [updatedAt].  The body of a
    success is [{ deleted: true }]. *)
Definition DELETE (deletedNow updatedNow userId id : string) (db : Db)
  : reply bool * Db :=
  match find (fun s => String.eqb (series_id s) id
                       && String.eqb (series_userId s) userId)
          (recurrenceSeries db) with
  | None => (failure "Recurrence series not found" 404, db)
  | Some existing =>
      if isSet (series_deletedAt existing)
      then (failure "Recurrence series not found" 404, db)
      else (success true,
            updateSeriesWhere (fun s => String.eqb (series_id s) id)
              (fun s =>
                 mkSeries (series_id s) (series_userId s) (series_projectId s)
                   (series_title s) (series_description s)
                   (series_priority s) (series_recurrenceType s)
                   (series_recurrenceBehavior s) (series_recurrenceRule s)
                   (series_nextDueDate s) (series_active s)
                   (Some deletedNow) (series_createdAt s) updatedNow)
              db)
  end.

(** [ORDER BY updatedAt DESC], as an insertion sort. *)
Fixpoint insertByUpdatedAt (s : Series) (rows : list Series) : list Series :=
  match rows with
  | [] => [s]
  | r :: rest =>
      if str_leb (series_updatedAt r) (series_updatedAt s)
      then s :: r :: rest
      else r :: insertByUpdatedAt s rest
  end.

Definition orderByUpdatedAtDesc (rows : list Series) : list Series :=
  fold_right insertByUpdatedAt [] rows.

(** The rows [GET] selects. *)
Definition listedFor (userId : string) (s : Series) : bool :=
  String.eqb (series_userId s) userId && isNull (series_deletedAt s).

(** [GET /api/recurrences] for the signed-in user, whose day is
    [todayIsoDate]. *)
Definition GET
  (getNextTaskRecurrenceDate :
     string -> TaskRecurrenceType -> option string -> option string)
  (newId : list string -> string) (now userId todayIsoDate : string)
  (db : Db) : reply (list Series) * Db :=
  let db' := syncRecurrenceSeriesForUser getNextTaskRecurrenceDate newId
               userId todayIsoDate now db in
  (success (orderByUpdatedAtDesc
              (filter (listedFor userId) (recurrenceSeries db'))), db').

(** A request that was answered with a row. *)
Definition succeeded (r : response) : Prop :=
  exists row status, r = jsonResponse row status.

(** What the handlers keep true of a stored series: a kind other than
    [none], a [nextDueDate] of the shape YYYY-MM-DD, a rule exactly when
    the kind is [custom]. *)
Definition wellFormed (s : Series) : Prop :=
  series_recurrenceType s <> none
  /\ matchesIsoPattern (series_nextDueDate s) = true
  /\ (series_recurrenceType s = custom ->
      noRule (series_recurrenceRule s) = false)
  /\ (series_recurrenceType s <> custom -> series_recurrenceRule s = None).

(** Two tables of series that differ only in the rows with one id, and
    there by [change]. *)
Definition changedOnly (id : string) (change : Series -> Series -> Prop)
  (before after : list Series) : Prop :=
  Forall2 (fun s s' => if String.eqb (series_id s) id then change s s'
                       else s' = s) before after.

(** The columns [PUT] never writes. *)
Definition sameIdentity (s s' : Series) : Prop :=
  series_id s' = series_id s
  /\ series_userId s' = series_userId s
  /\ series_deletedAt s' = series_deletedAt s
  /\ series_createdAt s' = series_createdAt s.

(** A row and its soft-deleted version. *)
Definition softDeleted (deletedNow updatedNow : string) (s s' : Series)
  : Prop :=
  s' = mkSeries (series_id s) (series_userId s) (series_projectId s)
         (series_title s) (series_description s) (series_priority s)
         (series_recurrenceType s) (series_recurrenceBehavior s)
         (series_recurrenceRule s) (series_nextDueDate s) (series_active s)
         (Some deletedNow) (series_createdAt s) updatedNow.

(** The row [POST] stores for a body that passed its checks. *)
Definition postedRow (newId : list string -> string) (now userId : string)
  (body : json) (db : Db) (kind : TaskRecurrenceType) (rule : option string)
  : Series :=
  mkSeries (newId (map series_id (recurrenceSeries db))) userId
    (optionString (prop "projectId" body))
    (trim (stringOf (prop "title" body)))
    (optionString (prop "description" body))
    (match priorityOf (prop "priority" body) with
     | Some p => p
     | None => medium
     end)
    kind
    (match behaviorOf (prop "recurrenceBehavior" body) with
     | Some b => b
     | None => after_completion
     end)
    rule
    (stringOf (prop "nextDueDate" body))
    (boolOf (prop "active" body) true) None now now.

(** What [PUT] answers and leaves behind for a body that passed its
    checks. *)
Definition putResult (now id : string) (body : json) (db : Db)
  (nextType : TaskRecurrenceType) (written : option string)
  : response * Db :=
  let db' := updateSeriesWhere (fun s => String.eqb (series_id s) id)
               (applyUpdates body nextType written now) db in
  (jsonResponse
     (find (fun s => String.eqb (series_id s) id) (recurrenceSeries db'))
     200, db').

(** The order [GET] lists in. *)
Definition newestFirst (a b : Series) : Prop :=
  str_le (series_updatedAt b) (series_updatedAt a).

(** The body the recurring-tasks page sends to pause or resume a series:
    [{ active: !entry.active }]. *)
Definition toggleActiveBody (entry : Series) : json :=
  JObj [("active", JBool (negb (series_active entry)))].

(** A row and the same row paused or resumed at [now]. *)
Definition withActive (active : bool) (now : string) (s : Series) : Series :=
  mkSeries (series_id s) (series_userId s) (series_projectId s)
    (series_title s) (series_description s) (series_priority s)
    (series_recurrenceType s) (series_recurrenceBehavior s)
    (series_recurrenceRule s) (series_nextDueDate s) active
    (series_deletedAt s) (series_createdAt s) now.

End Api.

(** ** The client side: previews and the task list *)

Module Client.

(** *** [task-recurrence-preview] *)

Section Preview.

(** The three helpers of [@/lib/task-recurrence] the previews call. *)
Variable describeTaskRecurrence :
  TaskRecurrenceType -> option string -> string.
Variable getNextTaskRecurrenceDate :
  string -> TaskRecurrenceType -> option string -> option string.
Variable getNextTaskRecurrenceOnOrAfter :
  string -> TaskRecurrenceType -> option string -> string -> option string.

Record Preview := mkPreview {
  cadence : string;
  next : option string;
  detail : string
}.

(** JavaScript truthiness of a text that may be [null]. *)
Definition present (v : option string) : bool :=
  match v with
  | None => false
  | Some text => negb (String.eqb text "")
  end.

(** [task.dueDate && task.dueDate > todayIsoDate ? task.dueDate
    : todayIsoDate] *)
Definition previewAnchor (todayIsoDate : string) (task : Task) : string :=
  match task_dueDate task with
  | Some d => if present (Some d) && str_gtb d todayIsoDate then d
              else todayIsoDate
  | None => todayIsoDate
  end.

(** [getTaskRecurrencePreview]; [todayIsoDate] is what [getTodayIsoDate]
    reads off the clock. *)
Definition getTaskRecurrencePreview (todayIsoDate : string) (task : Task)
  : Preview :=
  let cadence :=
    describeTaskRecurrence (task_recurrenceType task)
      (task_recurrenceRule task) in
  match task_recurrenceBehavior task with
  | after_completion =>
      let anchor := previewAnchor todayIsoDate task in
      let next :=
        getNextTaskRecurrenceDate anchor (task_recurrenceType task)
          (task_recurrenceRule task) in
      mkPreview cadence next
        (if present next
         then ("If completed today, next occurrence is scheduled for "
               ++ match next with Some n => n | None => "" end
               ++ " (active at midnight).")%string
         else "Set a valid recurrence rule to preview the next occurrence.")
  | duplicate_on_schedule =>
      let next :=
        match task_dueDate task with
        | Some d =>
            if present (Some d)
            then getNextTaskRecurrenceOnOrAfter d (task_recurrenceType task)
                   (task_recurrenceRule task) todayIsoDate
            else None
        | None => None
        end in
      mkPreview cadence next
        (if present (task_dueDate task)
         then (if present next
               then ("Next scheduled duplicate: "
                     ++ match next with Some n => n | None => "" end
                     ++ " (active at midnight).")%string
               else "Unable to calculate the next duplicate date.")
         else "Add a due date to anchor schedule-based duplicates.")
  end.

(** [getRecurrenceSeriesPreview] *)
Definition getRecurrenceSeriesPreview (series : Series) : Preview :=
  mkPreview
    (describeTaskRecurrence (series_recurrenceType series)
       (series_recurrenceRule series))
    (Some (series_nextDueDate series))
    (match series_recurrenceBehavior series with
     | after_completion =>
         ("Next instance due " ++ series_nextDueDate series
          ++ ". Completing an instance advances this date.")%string
     | duplicate_on_schedule =>
         ("Next scheduled instance due " ++ series_nextDueDate series
          ++ ". Instances are created at midnight on schedule dates.")%string
     end).

End Preview.

(** *** The task list of [TasksPage] *)

(** The status a click on the status button moves a task to. *)
Definition nextStatus (s : TaskStatus) : TaskStatus :=
  match s with
  | open => in_progress
  | in_progress => done
  | done => open
  end.

(** [{ ...t, status }] *)
Definition task_withStatus (status : TaskStatus) (t : Task) : Task :=
  mkTask (task_id t) (task_userId t) (task_projectId t) (task_title t)
    (task_description t) status (task_priority t) (task_dueDate t)
    (task_recurrenceType t) (task_recurrenceBehavior t)
    (task_recurrenceRule t) (task_recurrenceSeriesId t)
    (task_recurrenceProcessedAt t) (task_deletedAt t) (task_createdAt t)
    (task_updatedAt t).

(** [prev.map((t) => (t.id === id ? { ...t, status } : t))] *)
Definition setStatus (id : string) (status : TaskStatus) (prev : list Task)
  : list Task :=
  map (fun t => if String.eqb (task_id t) id then task_withStatus status t
                else t) prev.

(** [handleStatusToggle] on the list in state: the optimistic update, and
    the roll-back when the request fails ([saved] is whether
    [api.tasks.update] resolved). *)
Definition handleStatusToggle (saved : bool) (task : Task)
  (tasks : list Task) : list Task :=
  let optimistic :=
    setStatus (task_id task) (nextStatus (task_status task)) tasks in
  if saved then optimistic
  else setStatus (task_id task) (task_status task) optimistic.

End Client.

(** ** Worked examples *)

Module Examples.

Import IsoCalendar Api.

Definition alice : string := "user-alice".
Definition today : string := "2024-05-11".
Definition clock : string := "2024-05-11T07:30:00.000Z".
Definition later : string := "2024-05-11T07:31:00.000Z".
Definition created : string := "2024-01-01T09:00:00.000Z".

Definition sync (now : string) (db : Db) : Db :=
  syncRecurrenceSeriesForUser getNextTaskRecurrenceDate padId alice today
    now db.

Definition migrate (now : string) (db : Db) : Db :=
  migrateLegacyTaskRecurrencesForUser getNextTaskRecurrenceDate padId alice
    today now db.

(** A daily series of [alice]. *)
Definition plants (behavior : TaskRecurrenceBehavior) (nextDueDate : string)
  : Series :=
  mkSeries "series-plants" alice None "Water the plants" None medium daily
    behavior None nextDueDate true None created created.

(** Scheduled duplicates, last looked at ten days ago. *)
Definition tenDaysBehind : Db :=
  mkDb [] [plants duplicate_on_schedule "2024-05-01"] [].

(** Scheduled duplicates, not looked at since December 2022. *)
Definition longNeglected : Db :=
  mkDb [] [plants duplicate_on_schedule "2022-12-01"] [].

(** Due today, waiting for completion, no instance yet. *)
Definition dueToday : Db :=
  mkDb [] [plants after_completion today] [].

(** An open instance the user moved to the bin yesterday. *)
Definition binnedInstance : Task :=
  mkTask "task-binned" alice None "Water the plants" None open medium
    (Some "2024-05-10") none after_completion None (Some "series-plants")
    None (Some "2024-05-10T20:00:00.000Z") created created.

Definition withBinnedInstance : Db :=
  mkDb [binnedInstance] [plants after_completion today] [].

(** The legacy item of the specification: inline daily recurrence, open,
    due 2024-05-01. *)
Definition legacyReport : Task :=
  mkTask "task-report" alice None "Daily report" None open high
    (Some "2024-05-01") daily after_completion None None None None
    created created.

Definition legacyDb : Db := mkDb [legacyReport] [] [].

(** The first instance a pass makes for [dueToday]. *)
Definition firstInstance : Task :=
  instanceOf (padId []) clock (plants after_completion today) today.

(** A custom rule with an interval of 400. *)
Definition every400Days : json :=
  JObj [("interval", JNum 400 1); ("unit", JStr "day")].

Definition backupsBody : json :=
  JObj [("title", JStr "Backups");
        ("recurrenceType", JStr "custom");
        ("recurrenceRule", every400Days);
        ("nextDueDate", JStr today)].

Definition bob : string := "user-bob".

(** The legacy item once it is done. *)
Definition legacyReportDone : Task :=
  mkTask "task-report" alice None "Daily report" None done high
    (Some "2024-05-01") daily after_completion None None None None
    created created.

Definition legacyDoneDb : Db := mkDb [legacyReportDone] [] [].

(** Two users with one series each. *)
Definition bobsPlants : Series :=
  mkSeries "series-bob" bob None "Water the plants" None medium daily
    duplicate_on_schedule None "2024-05-01" true None created created.

Definition twoUsers : Db :=
  mkDb [] [plants duplicate_on_schedule "2024-05-01"; bobsPlants] [].

(** A body [POST] accepts, and the row it makes in [dueToday]. *)
Definition weeklyBody : json :=
  JObj [("title", JStr "  Backups ");
        ("recurrenceType", JStr "weekly");
        ("nextDueDate", JStr today)].

Definition backupsRow : Series :=
  mkSeries (padId ["series-plants"]) alice None "Backups" None medium weekly
    after_completion None today true None clock clock.

(** A body [PUT] accepts. *)
Definition renameBody : json := JObj [("title", JStr "Water the ferns")].

Definition renamedPlants : Series :=
  mkSeries "series-plants" alice None "Water the ferns" None medium daily
    duplicate_on_schedule None "2024-05-01" true None created clock.

(** Stand-ins for the two helpers only the previews call. *)
Definition describeKind (kind : TaskRecurrenceType) (rule : option string)
  : string :=
  match kind with
  | none => "Does not repeat"
  | daily => "Daily"
  | weekly => "Weekly"
  | monthly => "Monthly"
  | custom => "Custom"
  end.

Definition noDuplicateDate (anchor : string) (kind : TaskRecurrenceType)
  (rule : option string) (todayIsoDate : string) : option string := None.

End Examples.

(** * Properties *)

(** ** Text order *)

Lemma str_compare_refl s : String.compare s s = Eq.
Proof.
  induction s as [|c s IH]; simpl; [reflexivity|].
  unfold Ascii.compare. rewrite N.compare_refl. exact IH.
Qed.

Lemma str_compare_cons c1 s1 c2 s2 :
  String.compare (String c1 s1) (String c2 s2)
  = match N.compare (N_of_ascii c1) (N_of_ascii c2) with
    | Eq => String.compare s1 s2
    | o => o
    end.
Proof. reflexivity. Qed.

Lemma str_compare_cons_ascii c1 s1 c2 s2 :
  String.compare (String c1 s1) (String c2 s2)
  = match Ascii.compare c1 c2 with
    | Eq => String.compare s1 s2
    | o => o
    end.
Proof. reflexivity. Qed.

Lemma str_compare_lt_trans : forall s1 s2 s3,
  String.compare s1 s2 = Lt -> String.compare s2 s3 = Lt ->
  String.compare s1 s3 = Lt.
Proof.
  induction s1 as [|c1 s1 IH]; intros [|c2 s2] [|c3 s3]; simpl;
    try discriminate; try reflexivity.
  unfold Ascii.compare.
  destruct (N.compare_spec (N_of_ascii c1) (N_of_ascii c2)) as [E12|L12|G12];
    try discriminate;
  destruct (N.compare_spec (N_of_ascii c2) (N_of_ascii c3)) as [E23|L23|G23];
    try discriminate; intros H12 H23.
  - rewrite E12, E23, N.compare_refl. eapply IH; eauto.
  - rewrite E12. apply N.compare_lt_iff in L23. rewrite L23. reflexivity.
  - rewrite <- E23. apply N.compare_lt_iff in L12. rewrite L12. reflexivity.
  - assert (L : (N_of_ascii c1 < N_of_ascii c3)%N) by lia.
    apply N.compare_lt_iff in L. rewrite L. reflexivity.
Qed.

Lemma str_le_iff a b : str_le a b <-> str_lt a b \/ a = b.
Proof.
  unfold str_le, str_leb, String.leb, str_lt.
  destruct (String.compare a b) eqn:E.
  - apply String.compare_eq_iff in E. split; auto.
  - split; auto.
  - split; [discriminate|].
    intros [H|H]; [discriminate|].
    subst. rewrite str_compare_refl in E. discriminate.
Qed.

Lemma str_le_refl a : str_le a a.
Proof. apply str_le_iff. right; reflexivity. Qed.

Lemma str_lt_le a b : str_lt a b -> str_le a b.
Proof. intros H. apply str_le_iff. left; exact H. Qed.

Lemma str_le_trans a b c : str_le a b -> str_le b c -> str_le a c.
Proof.
  rewrite !str_le_iff. intros [H1|E1] [H2|E2]; subst; auto.
  left. eapply str_compare_lt_trans; eauto.
Qed.

Lemma str_lt_le_trans a b c : str_lt a b -> str_le b c -> str_lt a c.
Proof.
  rewrite str_le_iff. intros H1 [H2|E2]; subst; auto.
  eapply str_compare_lt_trans; eauto.
Qed.

Lemma str_le_lt_trans a b c : str_le a b -> str_lt b c -> str_lt a c.
Proof.
  rewrite str_le_iff. intros [H1|E1] H2; subst; auto.
  eapply str_compare_lt_trans; eauto.
Qed.

Lemma str_gtb_false a b : str_gtb a b = false <-> str_le a b.
Proof. unfold str_gtb, str_le, str_leb. apply negb_false_iff. Qed.

Lemma str_gtb_true a b : str_gtb a b = true <-> str_lt b a.
Proof.
  unfold str_gtb, str_leb, String.leb, str_lt.
  rewrite String.compare_antisym.
  destruct (String.compare b a); simpl; split; congruence.
Qed.

Lemma str_lt_irrefl a : ~ str_lt a a.
Proof. unfold str_lt. rewrite str_compare_refl. discriminate. Qed.

Lemma str_lt_not_le a b : str_lt a b -> ~ str_le b a.
Proof.
  intros H1 H2. apply (str_lt_irrefl (a := a)).
  eapply str_lt_le_trans; eauto.
Qed.

Lemma str_max_ge_l a b : str_le a (str_max a b).
Proof.
  unfold str_max. destruct (str_gtb a b) eqn:E.
  - apply str_le_refl.
  - apply str_gtb_false. exact E.
Qed.

Lemma str_max_ge_r a b : str_le b (str_max a b).
Proof.
  unfold str_max. destruct (str_gtb a b) eqn:E.
  - apply str_lt_le. apply str_gtb_true. exact E.
  - apply str_le_refl.
Qed.

(** ** The calendar *)

Module IsoCalendarFacts.
Import IsoCalendar.

Ltac Zify.zify_post_hook ::= Z.to_euclidean_division_equations.

(** *** Digits *)

Lemma isDigit_range c :
  isDigit c = true <-> 48 <= nat_of_ascii c <= 57.
Proof.
  unfold isDigit. rewrite andb_true_iff, !Nat.leb_le. tauto.
Qed.

Lemma nat_of_digitChar n : n < 10 -> nat_of_ascii (digitChar n) = 48 + n.
Proof.
  intros H. unfold digitChar. apply nat_ascii_embedding. lia.
Qed.

Lemma digitOf_digitChar n : n < 10 -> digitOf (digitChar n) = n.
Proof.
  intros H. unfold digitOf. rewrite nat_of_digitChar by exact H. lia.
Qed.

Lemma isDigit_digitChar n : n < 10 -> isDigit (digitChar n) = true.
Proof.
  intros H. apply isDigit_range. rewrite nat_of_digitChar by exact H. lia.
Qed.

Lemma digitOf_lt c : isDigit c = true -> digitOf c < 10.
Proof. intros H. apply isDigit_range in H. unfold digitOf. lia. Qed.

Lemma digitChar_digitOf c : isDigit c = true -> digitChar (digitOf c) = c.
Proof.
  intros H. apply isDigit_range in H. unfold digitChar, digitOf.
  replace (48 + (nat_of_ascii c - 48)) with (nat_of_ascii c) by lia.
  apply ascii_nat_embedding.
Qed.

Lemma isDash_eq c : isDash c = true -> c = "-"%char.
Proof. unfold isDash. apply Ascii.eqb_eq. Qed.

Lemma compare_digitChar a b :
  a < 10 -> b < 10 ->
  Ascii.compare (digitChar a) (digitChar b) = Nat.compare a b.
Proof.
  intros Ha Hb. unfold Ascii.compare.
  rewrite N2Nat.inj_compare.
  change (N.to_nat (N_of_ascii ?c)) with (nat_of_ascii c).
  rewrite !nat_of_digitChar by assumption.
  destruct (Nat.compare_spec a b) as [E|L|G].
  - subst. apply Nat.compare_refl.
  - apply Nat.compare_lt_iff. lia.
  - apply Nat.compare_gt_iff. lia.
Qed.

Lemma compare_digit_cons a b s t :
  a < 10 -> b < 10 ->
  String.compare (String (digitChar a) s) (String (digitChar b) t)
  = match Nat.compare a b with
    | Eq => String.compare s t
    | o => o
    end.
Proof.
  intros Ha Hb. rewrite str_compare_cons_ascii, compare_digitChar by assumption.
  reflexivity.
Qed.

Lemma compare_dash_cons s t :
  String.compare (String "-"%char s) (String "-"%char t) = String.compare s t.
Proof. reflexivity. Qed.

(** *** Dates *)

Lemma daysInMonth_range y m : 28 <= daysInMonth y m <= 31.
Proof.
  unfold daysInMonth.
  do 12 (destruct m as [|m]; [try lia; destruct (isLeapYear y); lia|]).
  lia.
Qed.

Lemma validDate_iff d :
  validDate d = true
  <-> 1 <= dmonth d <= 12
      /\ 1 <= dday d <= daysInMonth (dyear d) (dmonth d)
      /\ dyear d <= maxYear.
Proof.
  unfold validDate. rewrite !andb_true_iff, !Nat.leb_le. tauto.
Qed.

Lemma validDate_bounds d :
  validDate d = true ->
  1 <= dmonth d <= 12 /\ 1 <= dday d <= 31 /\ dyear d < 100 * 100.
Proof.
  intros H. apply validDate_iff in H. destruct H as (Hm & Hd & Hy).
  pose proof (daysInMonth_range (dyear d) (dmonth d)).
  unfold maxYear in Hy. lia.
Qed.

Lemma dateKey_inj a b :
  validDate a = true -> validDate b = true ->
  dateKey a = dateKey b -> a = b.
Proof.
  intros Ha Hb. apply validDate_bounds in Ha, Hb.
  destruct a as [ya ma da], b as [yb mb db]; unfold dateKey; simpl in *.
  intros E.
  assert (ya = yb /\ ma = mb /\ da = db) as (-> & -> & ->) by lia.
  reflexivity.
Qed.

Lemma format_lt a b :
  validDate a = true -> validDate b = true ->
  dateKey a < dateKey b ->
  str_lt (formatIsoDate a) (formatIsoDate b).
Proof.
  intros Ha Hb. apply validDate_bounds in Ha, Hb.
  destruct a as [ya ma da], b as [yb mb db]; unfold dateKey; simpl in *.
  intros Hk. unfold str_lt, formatIsoDate; simpl dyear; simpl dmonth;
    simpl dday.
  rewrite !compare_digit_cons, compare_dash_cons,
    !compare_digit_cons, compare_dash_cons, !compare_digit_cons by lia.
  simpl String.compare.
  repeat match goal with
         | |- context [Nat.compare ?x ?y] =>
             destruct (Nat.compare_spec x y)
         end; try reflexivity; exfalso; lia.
Qed.

Lemma format_le a b :
  validDate a = true -> validDate b = true ->
  dateKey a <= dateKey b ->
  str_le (formatIsoDate a) (formatIsoDate b).
Proof.
  intros Ha Hb Hk. apply str_le_iff.
  destruct (Nat.eq_dec (dateKey a) (dateKey b)) as [E|N].
  - right. f_equal. apply dateKey_inj; assumption.
  - left. apply format_lt; trivial. lia.
Qed.

Lemma parse_format d :
  validDate d = true -> parseIsoDate (formatIsoDate d) = Some d.
Proof.
  intros Hv. pose proof (validDate_bounds d Hv) as Hb.
  destruct d as [y m dd]; simpl in Hb.
  unfold parseIsoDate, formatIsoDate, matchesIsoPattern;
    simpl dyear; simpl dmonth; simpl dday.
  rewrite !isDigit_digitChar by lia.
  rewrite !digitOf_digitChar by lia.
  simpl andb.
  replace (1000 * (y / 1000) + 100 * (y / 100 mod 10) + 10 * (y / 10 mod 10)
           + y mod 10) with y by lia.
  replace (10 * (m / 10) + m mod 10) with m by lia.
  replace (10 * (dd / 10) + dd mod 10) with dd by lia.
  rewrite Hv. reflexivity.
Qed.

Lemma format_parse s d :
  parseIsoDate s = Some d -> formatIsoDate d = s /\ validDate d = true.
Proof.
  unfold parseIsoDate.
  destruct s as [|y1 [|y2 [|y3 [|y4 [|h1 [|m1 [|m2 [|h2 [|d1 [|d2 [|]]]]]]]]]]];
    try discriminate.
  destruct (matchesIsoPattern _) eqn:P; [|discriminate]. cbv zeta.
  remember (1000 * digitOf y1 + 100 * digitOf y2 + 10 * digitOf y3
            + digitOf y4) as Y eqn:EY.
  remember (10 * digitOf m1 + digitOf m2) as M eqn:EM.
  remember (10 * digitOf d1 + digitOf d2) as D eqn:ED.
  destruct (validDate (mkDate Y M D)) eqn:V; [|discriminate].
  intros E. assert (Ed : d = mkDate Y M D) by congruence. subst d.
  split; [|exact V].
  unfold matchesIsoPattern in P. rewrite !andb_true_iff in P.
  destruct P as (((((((((P1 & P2) & P3) & P4) & Q1) & P5) & P6) & Q2) & P7)
                 & P8).
  pose proof (digitOf_lt _ P1). pose proof (digitOf_lt _ P2).
  pose proof (digitOf_lt _ P3). pose proof (digitOf_lt _ P4).
  pose proof (digitOf_lt _ P5). pose proof (digitOf_lt _ P6).
  pose proof (digitOf_lt _ P7). pose proof (digitOf_lt _ P8).
  apply isDash_eq in Q1, Q2. subst h1 h2.
  unfold formatIsoDate; cbn [dyear dmonth dday].
  replace (Y / 1000) with (digitOf y1) by lia.
  replace (Y / 100 mod 10) with (digitOf y2) by lia.
  replace (Y / 10 mod 10) with (digitOf y3) by lia.
  replace (Y mod 10) with (digitOf y4) by lia.
  replace (M / 10) with (digitOf m1) by lia.
  replace (M mod 10) with (digitOf m2) by lia.
  replace (D / 10) with (digitOf d1) by lia.
  replace (D mod 10) with (digitOf d2) by lia.
  rewrite !digitChar_digitOf by assumption. reflexivity.
Qed.

(** *** Steps go forward *)

Lemma validDate_calendar d : validDate d = true -> calendarDate d.
Proof. intros H. apply validDate_iff in H. unfold calendarDate. tauto. Qed.

Lemma nextDay_calendar d : calendarDate d -> calendarDate (nextDay d).
Proof.
  unfold calendarDate, nextDay. intros (Hm & Hd).
  destruct (dday d <? daysInMonth (dyear d) (dmonth d)) eqn:E1.
  - apply Nat.ltb_lt in E1. cbn [dyear dmonth dday]. lia.
  - destruct (dmonth d <? 12) eqn:E2; cbn [dyear dmonth dday].
    + apply Nat.ltb_lt in E2.
      pose proof (daysInMonth_range (dyear d) (S (dmonth d))). lia.
    + pose proof (daysInMonth_range (S (dyear d)) 1). lia.
Qed.

Lemma nextDay_key d : calendarDate d -> dateKey d < dateKey (nextDay d).
Proof.
  unfold calendarDate, nextDay, dateKey. intros (Hm & Hd).
  pose proof (daysInMonth_range (dyear d) (dmonth d)).
  destruct (dday d <? daysInMonth (dyear d) (dmonth d)) eqn:E1; cbn [dyear dmonth dday].
  - lia.
  - destruct (dmonth d <? 12) eqn:E2; cbn [dyear dmonth dday]; lia.
Qed.

Lemma nextDay_year d : dyear d <= dyear (nextDay d).
Proof.
  unfold nextDay.
  destruct (dday d <? _); cbn [dyear dmonth dday]; [lia|].
  destruct (dmonth d <? 12); cbn [dyear dmonth dday]; lia.
Qed.

Lemma addDays_calendar n : forall d,
  calendarDate d -> calendarDate (addDays n d).
Proof.
  induction n as [|n IH]; intros d H; simpl; [exact H|].
  apply IH. apply nextDay_calendar. exact H.
Qed.

Lemma addDays_key n : forall d,
  calendarDate d -> dateKey d + n <= dateKey (addDays n d).
Proof.
  induction n as [|n IH]; intros d H; simpl; [lia|].
  pose proof (nextDay_key H).
  pose proof (IH (nextDay d) (nextDay_calendar H)). lia.
Qed.

Lemma addDays_year n : forall d, dyear d <= dyear (addDays n d).
Proof.
  induction n as [|n IH]; intros d; simpl; [lia|].
  pose proof (nextDay_year d). pose proof (IH (nextDay d)). lia.
Qed.

Lemma addMonths_key n d :
  calendarDate d -> dateKey d <= dateKey (addMonths n d).
Proof.
  unfold calendarDate, addMonths, dateKey. cbv zeta.
  cbn [dyear dmonth dday]. intros (Hm & Hd).
  set (total := dyear d * 12 + (dmonth d - 1) + n).
  pose proof (daysInMonth_range (dyear d) (dmonth d)).
  pose proof (daysInMonth_range (total / 12) (total mod 12 + 1)).
  destruct (Nat.eq_dec n 0) as [->|Hn].
  - assert (E1 : total / 12 = dyear d) by (subst total; lia).
    assert (E2 : total mod 12 + 1 = dmonth d) by (subst total; lia).
    rewrite E1, E2. lia.
  - pose proof (Nat.div_mod_eq total 12) as Hq.
    pose proof (Nat.mod_upper_bound total 12) as Hr.
    remember (total / 12) as q eqn:Eq. remember (total mod 12) as r eqn:Er.
    assert (Hge : q >= dyear d) by (subst total; lia).
    assert (Hc : q = dyear d \/ q >= dyear d + 1) by lia.
    destruct Hc as [Hc|Hc]; subst total; lia.
Qed.

Lemma nextOccurrence_key d kind rule d' :
  calendarDate d ->
  nextOccurrence d kind rule = Some d' ->
  dateKey d <= dateKey d'.
Proof.
  intros Hc. unfold nextOccurrence.
  destruct kind; try discriminate.
  - intros E. assert (d' = addDays 1 d) by congruence. subst d'.
    pose proof (@addDays_key 1 d Hc). lia.
  - intros E. assert (d' = addDays 7 d) by congruence. subst d'.
    pose proof (@addDays_key 7 d Hc). lia.
  - intros E. assert (d' = addMonths 1 d) by congruence. subst d'.
    apply addMonths_key. exact Hc.
  - destruct rule as [r|]; [|discriminate].
    destruct (unit r); intros E.
    + assert (d' = addDays (interval r) d) by congruence. subst d'.
      pose proof (@addDays_key (interval r) d Hc). lia.
    + assert (d' = addDays (7 * interval r) d) by congruence. subst d'.
      pose proof (@addDays_key (7 * interval r) d Hc). lia.
    + assert (d' = addMonths (interval r) d) by congruence. subst d'.
      apply addMonths_key. exact Hc.
Qed.

(** The helper of the specification never answers with an earlier date. *)
Lemma getNext_neverEarlier : neverEarlier getNextTaskRecurrenceDate.
Proof.
  intros anchor ty rule next. unfold getNextTaskRecurrenceDate.
  destruct (parseIsoDate anchor) as [d|] eqn:P; [|discriminate].
  destruct (nextOccurrence d ty _) as [d'|] eqn:N; [|discriminate].
  destruct (validDate d') eqn:V; [|discriminate].
  intros E. injection E as <-.
  apply format_parse in P. destruct P as (<- & Vd).
  apply format_le; trivial.
  eapply nextOccurrence_key; [|exact N].
  apply validDate_calendar. exact Vd.
Qed.

(** One day further, on the texts. *)
Lemma getNext_daily s d rule :
  parseIsoDate s = Some d ->
  validDate (nextDay d) = true ->
  getNextTaskRecurrenceDate s daily rule = Some (formatIsoDate (nextDay d)).
Proof.
  intros P V. unfold getNextTaskRecurrenceDate. rewrite P. simpl.
  rewrite V. reflexivity.
Qed.

End IsoCalendarFacts.

(** The generator [padId] has no collisions. *)
Lemma stars_length n : String.length (stars n) = n.
Proof. induction n; simpl; congruence. Qed.

Lemma longest_ge ids s : In s ids -> String.length s <= longest ids.
Proof.
  induction ids as [|a ids IH]; simpl; intros H; [destruct H|].
  destruct H as [->|H]; [lia|]. specialize (IH H). lia.
Qed.

Lemma padId_fresh : allocatesFresh padId.
Proof.
  intros ids H. apply longest_ge in H.
  unfold padId in H. rewrite stars_length in H. lia.
Qed.
(** ** Booleans of the [where] clauses *)

Lemma status_eqb_eq a b : status_eqb a b = true <-> a = b.
Proof. destruct a, b; simpl; split; congruence. Qed.

Lemma type_eqb_eq a b : type_eqb a b = true <-> a = b.
Proof. destruct a, b; simpl; split; congruence. Qed.

Lemma behavior_eqb_eq a b : behavior_eqb a b = true <-> a = b.
Proof. destruct a, b; simpl; split; congruence. Qed.

Lemma isNull_true {A} (v : option A) : isNull v = true <-> v = None.
Proof. destruct v; simpl; split; congruence. Qed.

Lemma eqText_true v x : eqText v x = true <-> v = Some x.
Proof.
  destruct v as [y|]; simpl.
  - rewrite String.eqb_eq. split; congruence.
  - split; congruence.
Qed.

Lemma lteText_true v x :
  lteText v x = true <-> exists d, v = Some d /\ str_le d x.
Proof.
  destruct v as [y|]; simpl.
  - split.
    + intros H. exists y. split; [reflexivity | exact H].
    + intros (d & E & H). injection E as ->. exact H.
  - split; [discriminate | intros (d & E & _); discriminate].
Qed.

Lemma rolloverDue_spec userId today t :
  rolloverDue userId today t = true <-> RolloverSelected userId today t.
Proof.
  unfold rolloverDue, RolloverSelected.
  rewrite !andb_true_iff, negb_true_iff, String.eqb_eq, isNull_true,
    status_eqb_eq, lteText_true.
  split.
  - intros (((((Hu & Hd) & Hs) & Ht) & _) & Hl).
    repeat split; trivial.
    intros E. rewrite E in Ht. discriminate.
  - intros (Hu & Hd & Hs & Ht & d & E & Hl).
    repeat split; trivial.
    + destruct (type_eqb (task_recurrenceType t) none) eqn:X; trivial.
      apply type_eqb_eq in X. contradiction.
    + rewrite E. reflexivity.
    + exists d. split; assumption.
Qed.

Lemma isLegacyRow_spec userId t :
  isLegacyRow userId t = true <-> LegacyItem userId t.
Proof.
  unfold isLegacyRow, LegacyItem.
  rewrite !andb_true_iff, negb_true_iff, String.eqb_eq, !isNull_true.
  split.
  - intros (((Hu & Hd) & Hs) & Ht). repeat split; trivial.
    intros E. rewrite E in Ht. discriminate.
  - intros (Hu & Hd & Hs & Ht). repeat split; trivial.
    destruct (type_eqb (task_recurrenceType t) none) eqn:X; trivial.
    apply type_eqb_eq in X. contradiction.
Qed.

Lemma isDueSeries_spec userId today s :
  isDueSeries userId today s = true <-> DueSeries userId today s.
Proof.
  unfold isDueSeries, DueSeries, str_le.
  rewrite !andb_true_iff, String.eqb_eq, isNull_true, Bool.eqb_true_iff.
  tauto.
Qed.

(** ** Rollover *)

Lemma rolloverDue_after_reopen userId today now t :
  rolloverDue userId today
    (if rolloverDue userId today t then task_reopen now t else t) = false.
Proof.
  destruct (rolloverDue userId today t) eqn:E; [|exact E].
  unfold rolloverDue; simpl.
  rewrite !andb_false_r. reflexivity.
Qed.

Lemma task_reopen_sameButStatus now t : sameButStatus t (task_reopen now t).
Proof. unfold sameButStatus; simpl; repeat split. Qed.

Lemma skipn_length_app {A} (l l' : list A) : skipn (List.length l) (l ++ l') = l'.
Proof. induction l; simpl; auto. Qed.

Lemma createdTasks_none before after :
  List.length (tasks after) = List.length (tasks before) ->
  createdTasks before after = [].
Proof.
  intros E. unfold createdTasks. rewrite <- E. apply skipn_all.
Qed.

(** C8. [rollover(userId, today)] reopens exactly the user's live items
    that are done, still carry an inline recurrence kind and have a due
    date at or before today: each such row gets status [open] (and a new
    [updatedAt]) and every other row is left as it was; no row is created,
    table [recurrence_series] is not touched, and a second run changes
    nothing. *)
Theorem rollover_reopens_exactly_due_items userId today now db :
  let db' := releaseDueRecurringTasksForUser userId today now db in
  (forall i t, nth_error (tasks db) i = Some t ->
     exists t', nth_error (tasks db') i = Some t'
       /\ (RolloverSelected userId today t ->
             task_status t' = open /\ sameButStatus t t')
       /\ (~ RolloverSelected userId today t -> t' = t))
  /\ List.length (tasks db') = List.length (tasks db)
  /\ createdTasks db db' = []
  /\ recurrenceSeries db' = recurrenceSeries db
  /\ forall now', releaseDueRecurringTasksForUser userId today now' db' = db'.
Proof.
  cbv zeta. unfold releaseDueRecurringTasksForUser, updateTasksWhere; simpl.
  split; [|split; [|split; [|split]]].
  - intros i t Hi.
    rewrite nth_error_map, Hi; simpl.
    eexists; split; [reflexivity|].
    destruct (rolloverDue userId today t) eqn:E.
    + split.
      * intros _. split; [reflexivity | apply task_reopen_sameButStatus].
      * intros N. exfalso. apply N. apply rolloverDue_spec. exact E.
    + split.
      * intros Y. apply rolloverDue_spec in Y. congruence.
      * reflexivity.
  - apply length_map.
  - apply createdTasks_none. simpl. apply length_map.
  - reflexivity.
  - intros now'. f_equal. rewrite map_map.
    apply map_ext. intros t.
    rewrite rolloverDue_after_reopen. reflexivity.
Qed.

(** ** The engine, for any recurrence helper and identifier generator *)

Section EngineFacts.

Variable getNext : string -> TaskRecurrenceType -> option string -> option string.
Variable newId : list string -> string.

Local Abbreviation migrateRow := (migrateLegacyRow getNext newId).
Local Abbreviation migrate := (migrateLegacyTaskRecurrencesForUser getNext newId).
Local Abbreviation nextDueOf := (legacyNextDueDate getNext).
Local Abbreviation materialize := (materializeSeries newId).
Local Abbreviation catchUpFrom := (catchUp getNext newId).
Local Abbreviation syncOne := (syncSeries getNext newId).
Local Abbreviation sync := (syncRecurrenceSeriesForUser getNext newId).

(** *** Migration, one row at a time *)

Lemma relinked_refl now t : relinked now t t.
Proof. left; reflexivity. Qed.

Lemma relinked_trans now t1 t2 t3 :
  relinked now t1 t2 -> relinked now t2 t3 -> relinked now t1 t3.
Proof.
  intros [->|(s1 & b1 & ->)] [->|(s2 & b2 & ->)].
  - left; reflexivity.
  - right; eauto.
  - right; eauto.
  - right. exists s2, b2. reflexivity.
Qed.

Lemma relinked_id now t t' : relinked now t t' -> task_id t' = task_id t.
Proof. intros [->|(s & b & ->)]; reflexivity. Qed.

Lemma Forall2_refl_on {A} (R : A -> A -> Prop) (l : list A) :
  (forall x, R x x) -> Forall2 R l l.
Proof. intros H. induction l; constructor; auto. Qed.

Lemma Forall2_trans_on {A} (R : A -> A -> Prop) (l1 l2 l3 : list A) :
  (forall x y z, R x y -> R y z -> R x z) ->
  Forall2 R l1 l2 -> Forall2 R l2 l3 -> Forall2 R l1 l3.
Proof.
  intros HR H12. revert l3.
  induction H12; intros l3 H23; inversion H23; subst; constructor; eauto.
Qed.

Lemma Forall2_map_right {A} (R : A -> A -> Prop) (f : A -> A) (l : list A) :
  (forall x, R x (f x)) -> Forall2 R l (map f l).
Proof. intros H. induction l; simpl; constructor; auto. Qed.

Lemma migrateRow_series today now db row :
  task_recurrenceType row <> none ->
  recurrenceSeries (migrateRow today now db row)
  = recurrenceSeries db
      ++ [seriesOfLegacyRow getNext
            (newId (map series_id (recurrenceSeries db))) today now row].
Proof.
  intros H. unfold migrateLegacyRow.
  destruct (task_recurrenceType row); try reflexivity. contradiction.
Qed.

Lemma migrateRow_tasks today now db row :
  task_recurrenceType row <> none ->
  tasks (migrateRow today now db row)
  = map (fun t => if String.eqb (task_id t) (task_id row)
                  then task_linkToSeries
                         (newId (map series_id (recurrenceSeries db))) now
                         (status_eqb (task_status row) done) t
                  else t) (tasks db).
Proof.
  intros H. unfold migrateLegacyRow.
  destruct (task_recurrenceType row); try reflexivity. contradiction.
Qed.

Lemma migrateRow_projects today now db row :
  projects (migrateRow today now db row) = projects db.
Proof.
  unfold migrateLegacyRow. destruct (task_recurrenceType row); reflexivity.
Qed.

Lemma migrateRow_relinked today now db row :
  Forall2 (relinked now) (tasks db) (tasks (migrateRow today now db row)).
Proof.
  destruct (type_eqb (task_recurrenceType row) none) eqn:E.
  - apply type_eqb_eq in E. unfold migrateLegacyRow. rewrite E.
    apply Forall2_refl_on, relinked_refl.
  - rewrite migrateRow_tasks.
    + apply Forall2_map_right. intros t.
      destruct (String.eqb (task_id t) (task_id row)).
      * right; eauto.
      * left; reflexivity.
    + intros X. rewrite X in E. discriminate.
Qed.

Lemma legacy_type userId row :
  isLegacyRow userId row = true -> task_recurrenceType row <> none.
Proof. intros H. apply isLegacyRow_spec in H. apply H. Qed.

Lemma linked_not_legacy userId sid now b t :
  isLegacyRow userId (task_linkToSeries sid now b t) = false.
Proof. unfold isLegacyRow; simpl. rewrite !andb_false_r. reflexivity. Qed.

(** *** Migration, the whole loop *)

Lemma migrate_fold_relinked today now rows : forall db,
  Forall2 (relinked now) (tasks db)
    (tasks (fold_left (migrateRow today now) rows db)).
Proof.
  induction rows as [|r rows IH]; intros db; simpl.
  - apply Forall2_refl_on, relinked_refl.
  - eapply Forall2_trans_on; [apply relinked_trans | apply migrateRow_relinked | apply IH].
Qed.

Lemma migrate_fold_projects today now rows : forall db,
  projects (fold_left (migrateRow today now) rows db) = projects db.
Proof.
  induction rows as [|r rows IH]; intros db; simpl; [reflexivity|].
  rewrite IH. apply migrateRow_projects.
Qed.

Lemma migrate_fold_series_length userId today now rows : forall db,
  Forall (fun r => isLegacyRow userId r = true) rows ->
  List.length (recurrenceSeries (fold_left (migrateRow today now) rows db))
  = List.length (recurrenceSeries db) + List.length rows.
Proof.
  induction rows as [|r rows IH]; intros db Hall; simpl.
  - lia.
  - inversion Hall; subst.
    rewrite IH by assumption.
    rewrite migrateRow_series by (eapply legacy_type; eassumption).
    rewrite length_app; simpl. lia.
Qed.

Lemma migrate_fold_series_prefix today now rows : forall db,
  exists added,
    recurrenceSeries (fold_left (migrateRow today now) rows db)
    = recurrenceSeries db ++ added.
Proof.
  induction rows as [|r rows IH]; intros db; simpl.
  - exists []. rewrite app_nil_r. reflexivity.
  - destruct (IH (migrateRow today now db r)) as (added & E).
    rewrite E.
    destruct (type_eqb (task_recurrenceType r) none) eqn:T.
    + apply type_eqb_eq in T. unfold migrateLegacyRow. rewrite T.
      exists added. reflexivity.
    + rewrite migrateRow_series by (intros X; rewrite X in T; discriminate).
      rewrite <- app_assoc. eexists. reflexivity.
Qed.

(** Every row still selected by the [where] clause is still to be
    visited: the loop leaves none behind. *)
Lemma migrate_fold_no_legacy userId today now rows : forall db,
  Forall (fun r => isLegacyRow userId r = true) rows ->
  (forall t, In t (tasks db) -> isLegacyRow userId t = true -> In t rows) ->
  forall t, In t (tasks (fold_left (migrateRow today now) rows db)) ->
            isLegacyRow userId t = false.
Proof.
  induction rows as [|r rows IH]; intros db Hall Hcover t Ht; simpl in Ht.
  - destruct (isLegacyRow userId t) eqn:E; trivial.
    destruct (Hcover t Ht E).
  - inversion Hall as [|? ? Hr Hrest]; subst.
    apply (IH (migrateRow today now db r)); trivial.
    intros t0 Ht0 Hleg.
    rewrite migrateRow_tasks in Ht0 by (eapply legacy_type; eassumption).
    apply in_map_iff in Ht0. destruct Ht0 as (t1 & E1 & Hin1).
    destruct (String.eqb (task_id t1) (task_id r)) eqn:Eid.
    + subst t0. rewrite linked_not_legacy in Hleg. discriminate.
    + subst t0. destruct (Hcover t1 Hin1 Hleg) as [<-|Hin]; trivial.
      rewrite String.eqb_refl in Eid. discriminate.
Qed.

Lemma filter_nil_of_false {A} (p : A -> bool) (l : list A) :
  (forall x, In x l -> p x = false) -> filter p l = [].
Proof.
  induction l as [|a l IH]; intros H; simpl; [reflexivity|].
  rewrite (H a) by (left; reflexivity).
  apply IH. intros x Hx. apply H. right. exact Hx.
Qed.

Lemma migrate_no_legacy_left userId today now db t :
  In t (tasks (migrate userId today now db)) -> isLegacyRow userId t = false.
Proof.
  unfold migrateLegacyTaskRecurrencesForUser.
  apply migrate_fold_no_legacy.
  - apply Forall_forall. intros r Hr. apply filter_In in Hr. apply Hr.
  - intros t0 Hin Hleg. apply filter_In. split; assumption.
Qed.

Lemma migrate_again userId today now today' now' db :
  migrate userId today' now' (migrate userId today now db)
  = migrate userId today now db.
Proof.
  unfold migrateLegacyTaskRecurrencesForUser at 1.
  rewrite filter_nil_of_false; [reflexivity|].
  intros t. apply migrate_no_legacy_left.
Qed.

Lemma migrate_relinked userId today now db :
  Forall2 (relinked now) (tasks db) (tasks (migrate userId today now db)).
Proof. apply migrate_fold_relinked. Qed.

Lemma migrate_tasks_length userId today now db :
  List.length (tasks (migrate userId today now db)) = List.length (tasks db).
Proof.
  symmetry. eapply Forall2_length. apply migrate_relinked.
Qed.

Lemma Forall2_nth_error {A} (R : A -> A -> Prop) (l l' : list A) i x :
  Forall2 R l l' -> nth_error l i = Some x ->
  exists y, nth_error l' i = Some y /\ R x y.
Proof.
  intros H. revert i. induction H; intros [|i] Hi; simpl in *; try discriminate.
  - injection Hi as <-. eauto.
  - eauto.
Qed.

(** *** Migration: which series an item ends up with *)

Lemma NoDup_snoc {A} (l : list A) (x : A) :
  NoDup l -> ~ In x l -> NoDup (l ++ [x]).
Proof.
  intros Hl Hx. induction Hl as [|a l Ha Hl IH]; simpl.
  - constructor; [intros []|constructor].
  - constructor.
    + rewrite in_app_iff. intros [H|[H|[]]].
      * contradiction.
      * subst. apply Hx. left; reflexivity.
    + apply IH. intros H. apply Hx. right; exact H.
Qed.

Lemma NoDup_map_inj_in {A B} (f : A -> B) (l : list A) x y :
  NoDup (map f l) -> In x l -> In y l -> f x = f y -> x = y.
Proof.
  induction l as [|a l IH]; simpl; intros Hnd Hx Hy E; [destruct Hx|].
  inversion Hnd as [|? ? Ha Hl]; subst.
  destruct Hx as [->|Hx], Hy as [->|Hy]; trivial.
  - exfalso. apply Ha. rewrite E. apply in_map. exact Hy.
  - exfalso. apply Ha. rewrite <- E. apply in_map. exact Hx.
  - apply IH; assumption.
Qed.

Lemma migrateRow_unique_series today now db row :
  allocatesFresh newId ->
  uniqueSeriesIds db -> uniqueSeriesIds (migrateRow today now db row).
Proof.
  intros Hfresh Hu. unfold uniqueSeriesIds in *.
  destruct (type_eqb (task_recurrenceType row) none) eqn:T.
  - apply type_eqb_eq in T. unfold migrateLegacyRow. rewrite T. exact Hu.
  - rewrite migrateRow_series by (intros X; rewrite X in T; discriminate).
    rewrite map_app; simpl. apply NoDup_snoc; [exact Hu | apply Hfresh].
Qed.

Lemma migrate_fold_unique_series today now rows : forall db,
  allocatesFresh newId ->
  uniqueSeriesIds db ->
  uniqueSeriesIds (fold_left (migrateRow today now) rows db).
Proof.
  induction rows as [|r rows IH]; intros db Hf Hu; simpl; [exact Hu|].
  apply IH; [exact Hf|]. apply migrateRow_unique_series; assumption.
Qed.

Lemma migrate_unique_series userId today now db :
  allocatesFresh newId ->
  uniqueSeriesIds db -> uniqueSeriesIds (migrate userId today now db).
Proof. apply migrate_fold_unique_series. Qed.

(** A row whose [id] is not among the rows still to visit is not written
    by the rest of the loop. *)
Lemma migrate_fold_untouched today now rows : forall db i t,
  ~ In (task_id t) (map task_id rows) ->
  nth_error (tasks db) i = Some t ->
  nth_error (tasks (fold_left (migrateRow today now) rows db)) i = Some t.
Proof.
  induction rows as [|r rows IH]; intros db i t Hnot Hi; simpl; [exact Hi|].
  apply IH.
  - intros H. apply Hnot. right; exact H.
  - destruct (type_eqb (task_recurrenceType r) none) eqn:T.
    + apply type_eqb_eq in T. unfold migrateLegacyRow. rewrite T. exact Hi.
    + rewrite migrateRow_tasks by (intros X; rewrite X in T; discriminate).
      rewrite nth_error_map, Hi; simpl.
      destruct (String.eqb (task_id t) (task_id r)) eqn:E; [|reflexivity].
      apply String.eqb_eq in E. exfalso. apply Hnot. left. symmetry. exact E.
Qed.

Lemma migrate_fold_links userId today now rows : forall db i t r,
  allocatesFresh newId ->
  NoDup (map task_id rows) ->
  Forall (fun r => isLegacyRow userId r = true) rows ->
  In r rows ->
  nth_error (tasks db) i = Some t ->
  task_id t = task_id r ->
  exists sid,
    ~ In sid (map series_id (recurrenceSeries db))
    /\ nth_error (tasks (fold_left (migrateRow today now) rows db)) i
       = Some (task_linkToSeries sid now (status_eqb (task_status r) done) t)
    /\ In (seriesOfLegacyRow getNext sid today now r)
         (recurrenceSeries (fold_left (migrateRow today now) rows db)).
Proof.
  induction rows as [|h rows IH]; intros db i t r Hf Hnd Hall Hr Hi Hid;
    [destruct Hr|].
  simpl in Hnd. inversion Hnd as [|? ? Hh Hnd']; subst.
  inversion Hall as [|? ? Hleg Hall']; subst.
  simpl.
  assert (Hty : task_recurrenceType h <> none) by (eapply legacy_type; eauto).
  destruct Hr as [->|Hr].
  - exists (newId (map series_id (recurrenceSeries db))).
    split; [apply Hf|]. split.
    + apply migrate_fold_untouched.
      * simpl. rewrite Hid. exact Hh.
      * rewrite migrateRow_tasks by exact Hty.
        rewrite nth_error_map, Hi; simpl.
        rewrite Hid, String.eqb_refl. reflexivity.
    + destruct (migrate_fold_series_prefix today now rows
                  (migrateRow today now db r)) as (added & E).
      rewrite E, migrateRow_series by exact Hty.
      rewrite !in_app_iff. left; right; left; reflexivity.
  - assert (Hne : task_id t <> task_id h).
    { rewrite Hid. intros X. apply Hh. rewrite <- X. apply in_map. exact Hr. }
    destruct (IH (migrateRow today now db h) i t r Hf Hnd' Hall' Hr)
      as (sid & Hsid & Hrow & Hser); trivial.
    + rewrite migrateRow_tasks by exact Hty.
      rewrite nth_error_map, Hi; simpl.
      apply String.eqb_neq in Hne. rewrite Hne. reflexivity.
    + exists sid. split; [|split; assumption].
      intros X. apply Hsid.
      rewrite migrateRow_series by exact Hty.
      rewrite map_app, in_app_iff. left; exact X.
Qed.

Lemma NoDup_map_filter {Row Key} (key : Row -> Key) (keep : Row -> bool) :
  forall rows, NoDup (map key rows) -> NoDup (map key (filter keep rows)).
Proof.
  intros rows. induction rows as [|a l IH]; simpl; intros H; [constructor|].
  inversion H as [|? ? Ha Hl]; subst.
  destruct (keep a); simpl; [|auto].
  constructor; [|auto].
  intros X. apply Ha. apply in_map_iff in X. destruct X as (x & E & Hx).
  apply filter_In in Hx. rewrite <- E. apply in_map. apply Hx.
Qed.

(** C4. A legacy item selected by migration gets a series whose
    [nextDueDate] is: for a done item, the next occurrence after the later
    of its due anchor and today, or that later date itself when the helper
    yields none; for any other item, the due anchor unchanged.  The anchor
    is the item's due date when [isIsoDate] accepts it and today
    otherwise.  Migration inserts no row into table [task]. *)
Theorem migration_series_next_due_date userId today now db i t :
  allocatesFresh newId ->
  uniqueTaskIds db ->
  uniqueSeriesIds db ->
  nth_error (tasks db) i = Some t ->
  LegacyItem userId t ->
  let db1 := migrate userId today now db in
  let dueAnchor := dueAnchorOf today t in
  let completionAnchor := str_max dueAnchor today in
  exists sid s t',
    nth_error (tasks db1) i = Some t'
    /\ task_recurrenceSeriesId t' = Some sid
    /\ In s (recurrenceSeries db1)
    /\ series_id s = sid
    /\ ~ In sid (map series_id (recurrenceSeries db))
    /\ (forall s', In s' (recurrenceSeries db1) -> series_id s' = sid -> s' = s)
    /\ (task_status t = done ->
        series_nextDueDate s
        = match getNext completionAnchor (task_recurrenceType t)
                  (task_recurrenceRule t) with
          | Some next => next
          | None => completionAnchor
          end)
    /\ (task_status t <> done -> series_nextDueDate s = dueAnchor)
    /\ createdTasks db db1 = [].
Proof.
  intros Hf Hut Hus Hi Hleg. cbv zeta.
  apply isLegacyRow_spec in Hleg.
  assert (Hin : In t (filter (isLegacyRow userId) (tasks db))).
  { apply filter_In. split; [eapply nth_error_In; eauto | exact Hleg]. }
  destruct (@migrate_fold_links userId today now
              (filter (isLegacyRow userId) (tasks db)) db i t t)
    as (sid & Hsid & Hrow & Hser); trivial.
  - apply NoDup_map_filter. exact Hut.
  - apply Forall_forall. intros r Hr. apply filter_In in Hr. apply Hr.
  - exists sid, (seriesOfLegacyRow getNext sid today now t).
    eexists. split; [exact Hrow|].
    split; [reflexivity|]. split; [exact Hser|]. split; [reflexivity|].
    split; [exact Hsid|]. split.
    + intros s' Hs' Es'.
      eapply NoDup_map_inj_in; [|exact Hs'|exact Hser|exact Es'].
      apply migrate_unique_series; assumption.
    + split; [|split].
      * intros Hd. simpl. unfold legacyNextDueDate. rewrite Hd. reflexivity.
      * intros Hd. simpl. unfold legacyNextDueDate.
        destruct (task_status t); try reflexivity. contradiction.
      * apply createdTasks_none. apply migrate_tasks_length.
Qed.

(** C5. Migration makes one series for each selected item and links the
    item to it with its inline kind cleared; afterwards no item of the
    user is selected any more, so any further runs of migration leave the
    database as it is. *)
Theorem migration_once_per_item userId today now db :
  let db1 := migrate userId today now db in
  List.length (recurrenceSeries db1)
  = List.length (recurrenceSeries db)
    + List.length (filter (isLegacyRow userId) (tasks db))
  /\ (forall i t, nth_error (tasks db) i = Some t -> LegacyItem userId t ->
        exists t' sid,
          nth_error (tasks db1) i = Some t'
          /\ task_id t' = task_id t
          /\ task_recurrenceSeriesId t' = Some sid
          /\ task_recurrenceType t' = none)
  /\ (forall t', In t' (tasks db1) -> ~ LegacyItem userId t')
  /\ (forall runs : list (string * string),
        fold_left (fun d r => migrate userId (fst r) (snd r) d) runs db1
        = db1).
Proof.
  cbv zeta. split; [|split; [|split]].
  - unfold migrateLegacyTaskRecurrencesForUser.
    apply migrate_fold_series_length with (userId := userId).
    apply Forall_forall. intros r Hr. apply filter_In in Hr. apply Hr.
  - intros i t Hi Hleg.
    destruct (Forall2_nth_error i (migrate_relinked userId today now db) Hi)
      as (t' & Hi' & [->|(sid & b & ->)]).
    + exfalso. apply isLegacyRow_spec in Hleg.
      apply nth_error_In in Hi'.
      apply migrate_no_legacy_left in Hi'. congruence.
    + exists (task_linkToSeries sid now b t), sid. repeat split. exact Hi'.
  - intros t' Hin Hleg. apply isLegacyRow_spec in Hleg.
    apply migrate_no_legacy_left in Hin. congruence.
  - induction runs as [|r runs IH]; simpl; [reflexivity|].
    rewrite migrate_again. exact IH.
Qed.

(** *** One series at a time: what [syncSeries] writes *)

Lemma materialize_tasks now db s d :
  tasks (materialize now db s d)
  = tasks db ++ [instanceOf (newId (map task_id (tasks db))) now s d].
Proof. reflexivity. Qed.

Lemma catchUp_shape n today now s : forall db cursor,
  exists new,
    tasks (fst (catchUpFrom n today now s db cursor)) = tasks db ++ new
    /\ Forall (IsInstanceOf now s) new
    /\ recurrenceSeries (fst (catchUpFrom n today now s db cursor))
       = recurrenceSeries db
    /\ projects (fst (catchUpFrom n today now s db cursor)) = projects db.
Proof.
  induction n as [|n IH]; intros db cursor; simpl.
  - exists []. rewrite app_nil_r. auto.
  - destruct (str_gtb cursor today).
    { exists []. rewrite app_nil_r. simpl. auto. }
    set (db1 := if hasMaterializedDueDate db (series_id s) cursor then db
                else materialize now db s cursor).
    assert (H1 : exists new1,
               tasks db1 = tasks db ++ new1
               /\ Forall (IsInstanceOf now s) new1
               /\ recurrenceSeries db1 = recurrenceSeries db
               /\ projects db1 = projects db).
    { subst db1. destruct (hasMaterializedDueDate db (series_id s) cursor).
      - exists []. rewrite app_nil_r. auto.
      - eexists. split; [apply materialize_tasks|].
        split; [|split; reflexivity].
        constructor; [|constructor]. eexists; eexists; reflexivity. }
    destruct H1 as (new1 & E1 & F1 & S1 & P1).
    destruct (stalls cursor (getNext cursor (series_recurrenceType s)
                               (series_recurrenceRule s))).
    { exists new1. simpl. auto. }
    destruct (getNext cursor (series_recurrenceType s)
                (series_recurrenceRule s)) as [n1|].
    + destruct (IH db1 n1) as (new2 & E2 & F2 & S2 & P2).
      exists (new1 ++ new2).
      rewrite E2, E1, app_assoc, S2, P2.
      split; [reflexivity|]. split; [|split; assumption].
      apply Forall_app; split; assumption.
    + exists new1. simpl. auto.
Qed.

Lemma syncOne_tasks today now db s :
  exists new,
    tasks (syncOne today now db s) = tasks db ++ new
    /\ Forall (IsInstanceOf now s) new.
Proof.
  unfold syncSeries.
  destruct (series_recurrenceBehavior s).
  - destruct (hasOutstandingInstance db (series_id s)).
    { exists []. rewrite app_nil_r. auto. }
    destruct (hasMaterializedDueDate db (series_id s) (series_nextDueDate s)).
    { exists []. rewrite app_nil_r. auto. }
    eexists. split; [apply materialize_tasks|].
    constructor; [|constructor]. eexists; eexists; reflexivity.
  - destruct (catchUp_shape catchUpLimit today now s db (series_nextDueDate s))
      as (new & E & F & _).
    destruct (catchUpFrom catchUpLimit today now s db (series_nextDueDate s))
      as [db1 cursor]; cbn [fst snd] in *.
    exists new. destruct (String.eqb cursor (series_nextDueDate s)); auto.
Qed.

Lemma syncOne_projects today now db s :
  projects (syncOne today now db s) = projects db.
Proof.
  unfold syncSeries.
  destruct (series_recurrenceBehavior s).
  - destruct (hasOutstandingInstance db (series_id s)); [reflexivity|].
    destruct (hasMaterializedDueDate db (series_id s) (series_nextDueDate s));
      reflexivity.
  - destruct (catchUp_shape catchUpLimit today now s db (series_nextDueDate s))
      as (new & _ & _ & _ & P).
    destruct (catchUpFrom catchUpLimit today now s db (series_nextDueDate s))
      as [db1 cursor]; cbn [fst snd] in *.
    destruct (String.eqb cursor (series_nextDueDate s)); auto.
Qed.

Lemma syncOne_series today now db s :
  Forall2 (advancedBy getNext newId today now s) (recurrenceSeries db)
    (recurrenceSeries (syncOne today now db s)).
Proof.
  unfold syncSeries.
  destruct (series_recurrenceBehavior s) eqn:B.
  - assert (E : recurrenceSeries
                  (if hasOutstandingInstance db (series_id s) then db
                   else if hasMaterializedDueDate db (series_id s)
                             (series_nextDueDate s) then db
                   else materialize now db s (series_nextDueDate s))
                = recurrenceSeries db).
    { destruct (hasOutstandingInstance db (series_id s)); [reflexivity|].
      destruct (hasMaterializedDueDate db (series_id s)
                  (series_nextDueDate s)); reflexivity. }
    rewrite E. apply Forall2_refl_on. intros r; left; reflexivity.
  - destruct (catchUp_shape catchUpLimit today now s db (series_nextDueDate s))
      as (new & _ & _ & S & _).
    destruct (catchUpFrom catchUpLimit today now s db (series_nextDueDate s))
      as [db1 cursor] eqn:EC; cbn [fst snd] in *.
    destruct (String.eqb cursor (series_nextDueDate s)).
    + rewrite S. apply Forall2_refl_on. intros r; left; reflexivity.
    + simpl. rewrite S. apply Forall2_map_right. intros r.
      destruct (String.eqb (series_id r) (series_id s)) eqn:E.
      * right. apply String.eqb_eq in E.
        split; [exact E|]. split; [exact B|].
        exists db. rewrite EC. reflexivity.
      * left; reflexivity.
Qed.

Lemma advancedBy_id today now s r r' :
  advancedBy getNext newId today now s r r' -> series_id r' = series_id r.
Proof. intros [->|(_ & _ & c & ->)]; reflexivity. Qed.

Lemma Forall2_map_eq {A B} (R : A -> A -> Prop) (f : A -> B) l l' :
  (forall x y, R x y -> f y = f x) -> Forall2 R l l' -> map f l' = map f l.
Proof.
  intros H F. induction F; simpl; [reflexivity|].
  f_equal; auto.
Qed.

Lemma syncOne_series_ids today now db s :
  map series_id (recurrenceSeries (syncOne today now db s))
  = map series_id (recurrenceSeries db).
Proof.
  eapply Forall2_map_eq; [|apply syncOne_series].
  intros x y. apply advancedBy_id.
Qed.

Lemma syncOne_series_other today now db s r :
  In r (recurrenceSeries db) -> series_id r <> series_id s ->
  In r (recurrenceSeries (syncOne today now db s)).
Proof.
  intros Hin Hne.
  apply In_nth_error in Hin. destruct Hin as (i & Hi).
  destruct (Forall2_nth_error i (syncOne_series today now db s) Hi)
    as (r' & Hi' & [->|(E & _)]).
  - eapply nth_error_In; eauto.
  - contradiction.
Qed.

(** *** The loop over [seriesRows] *)

Lemma pending_step today now db s rows :
  pending db (s :: rows) -> pending (syncOne today now db s) rows.
Proof.
  intros (Hu & Hnd & Hin). simpl in Hnd.
  inversion Hnd as [|? ? Hs Hnd']; subst.
  split; [|split].
  - unfold uniqueSeriesIds. rewrite syncOne_series_ids. exact Hu.
  - exact Hnd'.
  - intros r Hr. apply syncOne_series_other.
    + apply Hin. right; exact Hr.
    + intros E. apply Hs. rewrite <- E. apply in_map. exact Hr.
Qed.

Lemma pending_start userId today db :
  uniqueSeriesIds db ->
  pending db (filter (isDueSeries userId today) (recurrenceSeries db)).
Proof.
  intros Hu. split; [exact Hu|]. split.
  - apply NoDup_map_filter. exact Hu.
  - intros s Hs. apply filter_In in Hs. apply Hs.
Qed.

(** Induction along the loop, with the rows still to visit in view. *)
Lemma sync_fold_ind (P : Db -> list Series -> Prop) today now :
  (forall db s rows, pending db (s :: rows) -> P db (s :: rows) ->
                     P (syncOne today now db s) rows) ->
  forall rows db, pending db rows -> P db rows ->
                  P (fold_left (syncOne today now) rows db) [].
Proof.
  intros Hstep. induction rows as [|s rows IH]; intros db Hp HP; simpl.
  - exact HP.
  - apply IH.
    + eapply pending_step; eauto.
    + apply Hstep; assumption.
Qed.

Lemma sync_fold_tasks today now rows : forall db,
  exists new,
    tasks (fold_left (syncOne today now) rows db) = tasks db ++ new
    /\ Forall (fun t => exists s, In s rows /\ IsInstanceOf now s t) new.
Proof.
  induction rows as [|s rows IH]; intros db; simpl.
  - exists []. rewrite app_nil_r. auto.
  - destruct (IH (syncOne today now db s)) as (new2 & E2 & F2).
    destruct (syncOne_tasks today now db s) as (new1 & E1 & F1).
    exists (new1 ++ new2). rewrite E2, E1, app_assoc.
    split; [reflexivity|]. apply Forall_app. split.
    + eapply Forall_impl; [|exact F1]. intros t Ht. exists s. split; auto.
    + eapply Forall_impl; [|exact F2]. intros t (s' & Hs' & Ht).
      exists s'. split; auto.
Qed.

Lemma sync_created userId today now db :
  exists new,
    tasks (sync userId today now db)
    = tasks (migrate userId today now db) ++ new
    /\ createdTasks db (sync userId today now db) = new
    /\ Forall (fun t => exists s,
                 In s (recurrenceSeries (migrate userId today now db))
                 /\ DueSeries userId today s
                 /\ IsInstanceOf now s t) new.
Proof.
  unfold syncRecurrenceSeriesForUser.
  destruct (sync_fold_tasks today now
              (filter (isDueSeries userId today)
                 (recurrenceSeries (migrate userId today now db)))
              (migrate userId today now db)) as (new & E & F).
  exists new. split; [exact E|]. split.
  - unfold createdTasks. rewrite E.
    rewrite <- (migrate_tasks_length userId today now db).
    apply skipn_length_app.
  - eapply Forall_impl; [|exact F]. intros t (s & Hs & Ht).
    apply filter_In in Hs. destruct Hs as (Hs & Hd).
    exists s. split; [exact Hs|]. split; [|exact Ht].
    apply isDueSeries_spec. exact Hd.
Qed.

(** *** Series do not interfere *)

Lemma instance_linked now s t :
  IsInstanceOf now s t -> task_recurrenceSeriesId t = Some (series_id s).
Proof. intros (tid & d & ->). reflexivity. Qed.

Lemma instance_linkedTo now s t :
  IsInstanceOf now s t -> linkedTo (series_id s) t = true.
Proof.
  intros H. unfold linkedTo. rewrite (instance_linked H); simpl.
  apply String.eqb_refl.
Qed.

Lemma instance_not_linkedTo now s sid t :
  IsInstanceOf now s t -> series_id s <> sid -> linkedTo sid t = false.
Proof.
  intros H Hne. unfold linkedTo. rewrite (instance_linked H); simpl.
  apply String.eqb_neq. exact Hne.
Qed.

Lemma filter_app_none {A} (p : A -> bool) (l new : list A) :
  Forall (fun x => p x = false) new -> filter p (l ++ new) = filter p l.
Proof.
  intros H. rewrite filter_app.
  rewrite (filter_nil_of_false p new).
  - apply app_nil_r.
  - apply Forall_forall. exact H.
Qed.

Lemma filter_all {A} (p : A -> bool) (l : list A) :
  Forall (fun x => p x = true) l -> filter p l = l.
Proof.
  induction 1 as [|a l Ha Hl IH]; simpl; [reflexivity|].
  rewrite Ha, IH. reflexivity.
Qed.

Lemma sync_fold_others today now sid rows db :
  (forall r, In r rows -> series_id r <> sid) ->
  exists new,
    tasks (fold_left (syncOne today now) rows db) = tasks db ++ new
    /\ Forall (fun t => linkedTo sid t = false) new.
Proof.
  intros Hne.
  destruct (sync_fold_tasks today now rows db) as (new & E & F).
  exists new. split; [exact E|].
  eapply Forall_impl; [|exact F].
  intros t (s & Hs & Ht). eapply instance_not_linkedTo; eauto.
Qed.

Lemma sync_fold_series_nth today now i x rows : forall db,
  (forall r, In r rows -> series_id r <> series_id x) ->
  nth_error (recurrenceSeries db) i = Some x ->
  nth_error (recurrenceSeries (fold_left (syncOne today now) rows db)) i
  = Some x.
Proof.
  induction rows as [|s rows IH]; intros db Hne Hi; simpl; [exact Hi|].
  apply IH.
  - intros r Hr. apply Hne. right; exact Hr.
  - destruct (Forall2_nth_error i (syncOne_series today now db s) Hi)
      as (x' & Hi' & [->|(E & _)]); [exact Hi'|].
    exfalso. apply (Hne s); [left; reflexivity | symmetry; exact E].
Qed.

(** The loop, seen from one of its series: the turns before and after
    its own neither touch its row nor create a task linked to it. *)
Lemma sync_fold_split today now rows s i db :
  NoDup (map series_id rows) ->
  In s rows ->
  nth_error (recurrenceSeries db) i = Some s ->
  exists db1 pre,
    tasks db1 = tasks db ++ pre
    /\ Forall (fun t => linkedTo (series_id s) t = false) pre
    /\ nth_error (recurrenceSeries db1) i = Some s
    /\ filter (linkedTo (series_id s))
         (createdTasks db (fold_left (syncOne today now) rows db))
       = createdTasks db1 (syncOne today now db1 s)
    /\ (forall r, nth_error (recurrenceSeries (syncOne today now db1 s)) i
                  = Some r ->
                  nth_error (recurrenceSeries
                               (fold_left (syncOne today now) rows db)) i
                  = Some r).
Proof.
  intros Hnd Hin Hi.
  destruct (in_split _ _ Hin) as (l1 & l2 & ->).
  rewrite map_app in Hnd; simpl in Hnd.
  pose proof (NoDup_remove_2 _ _ _ Hnd) as Hout.
  assert (H1 : forall r, In r l1 -> series_id r <> series_id s).
  { intros r Hr E. apply Hout. rewrite in_app_iff. left.
    rewrite <- E. apply in_map. exact Hr. }
  assert (H2 : forall r, In r l2 -> series_id r <> series_id s).
  { intros r Hr E. apply Hout. rewrite in_app_iff. right.
    rewrite <- E. apply in_map. exact Hr. }
  rewrite fold_left_app; simpl.
  set (db1 := fold_left (syncOne today now) l1 db).
  destruct (sync_fold_others today now l1 db H1) as (pre & Epre & Fpre).
  fold db1 in Epre.
  destruct (syncOne_tasks today now db1 s) as (mine & Emine & Fmine).
  destruct (sync_fold_others today now l2 (syncOne today now db1 s) H2)
    as (post & Epost & Fpost).
  exists db1, pre.
  split; [exact Epre|]. split; [exact Fpre|]. split.
  { apply sync_fold_series_nth; assumption. }
  split.
  - unfold createdTasks. rewrite Epost, Emine, Epre.
    rewrite <- !app_assoc, skipn_length_app.
    rewrite (app_assoc (tasks db) pre mine), skipn_length_app.
    rewrite !filter_app.
    rewrite (filter_nil_of_false _ pre) by (apply Forall_forall; exact Fpre).
    rewrite (filter_nil_of_false _ post) by (apply Forall_forall; exact Fpost).
    rewrite app_nil_r. simpl. apply filter_all.
    eapply Forall_impl; [|exact Fmine].
    intros t. apply instance_linkedTo.
  - intros r Hr. apply sync_fold_series_nth; [|exact Hr].
    intros r' Hr'.
    destruct (Forall2_nth_error i (syncOne_series today now db1 s)
                (@sync_fold_series_nth today now i s l1 db H1 Hi))
      as (x & Hx & Hadv).
    fold db1 in Hx. rewrite Hx in Hr. injection Hr as <-.
    rewrite (advancedBy_id Hadv). apply H2. exact Hr'.
Qed.

Lemma existsb_filter {A} (p q : A -> bool) (l : list A) :
  (forall x, p x = true -> q x = true) ->
  existsb p (filter q l) = existsb p l.
Proof.
  intros H. induction l as [|a l IH]; simpl; [reflexivity|].
  destruct (q a) eqn:Q; simpl.
  - rewrite IH. reflexivity.
  - rewrite IH. destruct (p a) eqn:P; [|reflexivity].
    rewrite (H a P) in Q. discriminate.
Qed.

Lemma outstandingFor_linked sid t :
  outstandingFor sid t = true -> linkedTo sid t = true.
Proof.
  unfold outstandingFor. rewrite !andb_true_iff. tauto.
Qed.

Lemma materializedFor_linked sid d t :
  materializedFor sid d t = true -> linkedTo sid t = true.
Proof.
  unfold materializedFor. rewrite !andb_true_iff. tauto.
Qed.

(** Both look-ups only read the tasks linked to the series. *)
Lemma hasOutstanding_view db db' sid :
  filter (linkedTo sid) (tasks db') = filter (linkedTo sid) (tasks db) ->
  hasOutstandingInstance db' sid = hasOutstandingInstance db sid.
Proof.
  intros E. unfold hasOutstandingInstance.
  rewrite <- (existsb_filter _ (linkedTo sid) (tasks db'))
    by apply outstandingFor_linked.
  rewrite <- (existsb_filter _ (linkedTo sid) (tasks db))
    by apply outstandingFor_linked.
  rewrite E. reflexivity.
Qed.

Lemma hasMaterialized_view db db' sid d :
  filter (linkedTo sid) (tasks db') = filter (linkedTo sid) (tasks db) ->
  hasMaterializedDueDate db' sid d = hasMaterializedDueDate db sid d.
Proof.
  intros E. unfold hasMaterializedDueDate.
  rewrite <- (existsb_filter _ (linkedTo sid) (tasks db'))
    by apply materializedFor_linked.
  rewrite <- (existsb_filter _ (linkedTo sid) (tasks db))
    by apply materializedFor_linked.
  rewrite E. reflexivity.
Qed.

Lemma hasOutstanding_spec db sid :
  hasOutstandingInstance db sid = true <-> Outstanding db sid.
Proof.
  unfold hasOutstandingInstance, Outstanding. rewrite existsb_exists.
  split; intros (t & Hin & H); exists t; (split; [exact Hin|]).
  - unfold outstandingFor, linkedTo in H.
    rewrite !andb_true_iff, negb_true_iff, eqText_true, isNull_true in H.
    destruct H as ((Hl & Hd) & Hs). repeat split; trivial.
    intros E. rewrite E in Hs. discriminate.
  - destruct H as (Hl & Hd & Hs).
    unfold outstandingFor, linkedTo.
    rewrite !andb_true_iff, negb_true_iff, eqText_true, isNull_true.
    repeat split; trivial.
    destruct (status_eqb (task_status t) done) eqn:X; trivial.
    apply status_eqb_eq in X. contradiction.
Qed.

Lemma hasMaterialized_spec db sid d :
  hasMaterializedDueDate db sid d = true <-> MaterializedAt db sid d.
Proof.
  unfold hasMaterializedDueDate, MaterializedAt. rewrite existsb_exists.
  split; intros (t & Hin & H); exists t; (split; [exact Hin|]).
  - unfold materializedFor, linkedTo in H.
    rewrite !andb_true_iff, !eqText_true, isNull_true in H. tauto.
  - unfold materializedFor, linkedTo.
    rewrite !andb_true_iff, !eqText_true, isNull_true. tauto.
Qed.

(** *** Migration does not disturb the instances of existing series *)

Lemma Forall2_from_nth {A} (R : A -> A -> Prop) : forall l l' : list A,
  List.length l = List.length l' ->
  (forall i x, nth_error l i = Some x ->
               exists y, nth_error l' i = Some y /\ R x y) ->
  Forall2 R l l'.
Proof.
  induction l as [|a l IH]; intros [|b l'] Hlen H; simpl in Hlen;
    try discriminate; constructor.
  - destruct (H 0 a eq_refl) as (y & Hy & Hr). simpl in Hy.
    injection Hy as <-. exact Hr.
  - apply IH; [lia|]. intros i x Hi. apply (H (S i) x Hi).
Qed.

Lemma filter_Forall2_eq {A} (p : A -> bool) (l l' : list A) :
  Forall2 (fun x y => y = x \/ (p x = false /\ p y = false)) l l' ->
  filter p l' = filter p l.
Proof.
  induction 1 as [|x y l l' [->|(Hx & Hy)] Hl IH]; simpl.
  - reflexivity.
  - rewrite IH. reflexivity.
  - rewrite Hx, Hy. exact IH.
Qed.

Lemma migrate_view userId today now db sid :
  allocatesFresh newId ->
  uniqueTaskIds db ->
  In sid (map series_id (recurrenceSeries db)) ->
  filter (linkedTo sid) (tasks (migrate userId today now db))
  = filter (linkedTo sid) (tasks db).
Proof.
  intros Hf Hut Hsid.
  apply filter_Forall2_eq.
  apply Forall2_from_nth.
  { symmetry. apply migrate_tasks_length. }
  intros i t Hi.
  destruct (isLegacyRow userId t) eqn:Hleg.
  - destruct (@migrate_fold_links userId today now
                (filter (isLegacyRow userId) (tasks db)) db i t t)
      as (sid' & Hsid' & Hrow & _); trivial.
    + apply NoDup_map_filter. exact Hut.
    + apply Forall_forall. intros r Hr. apply filter_In in Hr. apply Hr.
    + apply filter_In. split; [eapply nth_error_In; eauto | exact Hleg].
    + eexists. split; [exact Hrow|]. right. split.
      * apply isLegacyRow_spec in Hleg. destruct Hleg as (_ & _ & Hn & _).
        unfold linkedTo. rewrite Hn. reflexivity.
      * unfold linkedTo; simpl. apply String.eqb_neq.
        intros ->. contradiction.
  - exists t. split; [|left; reflexivity].
    apply migrate_fold_untouched; [|exact Hi].
    intros Hin. apply in_map_iff in Hin. destruct Hin as (r & Er & Hr).
    apply filter_In in Hr. destruct Hr as (Hr & Hlr).
    assert (r = t).
    { eapply NoDup_map_inj_in; [exact Hut|exact Hr| |exact Er].
      eapply nth_error_In; eauto. }
    subst r. congruence.
Qed.

Lemma migrate_series_nth userId today now db i s :
  nth_error (recurrenceSeries db) i = Some s ->
  nth_error (recurrenceSeries (migrate userId today now db)) i = Some s.
Proof.
  intros Hi. unfold migrateLegacyTaskRecurrencesForUser.
  destruct (migrate_fold_series_prefix today now
              (filter (isLegacyRow userId) (tasks db)) db) as (added & ->).
  rewrite nth_error_app1; [exact Hi|].
  apply nth_error_Some. congruence.
Qed.

(** The whole pass, seen from one series that is due after migration. *)
Lemma sync_split userId today now db s i :
  allocatesFresh newId ->
  uniqueSeriesIds db ->
  nth_error (recurrenceSeries (migrate userId today now db)) i = Some s ->
  DueSeries userId today s ->
  exists db1 pre,
    tasks db1 = tasks (migrate userId today now db) ++ pre
    /\ Forall (fun t => linkedTo (series_id s) t = false) pre
    /\ nth_error (recurrenceSeries db1) i = Some s
    /\ createdFor (series_id s) db (sync userId today now db)
       = createdTasks db1 (syncOne today now db1 s)
    /\ (forall r, nth_error (recurrenceSeries (syncOne today now db1 s)) i
                  = Some r ->
                  nth_error (recurrenceSeries (sync userId today now db)) i
                  = Some r).
Proof.
  intros Hf Hus Hi Hdue.
  set (dbm := migrate userId today now db) in *.
  destruct (@sync_fold_split today now
              (filter (isDueSeries userId today) (recurrenceSeries dbm))
              s i dbm) as (db1 & pre & E & F & Hn & Hc & Hs); trivial.
  - apply NoDup_map_filter. apply migrate_unique_series; assumption.
  - apply filter_In. split; [eapply nth_error_In; eauto|].
    apply isDueSeries_spec. exact Hdue.
  - exists db1, pre. repeat split; trivial.
    rewrite <- Hc. unfold createdFor, createdTasks.
    unfold syncRecurrenceSeriesForUser. fold dbm.
    unfold dbm at 3. rewrite migrate_tasks_length. reflexivity.
Qed.

(** *** Claims about one pass *)

Lemma createdTasks_same db : createdTasks db db = [].
Proof. apply createdTasks_none. reflexivity. Qed.

Lemma createdTasks_materialize now db s d :
  createdTasks db (materialize now db s d)
  = [instanceOf (newId (map task_id (tasks db))) now s d].
Proof.
  unfold createdTasks. rewrite materialize_tasks. apply skipn_length_app.
Qed.

(** C10. Every task row a pass creates has inline kind [none], behavior
    [after_completion], no rule, no [recurrenceProcessedAt], status [open]
    and the id of a series that was due in [recurrenceSeriesId]; so it is
    neither a legacy item for migration nor selected by the rollover, for
    any user and any date. *)
Theorem materialized_instance_is_plain userId today now db t :
  In t (createdTasks db (sync userId today now db)) ->
  task_recurrenceType t = none
  /\ task_recurrenceBehavior t = after_completion
  /\ task_recurrenceRule t = None
  /\ task_recurrenceProcessedAt t = None
  /\ task_status t = open
  /\ (exists s, In s (recurrenceSeries (migrate userId today now db))
                /\ DueSeries userId today s
                /\ task_recurrenceSeriesId t = Some (series_id s))
  /\ (forall u, ~ LegacyItem u t)
  /\ (forall u d, ~ RolloverSelected u d t).
Proof.
  intros Hin.
  destruct (sync_created userId today now db) as (new & _ & E & F).
  rewrite E in Hin.
  rewrite Forall_forall in F.
  destruct (F t Hin) as (s & Hs & Hdue & tid & d & ->).
  simpl. repeat split; trivial.
  - exists s. auto.
  - intros u (_ & _ & _ & H). apply H. reflexivity.
  - intros u d' (_ & _ & H & _). discriminate.
Qed.

(** C7. A pass leaves the row of every [after_completion] series exactly
    as it was, [nextDueDate] included: this holds for every row the table
    had before the pass and for the rows migration adds during it. *)
Theorem after_completion_row_untouched userId today now db :
  allocatesFresh newId ->
  uniqueSeriesIds db ->
  (forall i s, nth_error (recurrenceSeries db) i = Some s ->
     series_recurrenceBehavior s = after_completion ->
     nth_error (recurrenceSeries (sync userId today now db)) i = Some s)
  /\ (forall i s,
        nth_error (recurrenceSeries (migrate userId today now db)) i = Some s ->
        series_recurrenceBehavior s = after_completion ->
        nth_error (recurrenceSeries (sync userId today now db)) i = Some s).
Proof.
  intros Hf Hu.
  assert (H : forall i s,
             nth_error (recurrenceSeries (migrate userId today now db)) i
             = Some s ->
             series_recurrenceBehavior s = after_completion ->
             nth_error (recurrenceSeries (sync userId today now db)) i
             = Some s).
  { intros i s Hi Hb. unfold syncRecurrenceSeriesForUser.
    apply (@sync_fold_ind
             (fun d _ => nth_error (recurrenceSeries d) i = Some s) today now).
    - intros d h rows (Hud & _ & Hin) Hd.
      destruct (Forall2_nth_error i (syncOne_series today now d h) Hd)
        as (r' & Hr' & [->|(E & Hdup & _)]); [exact Hr'|].
      exfalso.
      assert (h = s).
      { eapply NoDup_map_inj_in; [exact Hud| | |symmetry; exact E].
        - apply Hin. left; reflexivity.
        - eapply nth_error_In; eauto. }
      subst h. congruence.
    - apply pending_start. apply migrate_unique_series; assumption.
    - exact Hi. }
  split; [|exact H].
  intros i s Hi Hb. apply H; [|exact Hb].
  apply migrate_series_nth. exact Hi.
Qed.

(** C3, as the code has it.  For an active, not deleted
    [after_completion] series of the user with [nextDueDate] at or before
    today: if an open or in-progress instance that is not soft-deleted is
    linked to it, the pass creates no instance for it; otherwise, if no
    instance that is not soft-deleted is due on [nextDueDate], the pass
    creates exactly one, open, due on [nextDueDate], with the series'
    title, description, priority and project, linked through
    [recurrenceSeriesId]. *)
Theorem after_completion_materializes_once userId today now db s :
  allocatesFresh newId ->
  uniqueTaskIds db ->
  uniqueSeriesIds db ->
  In s (recurrenceSeries db) ->
  DueSeries userId today s ->
  series_recurrenceBehavior s = after_completion ->
  let created := createdFor (series_id s) db (sync userId today now db) in
  (Outstanding db (series_id s) -> created = [])
  /\ (~ Outstanding db (series_id s) ->
      ~ MaterializedAt db (series_id s) (series_nextDueDate s) ->
      exists t,
        created = [t]
        /\ task_status t = open
        /\ task_dueDate t = Some (series_nextDueDate s)
        /\ task_title t = series_title s
        /\ task_description t = series_description s
        /\ task_priority t = series_priority s
        /\ task_projectId t = series_projectId s
        /\ task_recurrenceSeriesId t = Some (series_id s)).
Proof.
  intros Hf Hut Hus Hin Hdue Hb. cbv zeta.
  destruct (In_nth_error _ _ Hin) as (i & Hi).
  destruct (@sync_split userId today now db s i Hf Hus
              (migrate_series_nth userId today now db i Hi) Hdue)
    as (db1 & pre & E & F & _ & Hc & _).
  rewrite Hc.
  assert (V : filter (linkedTo (series_id s)) (tasks db1)
              = filter (linkedTo (series_id s)) (tasks db)).
  { rewrite E, filter_app_none by exact F.
    apply migrate_view; trivial. apply in_map. exact Hin. }
  unfold syncSeries. rewrite Hb.
  rewrite (hasOutstanding_view _ _ _ V).
  rewrite (hasMaterialized_view _ _ _ _ V).
  split.
  - intros Ho. apply hasOutstanding_spec in Ho. rewrite Ho.
    apply createdTasks_same.
  - intros Ho Hm.
    destruct (hasOutstandingInstance db (series_id s)) eqn:EO.
    { exfalso. apply Ho. apply hasOutstanding_spec. exact EO. }
    destruct (hasMaterializedDueDate db (series_id s) (series_nextDueDate s))
      eqn:EM.
    { exfalso. apply Hm. apply hasMaterialized_spec. exact EM. }
    rewrite createdTasks_materialize.
    eexists. split; [reflexivity|]. simpl. repeat split.
Qed.

(** *** The cursor of the catch-up loop *)

Lemma catchUp_cursor_ge n today now s :
  neverEarlier getNext ->
  forall db cursor,
    str_le cursor (snd (catchUpFrom n today now s db cursor)).
Proof.
  intros Hne. induction n as [|n IH]; intros db cursor; simpl.
  - apply str_le_refl.
  - destruct (str_gtb cursor today); [apply str_le_refl|].
    destruct (stalls cursor _) eqn:St; [apply str_le_refl|].
    destruct (getNext cursor (series_recurrenceType s)
                (series_recurrenceRule s)) as [n1|] eqn:En.
    + eapply str_le_trans; [|apply IH].
      eapply Hne; eauto.
    + apply str_le_refl.
Qed.

(** C6. Across a pass the [nextDueDate] of a series row never moves
    back: the row keeps its place and its [id], and its date after the
    pass is at or after its date before, whether the catch-up loop ran to
    the end, stopped on a helper that yields none, or stopped on one that
    does not advance.  The helper is assumed never to answer with a date
    before its anchor. *)
Theorem next_due_date_never_regresses userId today now db :
  neverEarlier getNext ->
  allocatesFresh newId ->
  uniqueSeriesIds db ->
  (forall i s, nth_error (recurrenceSeries db) i = Some s ->
     exists s',
       nth_error (recurrenceSeries (sync userId today now db)) i = Some s'
       /\ series_id s' = series_id s
       /\ str_le (series_nextDueDate s) (series_nextDueDate s'))
  /\ (forall i s,
        nth_error (recurrenceSeries (migrate userId today now db)) i = Some s ->
        exists s',
          nth_error (recurrenceSeries (sync userId today now db)) i = Some s'
          /\ series_id s' = series_id s
          /\ str_le (series_nextDueDate s) (series_nextDueDate s')).
Proof.
  intros Hne Hf Hu.
  assert (H : forall i s,
             nth_error (recurrenceSeries (migrate userId today now db)) i
             = Some s ->
             exists s',
               nth_error (recurrenceSeries (sync userId today now db)) i
               = Some s'
               /\ series_id s' = series_id s
               /\ str_le (series_nextDueDate s) (series_nextDueDate s')).
  { intros i s Hi. unfold syncRecurrenceSeriesForUser.
    apply (@sync_fold_ind
             (fun d _ => exists s',
                  nth_error (recurrenceSeries d) i = Some s'
                  /\ series_id s' = series_id s
                  /\ str_le (series_nextDueDate s) (series_nextDueDate s'))
             today now).
    - intros d h rows (Hud & _ & Hin) (s1 & H1 & Hid & Hle).
      destruct (Forall2_nth_error i (syncOne_series today now d h) H1)
        as (r' & Hr' & [->|(E & _ & db0 & ->)]).
      + exists s1. auto.
      + eexists. split; [exact Hr'|]. split; [exact Hid|]. simpl.
        assert (h = s1).
        { eapply NoDup_map_inj_in; [exact Hud| | |symmetry; exact E].
          - apply Hin. left; reflexivity.
          - eapply nth_error_In; eauto. }
        subst h. eapply str_le_trans; [exact Hle|].
        apply catchUp_cursor_ge. exact Hne.
    - apply pending_start. apply migrate_unique_series; assumption.
    - exists s. split; [exact Hi|]. split; [reflexivity|apply str_le_refl]. }
  split; [|exact H].
  intros i s Hi. apply H. apply migrate_series_nth. exact Hi.
Qed.

(** *** Running the pass again *)

Lemma catchUpLimit_succ : exists n, catchUpLimit = S n.
Proof. Transparent catchUpLimit. unfold catchUpLimit. eauto. Qed.

Opaque catchUpLimit.

Lemma settled_fixed today now db r :
  settled getNext today db r -> syncOne today now db r = db.
Proof.
  unfold settled, syncSeries.
  destruct (series_recurrenceBehavior r).
  - intros [H|H].
    + rewrite H. reflexivity.
    + rewrite H. destruct (hasOutstandingInstance db (series_id r)); reflexivity.
  - destruct catchUpLimit_succ as (n & ->). simpl.
    intros [H|(Hm & Hs)].
    + rewrite H, String.eqb_refl. reflexivity.
    + destruct (str_gtb (series_nextDueDate r) today).
      * rewrite String.eqb_refl. reflexivity.
      * rewrite Hm, Hs, String.eqb_refl. reflexivity.
Qed.

Lemma settled_more_tasks today db db' r new :
  tasks db' = tasks db ++ new ->
  settled getNext today db r -> settled getNext today db' r.
Proof.
  intros E. unfold settled, hasOutstandingInstance, hasMaterializedDueDate.
  rewrite E, !existsb_app.
  destruct (series_recurrenceBehavior r).
  - intros [H|H]; rewrite H; auto.
  - intros [H|(Hm & Hs)]; [left; exact H|right].
    rewrite Hm. auto.
Qed.

Lemma materialize_materialized now db s d :
  hasMaterializedDueDate (materialize now db s d) (series_id s) d = true.
Proof.
  unfold hasMaterializedDueDate. rewrite materialize_tasks, existsb_app.
  simpl. unfold materializedFor, linkedTo; simpl.
  rewrite !String.eqb_refl. simpl. apply orb_true_r.
Qed.

Lemma materialize_outstanding now db s d :
  hasOutstandingInstance (materialize now db s d) (series_id s) = true.
Proof.
  unfold hasOutstandingInstance. rewrite materialize_tasks, existsb_app.
  simpl. unfold outstandingFor, linkedTo; simpl.
  rewrite !String.eqb_refl. simpl. apply orb_true_r.
Qed.

Lemma hasMaterialized_more db db' sid d new :
  tasks db' = tasks db ++ new ->
  hasMaterializedDueDate db sid d = true ->
  hasMaterializedDueDate db' sid d = true.
Proof.
  intros E H. unfold hasMaterializedDueDate in *.
  rewrite E, existsb_app, H. reflexivity.
Qed.

(** Where the loop ends when it does not run out of turns: past today, or
    on a date that is materialized and on which the helper stalls. *)
Lemma catchUp_settled n today now s : forall db cursor,
  catchUpSettles getNext n today s cursor = true ->
  let '(db1, final) := catchUpFrom n today now s db cursor in
  str_gtb final today = true
  \/ (hasMaterializedDueDate db1 (series_id s) final = true
      /\ stalls final (getNext final (series_recurrenceType s)
                         (series_recurrenceRule s)) = true).
Proof.
  induction n as [|n IH]; intros db cursor; simpl.
  - intros H. left; exact H.
  - destruct (str_gtb cursor today) eqn:G.
    { intros _. left; exact G. }
    destruct (stalls cursor (getNext cursor (series_recurrenceType s)
                (series_recurrenceRule s))) eqn:St.
    { intros _. right. split; [|exact St].
      destruct (hasMaterializedDueDate db (series_id s) cursor) eqn:M;
        [exact M | apply materialize_materialized]. }
    destruct (getNext cursor (series_recurrenceType s)
                (series_recurrenceRule s)) as [n1|] eqn:En.
    + intros H. apply IH. exact H.
    + discriminate.
Qed.

Lemma catchUp_cursor_pure n today now now' s : forall db db' cursor,
  snd (catchUpFrom n today now s db cursor)
  = snd (catchUpFrom n today now' s db' cursor).
Proof.
  induction n as [|n IH]; intros db db' cursor; simpl; [reflexivity|].
  destruct (str_gtb cursor today); [reflexivity|].
  destruct (stalls cursor _); [reflexivity|].
  destruct (getNext cursor (series_recurrenceType s)
              (series_recurrenceRule s)); [apply IH | reflexivity].
Qed.

(** After its turn, the row of a series is settled, in whatever shape the
    turn left it. *)
Lemma syncOne_settles userId today now db h r' :
  uniqueSeriesIds db ->
  In h (recurrenceSeries db) ->
  (series_recurrenceBehavior h = duplicate_on_schedule ->
   catchUpSettles getNext catchUpLimit today h (series_nextDueDate h) = true) ->
  In r' (recurrenceSeries (syncOne today now db h)) ->
  series_id r' = series_id h ->
  isDueSeries userId today r' = true ->
  settled getNext today (syncOne today now db h) r'.
Proof.
  intros Hu Hh Hlim Hr' Hid Hdue.
  (* the row with this id comes from [h] itself *)
  destruct (In_nth_error _ _ Hr') as (i & Hi').
  assert (Hlen : i < List.length (recurrenceSeries db)).
  { rewrite <- (length_map series_id), <- (syncOne_series_ids today now db h),
      length_map. apply nth_error_Some. congruence. }
  destruct (nth_error (recurrenceSeries db) i) as [r|] eqn:Hi;
    [|apply nth_error_None in Hi; lia].
  destruct (Forall2_nth_error i (syncOne_series today now db h) Hi)
    as (r2 & Hr2 & Hadv).
  rewrite Hi' in Hr2. injection Hr2 as <-.
  assert (r = h).
  { eapply NoDup_map_inj_in; [exact Hu| |exact Hh|].
    - eapply nth_error_In; eauto.
    - rewrite <- (advancedBy_id Hadv). exact Hid. }
  subst r. clear Hid.
  unfold settled.
  destruct (series_recurrenceBehavior h) eqn:B.
  - (* after_completion: the row is [h] *)
    destruct Hadv as [->|(_ & X & _)]; [|congruence].
    rewrite B. unfold syncSeries. rewrite B.
    destruct (hasOutstandingInstance db (series_id h)) eqn:O; [left; exact O|].
    destruct (hasMaterializedDueDate db (series_id h) (series_nextDueDate h))
      eqn:M; [right; exact M|].
    left. apply materialize_outstanding.
  - (* duplicate_on_schedule *)
    specialize (Hlim eq_refl).
    pose proof (catchUp_settled catchUpLimit today now h db
                  (series_nextDueDate h) Hlim) as Hend.
    unfold syncSeries in *. rewrite B in *.
    destruct (catchUpFrom catchUpLimit today now h db (series_nextDueDate h))
      as [db1 final] eqn:EC.
    assert (Hnd : series_nextDueDate r' = final
                  /\ series_recurrenceBehavior r' = duplicate_on_schedule
                  /\ series_recurrenceType r' = series_recurrenceType h
                  /\ series_recurrenceRule r' = series_recurrenceRule h
                  /\ series_id r' = series_id h).
    { destruct (String.eqb final (series_nextDueDate h)) eqn:Ef.
      - apply String.eqb_eq in Ef.
        destruct Hadv as [->|(_ & _ & db0 & ->)].
        + auto.
        + simpl. repeat split; trivial.
          rewrite (catchUp_cursor_pure catchUpLimit today now now h db0 db
                     (series_nextDueDate h)), EC. reflexivity.
      - destruct Hadv as [->|(_ & _ & db0 & ->)].
        + (* the row was rewritten, so it cannot be [h] unchanged *)
          exfalso. simpl in Hi'.
          rewrite nth_error_map in Hi'.
          assert (S1 : recurrenceSeries db1 = recurrenceSeries db).
          { destruct (catchUp_shape catchUpLimit today now h db
                        (series_nextDueDate h)) as (? & _ & _ & S & _).
            rewrite EC in S. exact S. }
          rewrite S1, Hi in Hi'. simpl in Hi'.
          rewrite String.eqb_refl in Hi'. injection Hi' as Hi'.
          apply (f_equal series_nextDueDate) in Hi'. simpl in Hi'.
          rewrite Hi', String.eqb_refl in Ef. discriminate.
        + simpl. repeat split; trivial.
          rewrite (catchUp_cursor_pure catchUpLimit today now now h db0 db
                     (series_nextDueDate h)), EC. reflexivity. }
    destruct Hnd as (-> & -> & -> & -> & ->).
    assert (T : tasks (if String.eqb final (series_nextDueDate h) then db1
                       else updateSeriesWhere
                              (fun s => String.eqb (series_id s) (series_id h))
                              (series_setNextDueDate final now) db1)
                = tasks db1).
    { destruct (String.eqb final (series_nextDueDate h)); reflexivity. }
    unfold hasMaterializedDueDate. rewrite T. exact Hend.
Qed.

Lemma syncOne_series_back today now db h r' :
  In r' (recurrenceSeries (syncOne today now db h)) ->
  series_id r' <> series_id h ->
  In r' (recurrenceSeries db).
Proof.
  intros Hr' Hne.
  destruct (In_nth_error _ _ Hr') as (i & Hi').
  assert (Hlen : i < List.length (recurrenceSeries db)).
  { rewrite <- (length_map series_id), <- (syncOne_series_ids today now db h),
      length_map. apply nth_error_Some. congruence. }
  destruct (nth_error (recurrenceSeries db) i) as [r|] eqn:Hi;
    [|apply nth_error_None in Hi; lia].
  destruct (Forall2_nth_error i (syncOne_series today now db h) Hi)
    as (r2 & Hr2 & Hadv).
  rewrite Hi' in Hr2. injection Hr2 as <-.
  destruct Hadv as [->|(E & _ & db0 & ->)].
  - eapply nth_error_In; eauto.
  - simpl in Hne. contradiction.
Qed.

Lemma fold_left_fixed {A B} (f : A -> B -> A) (l : list B) (a : A) :
  (forall x, In x l -> f a x = a) -> fold_left f l a = a.
Proof.
  induction l as [|x l IH]; intros H; simpl; [reflexivity|].
  rewrite (H x) by (left; reflexivity).
  apply IH. intros y Hy. apply H. right; exact Hy.
Qed.

Lemma instance_not_legacy userId now s t :
  IsInstanceOf now s t -> isLegacyRow userId t = false.
Proof.
  intros (tid & d & ->). unfold isLegacyRow; simpl.
  rewrite !andb_false_r. reflexivity.
Qed.

Lemma sync_no_legacy_left userId today now db t :
  In t (tasks (sync userId today now db)) -> isLegacyRow userId t = false.
Proof.
  destruct (sync_created userId today now db) as (new & E & _ & F).
  rewrite E, in_app_iff. intros [H|H].
  - eapply migrate_no_legacy_left; eauto.
  - rewrite Forall_forall in F. destruct (F t H) as (s & _ & _ & Hi).
    eapply instance_not_legacy; eauto.
Qed.

(** After a pass in which every catch-up loop ended within its limit,
    every row that is still due is settled. *)
Lemma sync_all_settled userId today now db :
  allocatesFresh newId ->
  uniqueSeriesIds db ->
  withinCatchUpLimit getNext userId today (migrate userId today now db)
  = true ->
  forall r, In r (recurrenceSeries (sync userId today now db)) ->
            isDueSeries userId today r = true ->
            settled getNext today (sync userId today now db) r.
Proof.
  intros Hf Hu Hlim.
  unfold withinCatchUpLimit in Hlim. rewrite forallb_forall in Hlim.
  set (dbm := migrate userId today now db) in *.
  set (due := filter (isDueSeries userId today) (recurrenceSeries dbm)) in *.
  assert (H : (fun d rows =>
                 (forall h, In h rows -> In h due)
                 /\ forall r, In r (recurrenceSeries d) ->
                              isDueSeries userId today r = true ->
                              settled getNext today d r \/ In r rows)
                (fold_left (syncOne today now) due dbm) []).
  { apply sync_fold_ind.
    - intros d h rows (Hud & Hnd & Hin) (Hsub & Hinv).
      split; [intros x Hx; apply Hsub; right; exact Hx|].
      intros r Hr Hdue.
      destruct (String.eqb (series_id r) (series_id h)) eqn:E.
      + apply String.eqb_eq in E. left.
        eapply syncOne_settles; eauto.
        * apply Hin. left; reflexivity.
        * intros B. specialize (Hlim h (Hsub h (or_introl eq_refl))).
          rewrite B in Hlim. exact Hlim.
      + apply String.eqb_neq in E.
        pose proof (syncOne_series_back _ _ _ _ _ Hr E) as Hr0.
        destruct (Hinv r Hr0 Hdue) as [S|[->|Hin']].
        * left. destruct (syncOne_tasks today now d h) as (new & Et & _).
          eapply settled_more_tasks; eauto.
        * contradiction.
        * right; exact Hin'.
    - apply pending_start. apply migrate_unique_series; assumption.
    - split; [auto|]. intros r Hr Hdue. right.
      apply filter_In. split; assumption. }
  destruct H as (_ & H). intros r Hr Hdue.
  destruct (H r Hr Hdue) as [S|[]]. exact S.
Qed.

(** C1, as the code has it.  Running the pass a second time for the same
    user and day, with nothing changed in between, changes nothing at all
    (no task row is added, none is rewritten, no series row moves),
    provided every catch-up loop of the first run ended within its
    500 turns. *)
Theorem sync_twice_within_limit userId today now now' db :
  allocatesFresh newId ->
  uniqueSeriesIds db ->
  withinCatchUpLimit getNext userId today (migrate userId today now db)
  = true ->
  sync userId today now' (sync userId today now db)
  = sync userId today now db
  /\ createdTasks (sync userId today now db)
       (sync userId today now' (sync userId today now db)) = [].
Proof.
  intros Hf Hu Hlim.
  assert (E : sync userId today now' (sync userId today now db)
              = sync userId today now db).
  { unfold syncRecurrenceSeriesForUser at 1.
    assert (M : migrate userId today now' (sync userId today now db)
                = sync userId today now db).
    { unfold migrateLegacyTaskRecurrencesForUser.
      rewrite filter_nil_of_false; [reflexivity|].
      intros t. apply sync_no_legacy_left. }
    rewrite M. apply fold_left_fixed.
    intros r Hr. apply filter_In in Hr. destruct Hr as (Hr & Hdue).
    apply settled_fixed.
    apply sync_all_settled; assumption. }
  split; [exact E|]. rewrite E. apply createdTasks_same.
Qed.

(** *** The catch-up loop on a series without instances *)

Lemma materializedFor_instance sid tid now s d d' :
  d <> d' -> materializedFor sid d' (instanceOf tid now s d) = false.
Proof.
  intros H. unfold materializedFor; simpl.
  apply String.eqb_neq in H. rewrite H.
  rewrite andb_false_r. reflexivity.
Qed.

Lemma catchUp_visits today now s : forall dates n db cursor final,
  List.length dates <= n ->
  visits getNext today s cursor dates final ->
  NoDup dates ->
  (forall d, In d dates ->
             hasMaterializedDueDate db (series_id s) d = false) ->
  exists new,
    tasks (fst (catchUpFrom n today now s db cursor)) = tasks db ++ new
    /\ snd (catchUpFrom n today now s db cursor) = final
    /\ map task_dueDate new = map Some dates
    /\ Forall (IsInstanceOf now s) new.
Proof.
  induction dates as [|d rest IH]; intros n db cursor final Hlen Hv Hnd Hnone.
  - destruct Hv as (-> & Hg). exists []. rewrite app_nil_r.
    destruct n as [|n]; simpl; [auto|]. rewrite Hg. simpl. auto.
  - destruct Hv as (-> & Hg & next & En & Hs & Hv).
    destruct n as [|n]; [simpl in Hlen; lia|].
    simpl. rewrite Hg, En, Hs.
    rewrite (Hnone cursor) by (left; reflexivity).
    inversion Hnd as [|? ? Hcur Hnd']; subst.
    destruct (IH n (materialize now db s cursor) next final) as
      (new & Et & Ef & Ed & Fi); trivial.
    + simpl in Hlen. lia.
    + intros d' Hd'. unfold hasMaterializedDueDate.
      rewrite materialize_tasks, existsb_app.
      fold (hasMaterializedDueDate db (series_id s) d').
      rewrite (Hnone d') by (right; exact Hd'). simpl.
      rewrite materializedFor_instance; [reflexivity|].
      intros ->. contradiction.
    + eexists. split; [|split; [exact Ef|split]].
      * rewrite Et, materialize_tasks, <- app_assoc. reflexivity.
      * simpl. rewrite Ed. reflexivity.
      * constructor; [|exact Fi]. eexists; eexists; reflexivity.
Qed.

Lemma hasMaterialized_no_instances db sid d :
  filter (linkedTo sid) (tasks db) = [] ->
  hasMaterializedDueDate db sid d = false.
Proof.
  intros H. unfold hasMaterializedDueDate.
  rewrite <- (existsb_filter _ (linkedTo sid))
    by apply materializedFor_linked.
  rewrite H. reflexivity.
Qed.

Lemma catchUpLimit_value : catchUpLimit = 500.
Proof. Transparent catchUpLimit. reflexivity. Qed.

Opaque catchUpLimit.

(** A [duplicate_on_schedule] series without instances, whose dates up to
    today are [dates]: the pass makes one instance per date and moves
    [nextDueDate] to the first date past today. *)
Lemma sync_catches_up userId today now db s dates final :
  allocatesFresh newId ->
  uniqueTaskIds db ->
  uniqueSeriesIds db ->
  In s (recurrenceSeries db) ->
  DueSeries userId today s ->
  series_recurrenceBehavior s = duplicate_on_schedule ->
  (forall t, In t (tasks db) ->
             task_recurrenceSeriesId t <> Some (series_id s)) ->
  visits getNext today s (series_nextDueDate s) dates final ->
  NoDup dates ->
  List.length dates <= 500 ->
  final <> series_nextDueDate s ->
  map task_dueDate (createdFor (series_id s) db (sync userId today now db))
  = map Some dates
  /\ exists i,
       nth_error (recurrenceSeries db) i = Some s
       /\ nth_error (recurrenceSeries (sync userId today now db)) i
          = Some (series_setNextDueDate final now s).
Proof.
  intros Hf Hut Hus Hin Hdue Hb Hnone Hv Hnd Hlen Hfin.
  destruct (In_nth_error _ _ Hin) as (i & Hi).
  destruct (@sync_split userId today now db s i Hf Hus
              (migrate_series_nth userId today now db i Hi) Hdue)
    as (db1 & pre & E & F & Hrow & Hc & Hser).
  assert (V : filter (linkedTo (series_id s)) (tasks db1) = []).
  { rewrite E, filter_app_none by exact F.
    rewrite migrate_view; trivial; [|apply in_map; exact Hin].
    apply filter_nil_of_false. intros t Ht.
    unfold linkedTo.
    destruct (eqText (task_recurrenceSeriesId t) (series_id s)) eqn:X;
      trivial.
    apply eqText_true in X. destruct (Hnone t Ht X). }
  assert (Hlim : List.length dates <= catchUpLimit)
    by (rewrite catchUpLimit_value; exact Hlen).
  assert (Hfree : forall d, In d dates ->
                    hasMaterializedDueDate db1 (series_id s) d = false)
    by (intros d _; apply hasMaterialized_no_instances; exact V).
  destruct (@catchUp_visits today now s dates catchUpLimit db1
              (series_nextDueDate s) final Hlim Hv Hnd Hfree)
    as (new & Et & Ef & Ed & Fi).
  destruct (catchUp_shape catchUpLimit today now s db1 (series_nextDueDate s))
    as (_ & _ & _ & Hs1 & _).
  assert (Hsync : tasks (syncOne today now db1 s) = tasks db1 ++ new
                  /\ recurrenceSeries (syncOne today now db1 s)
                     = map (fun r => if String.eqb (series_id r) (series_id s)
                                     then series_setNextDueDate final now r
                                     else r) (recurrenceSeries db1)).
  { unfold syncSeries. rewrite Hb.
    destruct (catchUpFrom catchUpLimit today now s db1 (series_nextDueDate s))
      as [db2 cur]; cbn [fst snd] in *. subst cur.
    apply String.eqb_neq in Hfin. rewrite Hfin. simpl.
    rewrite Hs1. auto. }
  destruct Hsync as (Ht2 & Hs2).
  split.
  - rewrite Hc. unfold createdTasks. rewrite Ht2, skipn_length_app. exact Ed.
  - exists i. split; [exact Hi|]. apply Hser.
    rewrite Hs2, nth_error_map, Hrow. simpl.
    rewrite String.eqb_refl. reflexivity.
Qed.

(** *** What a pass creates *)

Lemma hasMaterialized_app_false db db' sid d new :
  tasks db' = tasks db ++ new ->
  hasMaterializedDueDate db' sid d = false ->
  hasMaterializedDueDate db sid d = false
  /\ existsb (materializedFor sid d) new = false.
Proof.
  unfold hasMaterializedDueDate. intros -> H.
  rewrite existsb_app in H. apply orb_false_iff in H. exact H.
Qed.

Lemma materializedFor_own tid now s d :
  materializedFor (series_id s) d (instanceOf tid now s d) = true.
Proof.
  unfold materializedFor, linkedTo; simpl.
  rewrite !String.eqb_refl. reflexivity.
Qed.

Lemma freshlyMade_earlier today now db db' s c t :
  tasks db' = tasks db ++ [instanceOf (newId (map task_id (tasks db))) now s c] ->
  freshlyMade today now db' s t ->
  freshlyMade today now db s t /\ task_dueDate t <> Some c.
Proof.
  intros E (tid & d & -> & Hle & Hm).
  destruct (@hasMaterialized_app_false db db' (series_id s) d _ E Hm)
    as (Hm0 & Hnew).
  split.
  - exists tid, d. auto.
  - simpl. intros X. injection X as ->.
    simpl in Hnew. rewrite materializedFor_own in Hnew. discriminate.
Qed.

(** The loop makes at most one instance a turn, each for a date at or
    before today that had no live instance, and no two for one date. *)
Lemma catchUp_new n today now s : forall db cursor,
  exists new,
    tasks (fst (catchUpFrom n today now s db cursor)) = tasks db ++ new
    /\ Forall (freshlyMade today now db s) new
    /\ NoDup (map task_dueDate new)
    /\ List.length new <= n.
Proof.
  induction n as [|n IH]; intros db cursor.
  - exists []. simpl. rewrite app_nil_r.
    repeat split; auto. constructor.
  - simpl. destruct (str_gtb cursor today) eqn:G.
    { exists []. simpl. rewrite app_nil_r.
      repeat split; auto; [constructor | lia]. }
    apply str_gtb_false in G.
    destruct (hasMaterializedDueDate db (series_id s) cursor) eqn:M.
    + (* already there: nothing is made this turn *)
      destruct (stalls cursor _).
      { exists []. simpl. rewrite app_nil_r.
        repeat split; auto; [constructor | lia]. }
      destruct (getNext cursor (series_recurrenceType s)
                  (series_recurrenceRule s)) as [n1|].
      * destruct (IH db n1) as (new & E & F & N & L).
        exists new. repeat split; auto.
      * exists []. simpl. rewrite app_nil_r.
        repeat split; auto; [constructor | lia].
    + set (made := instanceOf (newId (map task_id (tasks db))) now s cursor).
      assert (Hmade : freshlyMade today now db s made).
      { exists (newId (map task_id (tasks db))), cursor. auto. }
      assert (Hone : exists new,
                 tasks (materialize now db s cursor) = tasks db ++ new
                 /\ Forall (freshlyMade today now db s) new
                 /\ NoDup (map task_dueDate new)
                 /\ List.length new <= S n).
      { exists [made]. split; [apply materialize_tasks|].
        split; [constructor; [exact Hmade|constructor]|].
        split; [|simpl; lia].
        simpl. constructor; [intros []|constructor]. }
      destruct (stalls cursor _); [exact Hone|].
      destruct (getNext cursor (series_recurrenceType s)
                  (series_recurrenceRule s)) as [n1|]; [|exact Hone].
      destruct (IH (materialize now db s cursor) n1) as (new & E & F & N & L).
      exists (made :: new).
      split; [rewrite E, materialize_tasks, <- app_assoc; reflexivity|].
      assert (Hback : Forall (fun t => freshlyMade today now db s t
                                       /\ task_dueDate t <> Some cursor) new).
      { eapply Forall_impl; [|exact F]. intros t Ht.
        eapply freshlyMade_earlier; [apply materialize_tasks|exact Ht]. }
      split; [|split].
      * constructor; [exact Hmade|].
        eapply Forall_impl; [|exact Hback]. intros t Ht. apply Ht.
      * simpl. constructor; [|exact N].
        intros Hin. apply in_map_iff in Hin. destruct Hin as (t & Et & Hin).
        rewrite Forall_forall in Hback.
        destruct (Hback t Hin) as (_ & Hne). contradiction.
      * simpl. lia.
Qed.

(** One turn of the outer loop, for a series that is due. *)
Lemma syncOne_new today now db s :
  str_le (series_nextDueDate s) today ->
  exists new,
    tasks (syncOne today now db s) = tasks db ++ new
    /\ Forall (freshlyMade today now db s) new
    /\ NoDup (map task_dueDate new)
    /\ List.length new <= 500
    /\ (series_recurrenceBehavior s = after_completion ->
        List.length new <= 1).
Proof.
  intros Hdue. unfold syncSeries.
  destruct (series_recurrenceBehavior s) eqn:B.
  - destruct (hasOutstandingInstance db (series_id s)).
    { exists []. rewrite app_nil_r. simpl.
      repeat split; auto; try constructor; lia. }
    destruct (hasMaterializedDueDate db (series_id s) (series_nextDueDate s))
      eqn:M.
    { exists []. rewrite app_nil_r. simpl.
      repeat split; auto; try constructor; lia. }
    eexists. split; [apply materialize_tasks|].
    split; [|split; [|split]].
    + constructor; [|constructor]. eexists; eexists. eauto.
    + simpl. constructor; [intros []|constructor].
    + simpl. lia.
    + intros _. simpl. lia.
  - destruct (catchUp_new catchUpLimit today now s db (series_nextDueDate s))
      as (new & E & F & N & L).
    rewrite catchUpLimit_value in L.
    destruct (catchUpFrom catchUpLimit today now s db (series_nextDueDate s))
      as [db1 cursor]; cbn [fst snd] in *.
    exists new. split.
    { destruct (String.eqb cursor (series_nextDueDate s)); exact E. }
    repeat split; auto. discriminate.
Qed.

(** The loop over the due series: everything it appends was made for one
    of them, for a date at or before today. *)
Lemma sync_fold_new today now rows : forall db,
  Forall (fun s => str_le (series_nextDueDate s) today) rows ->
  exists new,
    tasks (fold_left (syncOne today now) rows db) = tasks db ++ new
    /\ Forall (fun t => exists s tid d,
                 In s rows /\ t = instanceOf tid now s d /\ str_le d today)
         new.
Proof.
  induction rows as [|s rows IH]; intros db Hall; simpl.
  - exists []. rewrite app_nil_r. auto.
  - inversion Hall as [|? ? Hs Hrest]; subst.
    destruct (IH (syncOne today now db s) Hrest) as (new2 & E2 & F2).
    destruct (@syncOne_new today now db s Hs) as (new1 & E1 & F1 & _).
    exists (new1 ++ new2). rewrite E2, E1, app_assoc.
    split; [reflexivity|]. apply Forall_app. split.
    + eapply Forall_impl; [|exact F1].
      intros t (tid & d & -> & Hle & _). exists s, tid, d. auto.
    + eapply Forall_impl; [|exact F2].
      intros t (s' & tid & d & Hin & -> & Hle). exists s', tid, d. auto.
Qed.

Lemma due_rows_are_due userId today l :
  Forall (fun s => str_le (series_nextDueDate s) today)
    (filter (isDueSeries userId today) l).
Proof.
  apply Forall_forall. intros s Hs. apply filter_In in Hs.
  destruct Hs as (_ & Hd). apply isDueSeries_spec in Hd. apply Hd.
Qed.

(** What a pass creates for one series id: nothing, or what the turn of
    the one due series with that id makes. *)
Lemma sync_created_for userId today now db sid :
  allocatesFresh newId ->
  uniqueSeriesIds db ->
  createdFor sid db (sync userId today now db) = []
  \/ exists s db1 pre,
       In s (recurrenceSeries (migrate userId today now db))
       /\ series_id s = sid
       /\ DueSeries userId today s
       /\ tasks db1 = tasks (migrate userId today now db) ++ pre
       /\ Forall (fun t => linkedTo sid t = false) pre
       /\ Forall (freshlyMade today now db1 s)
            (createdFor sid db (sync userId today now db))
       /\ NoDup (map task_dueDate
                   (createdFor sid db (sync userId today now db)))
       /\ List.length (createdFor sid db (sync userId today now db)) <= 500
       /\ (series_recurrenceBehavior s = after_completion ->
           List.length (createdFor sid db (sync userId today now db)) <= 1).
Proof.
  intros Hf Hu.
  destruct (createdFor sid db (sync userId today now db)) as [|t rest] eqn:C;
    [left; reflexivity|right].
  assert (Ht : In t (createdFor sid db (sync userId today now db)))
    by (rewrite C; left; reflexivity).
  unfold createdFor in Ht. apply filter_In in Ht. destruct Ht as (Ht & Hl).
  destruct (sync_created userId today now db) as (new & _ & E & F).
  rewrite E in Ht. rewrite Forall_forall in F.
  destruct (F t Ht) as (s & Hs & Hdue & Hinst).
  assert (Hid : series_id s = sid).
  { unfold linkedTo in Hl. rewrite (instance_linked Hinst) in Hl.
    simpl in Hl. apply String.eqb_eq in Hl. exact Hl. }
  destruct (In_nth_error _ _ Hs) as (i & Hi).
  destruct (@sync_split userId today now db s i Hf Hu Hi Hdue)
    as (db1 & pre & Et & Fp & _ & Hc & _).
  assert (Hle : str_le (series_nextDueDate s) today) by apply Hdue.
  destruct (@syncOne_new today now db1 s Hle)
    as (mine & Em & Fm & Nm & Lm & L1).
  assert (Hmine : createdTasks db1 (syncOne today now db1 s) = mine).
  { unfold createdTasks. rewrite Em. apply skipn_length_app. }
  rewrite <- C. subst sid. rewrite Hc, Hmine.
  exists s, db1, pre. repeat split; auto; apply Hdue.
Qed.

(** *** Further properties of a pass *)

Lemma migrate_not_legacy_nth userId today now db i t :
  uniqueTaskIds db ->
  nth_error (tasks db) i = Some t ->
  isLegacyRow userId t = false ->
  nth_error (tasks (migrate userId today now db)) i = Some t.
Proof.
  intros Hut Hi Hleg.
  apply migrate_fold_untouched; [|exact Hi].
  intros Hin. apply in_map_iff in Hin. destruct Hin as (r & Er & Hr).
  apply filter_In in Hr. destruct Hr as (Hr & Hlr).
  assert (r = t).
  { eapply NoDup_map_inj_in; [exact Hut|exact Hr| |exact Er].
    eapply nth_error_In; eauto. }
  subst r. congruence.
Qed.

Lemma sync_tasks_nth userId today now db i t :
  nth_error (tasks (migrate userId today now db)) i = Some t ->
  nth_error (tasks (sync userId today now db)) i = Some t.
Proof.
  intros Hi.
  destruct (sync_created userId today now db) as (new & E & _).
  rewrite E, nth_error_app1; [exact Hi|].
  apply nth_error_Some. congruence.
Qed.

Lemma sync_not_due_nth userId today now db i s :
  allocatesFresh newId ->
  uniqueSeriesIds db ->
  nth_error (recurrenceSeries (migrate userId today now db)) i = Some s ->
  isDueSeries userId today s = false ->
  nth_error (recurrenceSeries (sync userId today now db)) i = Some s.
Proof.
  intros Hf Hu Hi Hnd. unfold syncRecurrenceSeriesForUser.
  apply sync_fold_series_nth; [|exact Hi].
  intros r Hr E. apply filter_In in Hr. destruct Hr as (Hr & Hdue).
  assert (r = s).
  { eapply NoDup_map_inj_in; [|exact Hr| |exact E].
    - apply migrate_unique_series; assumption.
    - eapply nth_error_In; eauto. }
  subst r. congruence.
Qed.

Lemma created_not_materialized userId today now db sid x :
  allocatesFresh newId ->
  uniqueSeriesIds db ->
  In x (createdFor sid db (sync userId today now db)) ->
  exists d,
    task_dueDate x = Some d
    /\ str_le d today
    /\ hasMaterializedDueDate (migrate userId today now db) sid d = false.
Proof.
  intros Hf Hu Hx.
  destruct (@sync_created_for userId today now db sid Hf Hu)
    as [E|(s & db1 & pre & _ & Hid & _ & Et & _ & Fm & _)].
  - rewrite E in Hx. destruct Hx.
  - rewrite Forall_forall in Fm.
    destruct (Fm x Hx) as (tid & d & -> & Hle & Hm).
    exists d. split; [reflexivity|]. split; [exact Hle|].
    rewrite Hid in Hm.
    apply (@hasMaterialized_app_false _ db1 sid d pre Et Hm).
Qed.

(** X1. A pass creates at most 500 instances for any one series, and at
    most one for an [after_completion] series. *)
Theorem pass_creates_at_most_500_per_series userId today now db sid :
  allocatesFresh newId ->
  uniqueSeriesIds db ->
  List.length (createdFor sid db (sync userId today now db)) <= 500
  /\ (forall s, In s (recurrenceSeries (migrate userId today now db)) ->
        series_id s = sid ->
        series_recurrenceBehavior s = after_completion ->
        List.length (createdFor sid db (sync userId today now db)) <= 1).
Proof.
  intros Hf Hu.
  destruct (@sync_created_for userId today now db sid Hf Hu)
    as [E|(s' & db1 & pre & Hs' & Hid & _ & _ & _ & _ & _ & L & L1)].
  - rewrite E. simpl. split; [lia|]. intros; lia.
  - split; [exact L|]. intros s Hs Hsid Hb.
    assert (s' = s).
    { apply (@NoDup_map_inj_in _ _ series_id
               (recurrenceSeries (migrate userId today now db))); trivial.
      - apply migrate_unique_series; assumption.
      - congruence. }
    subst s'. apply L1. exact Hb.
Qed.

(** X2. A pass never materializes a date twice: the instances it creates
    for one series are due on pairwise different dates, none of which had
    a live instance of that series when the series loop started; for a
    series that was in the table before the pass, none had one before the
    pass either. *)
Theorem pass_never_materializes_a_date_twice userId today now db sid :
  allocatesFresh newId ->
  uniqueSeriesIds db ->
  NoDup (map task_dueDate (createdFor sid db (sync userId today now db)))
  /\ (forall x, In x (createdFor sid db (sync userId today now db)) ->
        exists d, task_dueDate x = Some d
                  /\ ~ MaterializedAt (migrate userId today now db) sid d)
  /\ (uniqueTaskIds db ->
      In sid (map series_id (recurrenceSeries db)) ->
      forall x, In x (createdFor sid db (sync userId today now db)) ->
        exists d, task_dueDate x = Some d /\ ~ MaterializedAt db sid d).
Proof.
  intros Hf Hu. split; [|split].
  - destruct (@sync_created_for userId today now db sid Hf Hu)
      as [E|(s & db1 & pre & _ & _ & _ & _ & _ & _ & N & _)].
    + rewrite E. constructor.
    + exact N.
  - intros x Hx.
    destruct (@created_not_materialized userId today now db sid x Hf Hu Hx)
      as (d & Ed & _ & Hm).
    exists d. split; [exact Ed|]. intros M.
    apply hasMaterialized_spec in M. congruence.
  - intros Hut Hsid x Hx.
    destruct (@created_not_materialized userId today now db sid x Hf Hu Hx)
      as (d & Ed & _ & Hm).
    exists d. split; [exact Ed|]. intros M.
    apply hasMaterialized_spec in M.
    rewrite (@hasMaterialized_view db (migrate userId today now db) sid d)
      in Hm.
    + congruence.
    + apply migrate_view; assumption.
Qed.

(** X3. Every instance a pass creates belongs to the user the pass runs
    for and is due on a date at or before today. *)
Theorem pass_creates_only_due_instances_of_the_user userId today now db t :
  In t (createdTasks db (sync userId today now db)) ->
  task_userId t = userId
  /\ task_deletedAt t = None
  /\ exists d, task_dueDate t = Some d /\ str_le d today.
Proof.
  intros Hin.
  destruct (sync_created userId today now db) as (new0 & E0 & C0 & _).
  unfold syncRecurrenceSeriesForUser in E0.
  destruct (@sync_fold_new today now
              (filter (isDueSeries userId today)
                 (recurrenceSeries (migrate userId today now db)))
              (migrate userId today now db)
              (due_rows_are_due userId today _)) as (new & E & F).
  rewrite E in E0. apply app_inv_head in E0. subst new0.
  rewrite C0 in Hin. rewrite Forall_forall in F.
  destruct (F t Hin) as (s & tid & d & Hs & -> & Hle).
  apply filter_In in Hs. destruct Hs as (_ & Hdue).
  apply isDueSeries_spec in Hdue. destruct Hdue as (Hu & _).
  simpl. split; [exact Hu|]. split; [reflexivity|]. exists d. auto.
Qed.

(** X4. A pass for one user leaves the rows of every other user as they
    are, tasks and series alike, and does not touch table [project]. *)
Theorem pass_leaves_other_users_rows userId today now db :
  allocatesFresh newId ->
  uniqueTaskIds db ->
  uniqueSeriesIds db ->
  (forall i t, nth_error (tasks db) i = Some t ->
     task_userId t <> userId ->
     nth_error (tasks (sync userId today now db)) i = Some t)
  /\ (forall i s, nth_error (recurrenceSeries db) i = Some s ->
        series_userId s <> userId ->
        nth_error (recurrenceSeries (sync userId today now db)) i = Some s)
  /\ projects (sync userId today now db) = projects db.
Proof.
  intros Hf Hut Hus. split; [|split].
  - intros i t Hi Hne. apply sync_tasks_nth.
    apply migrate_not_legacy_nth; trivial.
    destruct (isLegacyRow userId t) eqn:L; trivial.
    apply isLegacyRow_spec in L. destruct L as (L & _). contradiction.
  - intros i s Hi Hne. apply sync_not_due_nth; trivial.
    + apply migrate_series_nth. exact Hi.
    + destruct (isDueSeries userId today s) eqn:D; trivial.
      apply isDueSeries_spec in D. destruct D as (D & _). contradiction.
  - unfold syncRecurrenceSeriesForUser.
    set (rows := filter _ _). set (dbm := migrate userId today now db).
    assert (P : forall l d, projects (fold_left (syncOne today now) l d)
                            = projects d).
    { induction l as [|a l IH]; intros d; simpl; [reflexivity|].
      rewrite IH. apply syncOne_projects. }
    rewrite P. apply migrate_fold_projects.
Qed.

Lemma relinked_sameContent now t t' : relinked now t t' -> sameContent t t'.
Proof.
  intros [->|(sid & b & ->)]; unfold sameContent; simpl; repeat split.
Qed.

(** X5. A pass never removes a task and never changes what a task says:
    every task keeps its place, id, owner, project, title, description,
    status, priority, due date, deletion mark and creation stamp; a task
    that is not a legacy item of the user is not changed at all. *)
Theorem pass_keeps_existing_tasks userId today now db :
  (forall i t, nth_error (tasks db) i = Some t ->
     exists t', nth_error (tasks (sync userId today now db)) i = Some t'
                /\ sameContent t t')
  /\ List.length (tasks db) <= List.length (tasks (sync userId today now db))
  /\ (uniqueTaskIds db ->
      forall i t, nth_error (tasks db) i = Some t ->
        ~ LegacyItem userId t ->
        nth_error (tasks (sync userId today now db)) i = Some t).
Proof.
  split; [|split].
  - intros i t Hi.
    destruct (Forall2_nth_error i (migrate_relinked userId today now db) Hi)
      as (t' & Hi' & R).
    exists t'. split; [apply sync_tasks_nth; exact Hi'|].
    eapply relinked_sameContent; eauto.
  - destruct (sync_created userId today now db) as (new & E & _).
    rewrite E, length_app, migrate_tasks_length. lia.
  - intros Hut i t Hi Hn. apply sync_tasks_nth.
    apply migrate_not_legacy_nth; trivial.
    destruct (isLegacyRow userId t) eqn:L; trivial.
    apply isLegacyRow_spec in L. contradiction.
Qed.

Lemma materialize_unique now db s d :
  allocatesFresh newId ->
  uniqueTaskIds db -> uniqueTaskIds (materialize now db s d).
Proof.
  intros Hf Hu. unfold uniqueTaskIds in *.
  rewrite materialize_tasks, map_app. simpl.
  apply NoDup_snoc; [exact Hu | apply Hf].
Qed.

Lemma catchUp_unique n today now s : forall db cursor,
  allocatesFresh newId ->
  uniqueTaskIds db ->
  uniqueTaskIds (fst (catchUpFrom n today now s db cursor)).
Proof.
  induction n as [|n IH]; intros db cursor Hf Hu; simpl; [exact Hu|].
  destruct (str_gtb cursor today); [exact Hu|].
  assert (H1 : uniqueTaskIds
                 (if hasMaterializedDueDate db (series_id s) cursor then db
                  else materialize now db s cursor)).
  { destruct (hasMaterializedDueDate db (series_id s) cursor);
      [exact Hu | apply materialize_unique; assumption]. }
  destruct (stalls cursor _); [exact H1|].
  destruct (getNext cursor (series_recurrenceType s)
              (series_recurrenceRule s)); [|exact H1].
  apply IH; assumption.
Qed.

Lemma syncOne_unique today now db s :
  allocatesFresh newId ->
  uniqueTaskIds db -> uniqueTaskIds (syncOne today now db s).
Proof.
  intros Hf Hu. unfold syncSeries.
  destruct (series_recurrenceBehavior s).
  - destruct (hasOutstandingInstance db (series_id s)); [exact Hu|].
    destruct (hasMaterializedDueDate db (series_id s) (series_nextDueDate s));
      [exact Hu | apply materialize_unique; assumption].
  - pose proof (@catchUp_unique catchUpLimit today now s db
                  (series_nextDueDate s) Hf Hu) as H.
    destruct (catchUpFrom catchUpLimit today now s db (series_nextDueDate s))
      as [db1 cursor]; cbn [fst] in H.
    destruct (String.eqb cursor (series_nextDueDate s)); exact H.
Qed.

Lemma migrate_unique_tasks userId today now db :
  uniqueTaskIds db -> uniqueTaskIds (migrate userId today now db).
Proof.
  unfold uniqueTaskIds. intros Hut.
  rewrite (Forall2_map_eq task_id (l := tasks db)
             (l' := tasks (migrate userId today now db))
             (R := relinked now)); trivial.
  - intros x y. apply relinked_id.
  - apply migrate_relinked.
Qed.

Lemma sync_fold_unique today now rows : forall db,
  allocatesFresh newId ->
  uniqueTaskIds db -> uniqueSeriesIds db ->
  uniqueTaskIds (fold_left (syncOne today now) rows db)
  /\ uniqueSeriesIds (fold_left (syncOne today now) rows db).
Proof.
  induction rows as [|r rows IH]; intros d Hf Hm Hs; simpl; [auto|].
  apply IH; trivial.
  - apply syncOne_unique; assumption.
  - unfold uniqueSeriesIds. rewrite syncOne_series_ids. exact Hs.
Qed.

Lemma sync_unique_series userId today now db :
  allocatesFresh newId ->
  uniqueSeriesIds db -> uniqueSeriesIds (sync userId today now db).
Proof.
  intros Hf Hus.
  pose proof (migrate_unique_series userId today now Hf Hus) as Hs.
  unfold syncRecurrenceSeriesForUser.
  set (rows := filter _ _). clearbody rows.
  revert Hs. generalize (migrate userId today now db).
  induction rows as [|r rows IH]; intros d Hs; simpl; [auto|].
  apply IH. unfold uniqueSeriesIds. rewrite syncOne_series_ids. exact Hs.
Qed.

(** X6. A pass keeps primary keys: if no two tasks and no two series
    shared an id before, none do after, whatever it migrated and
    created. *)
Theorem pass_keeps_ids_unique userId today now db :
  allocatesFresh newId ->
  uniqueTaskIds db ->
  uniqueSeriesIds db ->
  uniqueTaskIds (sync userId today now db)
  /\ uniqueSeriesIds (sync userId today now db).
Proof.
  intros Hf Hut Hus.
  unfold syncRecurrenceSeriesForUser.
  apply sync_fold_unique; trivial.
  - apply migrate_unique_tasks; assumption.
  - apply migrate_unique_series; assumption.
Qed.

(** A series that is not due gets nothing. *)
Lemma sync_not_due_creates_nothing userId today now db s :
  allocatesFresh newId ->
  uniqueSeriesIds db ->
  In s (recurrenceSeries db) ->
  isDueSeries userId today s = false ->
  createdFor (series_id s) db (sync userId today now db) = [].
Proof.
  intros Hf Hu Hin Hb.
  destruct (In_nth_error _ _ Hin) as (i & Hi).
  pose proof (migrate_series_nth userId today now db i Hi) as Him.
  destruct (@sync_created_for userId today now db (series_id s) Hf Hu)
    as [E|(s' & _ & _ & Hs' & Hid & Hdue & _)]; [exact E|].
  exfalso. assert (s' = s).
  { eapply NoDup_map_inj_in; [|exact Hs'| |exact Hid].
    - apply migrate_unique_series; assumption.
    - eapply nth_error_In; eauto. }
  subst s'. apply isDueSeries_spec in Hdue. congruence.
Qed.

(** X7. A series the pass does not select (of another user, paused,
    soft-deleted, or not yet due) keeps its row as it is and gets no
    instance. *)
Theorem pass_skips_series_not_due userId today now db i s :
  allocatesFresh newId ->
  uniqueSeriesIds db ->
  nth_error (recurrenceSeries db) i = Some s ->
  ~ DueSeries userId today s ->
  nth_error (recurrenceSeries (sync userId today now db)) i = Some s
  /\ createdFor (series_id s) db (sync userId today now db) = [].
Proof.
  intros Hf Hu Hi Hnd.
  assert (Hb : isDueSeries userId today s = false).
  { destruct (isDueSeries userId today s) eqn:D; trivial.
    apply isDueSeries_spec in D. contradiction. }
  pose proof (migrate_series_nth userId today now db i Hi) as Him.
  split; [apply sync_not_due_nth; assumption|].
  apply sync_not_due_creates_nothing; trivial.
  eapply nth_error_In; eauto.
Qed.

Lemma advancedBy_sameButCursor today now h r r' :
  advancedBy getNext newId today now h r r' -> sameButCursor r r'.
Proof.
  intros [->|(_ & _ & db0 & ->)]; unfold sameButCursor; simpl;
    repeat split.
Qed.

(** The row a turn leaves for its own series is that series' row, up to
    [nextDueDate] and [updatedAt]. *)
Lemma syncOne_own_row today now db h r' :
  uniqueSeriesIds db ->
  In h (recurrenceSeries db) ->
  In r' (recurrenceSeries (syncOne today now db h)) ->
  series_id r' = series_id h ->
  sameButCursor h r'.
Proof.
  intros Hu Hh Hr' Hid.
  destruct (In_nth_error _ _ Hr') as (i & Hi').
  assert (Hlen : i < List.length (recurrenceSeries db)).
  { rewrite <- (length_map series_id), <- (syncOne_series_ids today now db h),
      length_map. apply nth_error_Some. congruence. }
  destruct (nth_error (recurrenceSeries db) i) as [r|] eqn:Hi;
    [|apply nth_error_None in Hi; lia].
  destruct (Forall2_nth_error i (syncOne_series today now db h) Hi)
    as (r2 & Hr2 & Hadv).
  rewrite Hi' in Hr2. injection Hr2 as <-.
  assert (r = h).
  { apply (@NoDup_map_inj_in _ _ series_id (recurrenceSeries db)); trivial.
    - eapply nth_error_In; eauto.
    - rewrite <- (advancedBy_id Hadv). exact Hid. }
  subst r. eapply advancedBy_sameButCursor; eauto.
Qed.

(** After a pass every [after_completion] row that is due is settled,
    whether or not the catch-up loops of other series ran out of turns. *)
Lemma sync_after_completion_settled userId today now db :
  allocatesFresh newId ->
  uniqueSeriesIds db ->
  forall r, In r (recurrenceSeries (sync userId today now db)) ->
            isDueSeries userId today r = true ->
            series_recurrenceBehavior r = after_completion ->
            settled getNext today (sync userId today now db) r.
Proof.
  intros Hf Hu.
  set (dbm := migrate userId today now db).
  set (due := filter (isDueSeries userId today) (recurrenceSeries dbm)).
  assert (H : (fun d rows =>
                 forall r, In r (recurrenceSeries d) ->
                           isDueSeries userId today r = true ->
                           series_recurrenceBehavior r = after_completion ->
                           settled getNext today d r \/ In r rows)
                (fold_left (syncOne today now) due dbm) []).
  { apply sync_fold_ind.
    - intros d h rows (Hud & Hnd & Hin) Hinv r Hr Hdue Hb.
      assert (Hh : In h (recurrenceSeries d)) by (apply Hin; left; reflexivity).
      destruct (String.eqb (series_id r) (series_id h)) eqn:E.
      + apply String.eqb_eq in E. left.
        pose proof (@syncOne_own_row today now d h r Hud Hh Hr E) as Hsame.
        eapply syncOne_settles; eauto.
        intros B. exfalso.
        destruct Hsame as (_ & _ & _ & _ & _ & _ & _ & Hbeh & _).
        congruence.
      + apply String.eqb_neq in E.
        pose proof (syncOne_series_back _ _ _ _ _ Hr E) as Hr0.
        destruct (Hinv r Hr0 Hdue Hb) as [S|[->|Hin']].
        * left. destruct (syncOne_tasks today now d h) as (new & Et & _).
          eapply settled_more_tasks; eauto.
        * contradiction.
        * right; exact Hin'.
    - apply pending_start. apply migrate_unique_series; assumption.
    - intros r Hr Hdue _. right. apply filter_In. split; assumption. }
  intros r Hr Hdue Hb. destruct (H r Hr Hdue Hb) as [S|[]]. exact S.
Qed.

(** X8. After a pass, every series of the user that is still due is
    served: an [after_completion] series has an open or in-progress live
    instance, or a live instance due on its [nextDueDate]; a
    [duplicate_on_schedule] series whose catch-up loops ended within
    their 500 turns has a live instance on its [nextDueDate] and a helper
    that does not lead on from there. *)
Theorem after_a_pass_due_series_are_served userId today now db r :
  allocatesFresh newId ->
  uniqueSeriesIds db ->
  In r (recurrenceSeries (sync userId today now db)) ->
  DueSeries userId today r ->
  (series_recurrenceBehavior r = after_completion ->
   Outstanding (sync userId today now db) (series_id r)
   \/ MaterializedAt (sync userId today now db) (series_id r)
        (series_nextDueDate r))
  /\ (series_recurrenceBehavior r = duplicate_on_schedule ->
      withinCatchUpLimit getNext userId today (migrate userId today now db)
      = true ->
      MaterializedAt (sync userId today now db) (series_id r)
        (series_nextDueDate r)
      /\ stalls (series_nextDueDate r)
           (getNext (series_nextDueDate r) (series_recurrenceType r)
              (series_recurrenceRule r)) = true).
Proof.
  intros Hf Hu Hr Hdue.
  pose proof Hdue as Hdb. apply isDueSeries_spec in Hdb.
  split.
  - intros Hb.
    pose proof (@sync_after_completion_settled userId today now db Hf Hu r
                  Hr Hdb Hb) as S.
    unfold settled in S. rewrite Hb in S.
    destruct S as [S|S]; [left; apply hasOutstanding_spec
                         |right; apply hasMaterialized_spec]; exact S.
  - intros Hb Hlim.
    pose proof (@sync_all_settled userId today now db Hf Hu Hlim r Hr Hdb)
      as S.
    unfold settled in S. rewrite Hb in S.
    destruct S as [S|(S1 & S2)].
    + exfalso. apply str_gtb_true in S.
      destruct Hdue as (_ & _ & _ & Hle).
      exact (str_lt_not_le S Hle).
    + split; [apply hasMaterialized_spec; exact S1 | exact S2].
Qed.

(** X9. A pass does not duplicate a legacy item it migrates: no instance
    it creates for the item's new series is due on the item's own due
    date. *)
Theorem pass_does_not_duplicate_migrated_item userId today now db i t d :
  allocatesFresh newId ->
  uniqueTaskIds db ->
  uniqueSeriesIds db ->
  nth_error (tasks db) i = Some t ->
  LegacyItem userId t ->
  task_dueDate t = Some d ->
  exists sid t',
    nth_error (tasks (sync userId today now db)) i = Some t'
    /\ task_recurrenceSeriesId t' = Some sid
    /\ task_dueDate t' = Some d
    /\ forall x, In x (createdFor sid db (sync userId today now db)) ->
                 task_dueDate x <> Some d.
Proof.
  intros Hf Hut Hus Hi Hleg Hd.
  pose proof Hleg as Hlb. apply isLegacyRow_spec in Hlb.
  destruct (@migrate_fold_links userId today now
              (filter (isLegacyRow userId) (tasks db)) db i t t)
    as (sid & _ & Hrow & _); trivial.
  { apply NoDup_map_filter. exact Hut. }
  { apply Forall_forall. intros r Hr. apply filter_In in Hr. apply Hr. }
  { apply filter_In. split; [eapply nth_error_In; eauto | exact Hlb]. }
  fold (migrate userId today now db) in Hrow.
  exists sid. eexists. split; [apply sync_tasks_nth; exact Hrow|].
  split; [reflexivity|]. split; [exact Hd|].
  intros x Hx Ex.
  destruct (@created_not_materialized userId today now db sid x Hf Hus Hx)
    as (d' & Ed' & _ & Hm).
  assert (d' = d) by congruence. subst d'.
  assert (M : MaterializedAt (migrate userId today now db) sid d).
  { eexists. split; [eapply nth_error_In; exact Hrow|].
    simpl. split; [reflexivity|]. split; [exact Hd|]. apply Hleg. }
  apply hasMaterialized_spec in M. congruence.
Qed.

(** X10. Migration turns a legacy item into a series that carries the
    item's owner, project, title, description, priority, kind, behavior
    and rule, is active and not deleted; the item keeps what it says and
    loses its inline recurrence, and [recurrenceProcessedAt] is stamped
    exactly when the item was done. *)
Theorem migration_copies_the_item userId today now db i t :
  allocatesFresh newId ->
  uniqueTaskIds db ->
  nth_error (tasks db) i = Some t ->
  LegacyItem userId t ->
  exists s t',
    nth_error (tasks (migrate userId today now db)) i = Some t'
    /\ In s (recurrenceSeries (migrate userId today now db))
    /\ task_recurrenceSeriesId t' = Some (series_id s)
    /\ series_userId s = task_userId t
    /\ series_projectId s = task_projectId t
    /\ series_title s = task_title t
    /\ series_description s = task_description t
    /\ series_priority s = task_priority t
    /\ series_recurrenceType s = task_recurrenceType t
    /\ series_recurrenceBehavior s = task_recurrenceBehavior t
    /\ series_recurrenceRule s = task_recurrenceRule t
    /\ series_active s = true
    /\ series_deletedAt s = None
    /\ sameContent t t'
    /\ task_recurrenceType t' = none
    /\ task_recurrenceBehavior t' = after_completion
    /\ task_recurrenceRule t' = None
    /\ (task_status t = done -> task_recurrenceProcessedAt t' = Some now)
    /\ (task_status t <> done -> task_recurrenceProcessedAt t' = None).
Proof.
  intros Hf Hut Hi Hleg.
  pose proof Hleg as Hlb. apply isLegacyRow_spec in Hlb.
  destruct (@migrate_fold_links userId today now
              (filter (isLegacyRow userId) (tasks db)) db i t t)
    as (sid & _ & Hrow & Hser); trivial.
  { apply NoDup_map_filter. exact Hut. }
  { apply Forall_forall. intros r Hr. apply filter_In in Hr. apply Hr. }
  { apply filter_In. split; [eapply nth_error_In; eauto | exact Hlb]. }
  eexists. eexists. split; [exact Hrow|]. split; [exact Hser|].
  simpl. repeat split.
  - intros ->. reflexivity.
  - intros Hn. destruct (task_status t); try reflexivity. contradiction.
Qed.

(** X11. For a done legacy item the new series never starts before today,
    nor before the item's due anchor, as long as the helper does not go
    back in time. *)
Theorem done_item_series_starts_no_earlier_than_today
  userId today now db i t :
  neverEarlier getNext ->
  allocatesFresh newId ->
  uniqueTaskIds db ->
  nth_error (tasks db) i = Some t ->
  LegacyItem userId t ->
  task_status t = done ->
  exists s t',
    nth_error (tasks (migrate userId today now db)) i = Some t'
    /\ In s (recurrenceSeries (migrate userId today now db))
    /\ task_recurrenceSeriesId t' = Some (series_id s)
    /\ str_le today (series_nextDueDate s)
    /\ str_le (dueAnchorOf today t) (series_nextDueDate s).
Proof.
  intros Hne Hf Hut Hi Hleg Hdone.
  pose proof Hleg as Hlb. apply isLegacyRow_spec in Hlb.
  destruct (@migrate_fold_links userId today now
              (filter (isLegacyRow userId) (tasks db)) db i t t)
    as (sid & _ & Hrow & Hser); trivial.
  { apply NoDup_map_filter. exact Hut. }
  { apply Forall_forall. intros r Hr. apply filter_In in Hr. apply Hr. }
  { apply filter_In. split; [eapply nth_error_In; eauto | exact Hlb]. }
  eexists. eexists. split; [exact Hrow|]. split; [exact Hser|].
  split; [reflexivity|].
  simpl. unfold legacyNextDueDate. rewrite Hdone.
  fold (dueAnchorOf today t).
  change (legacyCompletionAnchor today t)
    with (str_max (dueAnchorOf today t) today).
  assert (Hge : str_le (str_max (dueAnchorOf today t) today)
                  match getNext (str_max (dueAnchorOf today t) today)
                          (task_recurrenceType t) (task_recurrenceRule t) with
                  | Some next => next
                  | None => str_max (dueAnchorOf today t) today
                  end).
  { destruct (getNext _ _ _) eqn:E; [eapply Hne; eauto|apply str_le_refl]. }
  split; (eapply str_le_trans; [|exact Hge]);
    [apply str_max_ge_r | apply str_max_ge_l].
Qed.

(** X12. Once a pass has run, the rollover has nothing left to reopen for
    that user, whatever the day, as long as no task of the user carried
    both an inline recurrence kind and a series link. *)
Theorem rollover_after_pass_changes_nothing
  userId today now today' now' db :
  (forall t, In t (tasks db) -> task_userId t = userId ->
             task_recurrenceType t <> none ->
             task_recurrenceSeriesId t = None) ->
  releaseDueRecurringTasksForUser userId today' now'
    (sync userId today now db)
  = sync userId today now db.
Proof.
  intros Hplain.
  assert (Hnone : forall t, In t (tasks (sync userId today now db)) ->
                            rolloverDue userId today' t = false).
  { intros t Ht.
    destruct (rolloverDue userId today' t) eqn:R; trivial. exfalso.
    apply rolloverDue_spec in R.
    destruct R as (Ru & Rd & _ & Rt & _).
    destruct (sync_created userId today now db) as (new & E & _ & F).
    rewrite E, in_app_iff in Ht. destruct Ht as [Ht|Ht].
    - destruct (In_nth_error _ _ Ht) as (i & Hi).
      pose proof (migrate_relinked userId today now db) as F2.
      assert (Hlen : i < List.length (tasks db)).
      { rewrite (Forall2_length F2). apply nth_error_Some. congruence. }
      destruct (nth_error (tasks db) i) as [t0|] eqn:Hi0;
        [|apply nth_error_None in Hi0; lia].
      destruct (Forall2_nth_error i F2 Hi0) as (t1 & Hi1 & Rel).
      rewrite Hi in Hi1. injection Hi1 as <-.
      destruct Rel as [->|(sid & b & ->)].
      + assert (L : isLegacyRow userId t0 = true).
        { apply isLegacyRow_spec. repeat split; trivial.
          apply Hplain; trivial. eapply nth_error_In; eauto. }
        rewrite (migrate_no_legacy_left _ _ _ _ _ Ht) in L. discriminate.
      + apply Rt. reflexivity.
    - rewrite Forall_forall in F.
      destruct (F t Ht) as (s & _ & _ & tid & d & ->). apply Rt. reflexivity. }
  unfold releaseDueRecurringTasksForUser, updateTasksWhere.
  destruct (sync userId today now db) as [ts ss ps]; simpl in *.
  f_equal. rewrite <- (map_id ts) at 2. apply map_ext_in.
  intros t Ht. rewrite (Hnone t Ht). reflexivity.
Qed.

(** X13. [materializeSeries] and the two look-ups: after an instance is
    made for a series and a date, [hasMaterializedDueDate] finds exactly
    what it found before plus that series on that date, and
    [hasOutstandingInstance] exactly what it found before plus that
    series. *)
Theorem materialize_then_look_up now db series dueDate :
  (forall sid d,
     hasMaterializedDueDate (materialize now db series dueDate) sid d
     = hasMaterializedDueDate db sid d
       || (String.eqb (series_id series) sid && String.eqb dueDate d))
  /\ (forall sid,
        hasOutstandingInstance (materialize now db series dueDate) sid
        = hasOutstandingInstance db sid
          || String.eqb (series_id series) sid).
Proof.
  split.
  - intros sid d. unfold hasMaterializedDueDate.
    rewrite materialize_tasks, existsb_app. f_equal.
    simpl. unfold materializedFor, linkedTo; simpl.
    rewrite orb_false_r, andb_true_r. reflexivity.
  - intros sid. unfold hasOutstandingInstance.
    rewrite materialize_tasks, existsb_app. f_equal.
    simpl. unfold outstandingFor, linkedTo; simpl.
    rewrite orb_false_r, !andb_true_r. reflexivity.
Qed.

End EngineFacts.

(** ** Catching up a daily series, with the helper of the specification *)

Section DailyCatchUp.

Import IsoCalendar IsoCalendarFacts.

Variable newId : list string -> string.

Local Abbreviation sync :=
  (syncRecurrenceSeriesForUser getNextTaskRecurrenceDate newId).

Lemma addDays_add a : forall b d, addDays (a + b) d = addDays b (addDays a d).
Proof.
  induction a as [|a IH]; intros b d; simpl; [reflexivity|]. apply IH.
Qed.

Lemma addDays_succ_r n d : addDays (S n) d = nextDay (addDays n d).
Proof.
  replace (S n) with (n + 1) by lia. rewrite addDays_add. reflexivity.
Qed.

Lemma validDate_earlier d d' :
  calendarDate d -> dyear d <= dyear d' -> validDate d' = true ->
  validDate d = true.
Proof.
  intros (Hm & Hd) Hy Hv. apply validDate_iff in Hv.
  apply validDate_iff. repeat split; lia.
Qed.

Lemma validDate_addDays_le j k d :
  calendarDate d -> j <= k -> validDate (addDays k d) = true ->
  validDate (addDays j d) = true.
Proof.
  intros Hc Hjk Hv.
  apply validDate_earlier with (d' := addDays k d); trivial.
  - apply addDays_calendar. exact Hc.
  - replace k with (j + (k - j)) by lia. rewrite addDays_add.
    apply addDays_year.
Qed.

Lemma format_not_empty d : String.eqb (formatIsoDate d) "" = false.
Proof. reflexivity. Qed.

Lemma format_inj a b :
  validDate a = true -> validDate b = true ->
  formatIsoDate a = formatIsoDate b -> a = b.
Proof.
  intros Ha Hb E.
  apply parse_format in Ha, Hb. rewrite E in Ha. congruence.
Qed.

Lemma In_daysFrom x : forall k d,
  In x (daysFrom k d) -> exists j, j < k /\ x = formatIsoDate (addDays j d).
Proof.
  induction k as [|k IH]; intros d; simpl; [intros []|].
  intros [<-|H].
  - exists 0. split; [lia|reflexivity].
  - destruct (IH _ H) as (j & Hj & ->). exists (S j). split; [lia|reflexivity].
Qed.

Lemma daysFrom_length k : forall d, List.length (daysFrom k d) = k.
Proof. induction k as [|k IH]; intros d; simpl; [reflexivity|]. rewrite IH. reflexivity. Qed.

Lemma daysFrom_seq : forall k d,
  map Some (daysFrom k d)
  = map (fun j => Some (formatIsoDate (addDays j d))) (seq 0 k).
Proof.
  induction k as [|k IH]; intros d; [reflexivity|].
  change (daysFrom (S k) d) with (formatIsoDate d :: daysFrom k (nextDay d)).
  cbn [map seq]. rewrite IH, <- seq_shift, map_map. reflexivity.
Qed.

Lemma daysFrom_NoDup : forall k d,
  calendarDate d -> validDate (addDays k d) = true -> NoDup (daysFrom k d).
Proof.
  induction k as [|k IH]; intros d Hc Hv; simpl; constructor.
  - intros Hin. apply In_daysFrom in Hin. destruct Hin as (j & Hj & E).
    change (addDays j (nextDay d)) with (addDays (S j) d) in E.
    apply format_inj in E.
    + pose proof (@addDays_key (S j) d Hc) as Hk. rewrite <- E in Hk. lia.
    + apply (@validDate_addDays_le 0 (S k)); trivial. lia.
    + apply (@validDate_addDays_le (S j) (S k)); trivial. lia.
  - apply IH; [apply nextDay_calendar; exact Hc | exact Hv].
Qed.

(** From [d], day after day up to today [k] days later. *)
Lemma daily_visits s rule : forall k d,
  series_recurrenceType s = daily ->
  series_recurrenceRule s = rule ->
  calendarDate d ->
  validDate (addDays (S k) d) = true ->
  visits getNextTaskRecurrenceDate (formatIsoDate (addDays k d)) s
    (formatIsoDate d) (daysFrom (S k) d) (formatIsoDate (addDays (S k) d)).
Proof.
  induction k as [|k IH]; intros d Ht Hr Hc Hv.
  - change (addDays 1 d) with (nextDay d) in *.
    change (addDays 0 d) with d.
    change (daysFrom 1 d) with [formatIsoDate d].
    assert (Hvd : validDate d = true).
    { apply validDate_earlier with (d' := nextDay d); trivial.
      apply nextDay_year. }
    assert (Hlt : str_lt (formatIsoDate d) (formatIsoDate (nextDay d))).
    { apply format_lt; trivial. apply nextDay_key. exact Hc. }
    split; [reflexivity|]. split.
    { apply str_gtb_false. apply str_le_refl. }
    exists (formatIsoDate (nextDay d)). split.
    { rewrite Ht. apply getNext_daily; [apply parse_format|]; assumption. }
    split.
    { unfold stalls. rewrite format_not_empty, orb_false_l.
      apply String.eqb_neq. intros E. rewrite E in Hlt.
      exact (str_lt_irrefl Hlt). }
    split; [reflexivity|]. apply str_gtb_true. exact Hlt.
  - assert (Hvd : validDate d = true).
    { apply (@validDate_addDays_le 0 (S (S k))); trivial. lia. }
    assert (Hv1 : validDate (nextDay d) = true).
    { apply (@validDate_addDays_le 1 (S (S k))); trivial. lia. }
    assert (Hvt : validDate (addDays (S k) d) = true).
    { apply (@validDate_addDays_le (S k) (S (S k))); trivial. lia. }
    assert (Hlt : str_lt (formatIsoDate d) (formatIsoDate (nextDay d))).
    { apply format_lt; trivial. apply nextDay_key. exact Hc. }
    change (daysFrom (S (S k)) d)
      with (formatIsoDate d :: daysFrom (S k) (nextDay d)).
    split; [reflexivity|]. split.
    { apply str_gtb_false. apply format_le; trivial.
      pose proof (@addDays_key (S k) d Hc). lia. }
    exists (formatIsoDate (nextDay d)). split.
    { rewrite Ht. apply getNext_daily; [apply parse_format|]; assumption. }
    split.
    { unfold stalls. rewrite format_not_empty, orb_false_l.
      apply String.eqb_neq. intros E. rewrite E in Hlt.
      exact (str_lt_irrefl Hlt). }
    apply (IH (nextDay d)); trivial.
    apply nextDay_calendar. exact Hc.
Qed.

(** C2, as the code has it.  A [duplicate_on_schedule] series of the user
    with daily cadence, no instance yet and a [nextDueDate] exactly ten
    days before today: one pass creates eleven instances for it, one for
    each day from [nextDueDate] to today, both included, and moves its
    [nextDueDate] to the day after today. *)
Theorem daily_series_ten_days_behind userId today tomorrow now db s :
  allocatesFresh newId ->
  uniqueTaskIds db ->
  uniqueSeriesIds db ->
  In s (recurrenceSeries db) ->
  series_userId s = userId ->
  series_deletedAt s = None ->
  series_active s = true ->
  series_recurrenceBehavior s = duplicate_on_schedule ->
  series_recurrenceType s = daily ->
  isoAddDays 10 (series_nextDueDate s) = Some today ->
  isoAddDays 1 today = Some tomorrow ->
  (forall t, In t (tasks db) ->
             task_recurrenceSeriesId t <> Some (series_id s)) ->
  let created := createdFor (series_id s) db (sync userId today now db) in
  List.length created = 11
  /\ map task_dueDate created
     = map (fun k => isoAddDays k (series_nextDueDate s)) (seq 0 11)
  /\ exists i s',
       nth_error (recurrenceSeries db) i = Some s
       /\ nth_error (recurrenceSeries (sync userId today now db)) i = Some s'
       /\ series_id s' = series_id s
       /\ series_nextDueDate s' = tomorrow.
Proof.
  intros Hf Hut Hus Hin Hu Hdel Hact Hb Hty Hten Hone Hnone. cbv zeta.
  unfold isoAddDays in Hten.
  destruct (parseIsoDate (series_nextDueDate s)) as [d0|] eqn:P0;
    [|discriminate].
  destruct (validDate (addDays 10 d0)) eqn:V10; [|discriminate].
  assert (Htoday : formatIsoDate (addDays 10 d0) = today) by congruence.
  clear Hten.
  destruct (format_parse _ P0) as (F0 & V0).
  pose proof (validDate_calendar _ V0) as C0.
  unfold isoAddDays in Hone. rewrite <- Htoday in Hone.
  rewrite (parse_format _ V10) in Hone.
  rewrite <- (addDays_add 10 1 d0) in Hone.
  change (10 + 1) with 11 in Hone.
  destruct (validDate (addDays 11 d0)) eqn:V11; [|discriminate].
  assert (Htom : formatIsoDate (addDays 11 d0) = tomorrow) by congruence.
  clear Hone.
  assert (Hdue : DueSeries userId today s).
  { repeat split; trivial. rewrite <- F0, <- Htoday.
    apply format_le; trivial.
    pose proof (@addDays_key 10 d0 C0). lia. }
  assert (Hfin : tomorrow <> series_nextDueDate s).
  { rewrite <- Htom, <- F0. intros E. apply format_inj in E; trivial.
    pose proof (@addDays_key 11 d0 C0) as Hk. rewrite E in Hk. lia. }
  pose proof (@daily_visits s (series_recurrenceRule s) 10 d0 Hty eq_refl
                C0 V11) as Hv.
  rewrite Htoday, F0, Htom in Hv.
  destruct (@sync_catches_up getNextTaskRecurrenceDate newId userId today now
              db s (daysFrom 11 d0) tomorrow)
    as (Hdates & i & Hi & Hi'); trivial.
  { apply daysFrom_NoDup; trivial. }
  { rewrite daysFrom_length. lia. }
  split; [|split].
  - rewrite <- (length_map task_dueDate), Hdates, length_map.
    apply daysFrom_length.
  - rewrite Hdates. unfold isoAddDays. rewrite P0.
    assert (Hall : forall j, j <= 10 -> validDate (addDays j d0) = true).
    { intros j Hj. apply (@validDate_addDays_le j 10); trivial. }
    rewrite daysFrom_seq. apply map_ext_in.
    intros j Hj. apply in_seq in Hj.
    rewrite Hall by lia. reflexivity.
  - exists i. eexists. split; [exact Hi|]. split; [exact Hi'|].
    split; reflexivity.
Qed.

End DailyCatchUp.

(** ** Validation of custom rules at the route handlers *)

Module ApiFacts.

Import IsoCalendar Api.

Lemma unitOfName_other u :
  u <> "day" -> u <> "week" -> u <> "month" -> unitOfName u = None.
Proof.
  intros H1 H2 H3. unfold unitOfName.
  apply String.eqb_neq in H1, H2, H3. rewrite H1, H2, H3. reflexivity.
Qed.

Lemma interval_out_of_range n d :
  (n < 1 * Zpos d \/ n > 365 * Zpos d)%Z ->
  (Z.eqb (n mod Zpos d) 0)
  && (Z.leb 1 (n / Zpos d)) && (Z.leb (n / Zpos d) 365) = false.
Proof.
  intros H.
  destruct (Z.eqb_spec (n mod Zpos d) 0) as [E|]; [|reflexivity].
  pose proof (Z.div_mod n (Zpos d)) as Hdm.
  rewrite E in Hdm.
  assert (Hn : n = (Zpos d * (n / Zpos d))%Z) by lia.
  set (q := (n / Zpos d)%Z) in *.
  destruct (Z.leb_spec 1 q) as [H1|]; [|reflexivity].
  destruct (Z.leb_spec q 365) as [H2|]; [|reflexivity].
  exfalso. destruct H as [H|H]; nia.
Qed.

(** What the specification rules out, [parseTaskCustomRecurrenceRule]
    rejects. *)
Lemma outOfRange_not_parsed rule :
  outOfRange rule -> parseTaskCustomRecurrenceRule (Some rule) = None.
Proof.
  intros (members & -> & [(n & d & E & H)|(u & E & H1 & H2 & H3)]);
    unfold parseTaskCustomRecurrenceRule; rewrite E.
  - destruct (lookup "unit" members) as [[| | | | |]|]; trivial.
    rewrite interval_out_of_range by exact H. reflexivity.
  - destruct (lookup "interval" members) as [[| |n d| | |]|]; trivial.
    rewrite unitOfName_other by assumption.
    destruct (_ && _); reflexivity.
Qed.

Ltac reject_step :=
  match goal with
  | |- exists _, (if ?c then _ else _) = _ =>
      destruct c; [eexists; reflexivity|]
  | |- exists _ _, (if ?c then _ else _) = _ /\ _ =>
      destruct c; [eexists; eexists; split; [reflexivity|auto]|]
  end.

Lemma post_rejects_unparsed newId now userId body rule db :
  prop "recurrenceRule" body = Some rule ->
  rule <> JNull ->
  parseTaskCustomRecurrenceRule (Some rule) = None ->
  exists message,
    POST newId now userId body db = (errorResponse message 400, db).
Proof.
  intros Hp Hnn Hparse.
  destruct body as [| | | | |members]; try discriminate.
  unfold POST. cbv zeta. rewrite Hp.
  repeat reject_step.
  assert (Hset : negb (isUndefined (Some rule))
                 && negb (isNullValue (Some rule)) = true).
  { destruct rule; trivial. contradiction. }
  rewrite Hparse, Hset.
  destruct (seriesTypeOf (prop "recurrenceType" (JObj members)))
    as [[| | | |]|]; eexists; reflexivity.
Qed.

Lemma put_rejects_unparsed now userId id body rule db :
  prop "recurrenceRule" body = Some rule ->
  rule <> JNull ->
  parseTaskCustomRecurrenceRule (Some rule) = None ->
  exists message status,
    PUT now userId id body db = (errorResponse message status, db)
    /\ (status = 400 \/ status = 404)
    /\ (findSeries userId id db <> None -> status = 400).
Proof.
  intros Hp Hnn Hparse.
  destruct body as [| | | | |members]; try discriminate.
  unfold PUT. cbv zeta. rewrite Hp.
  repeat reject_step.
  destruct (findSeries userId id db) as [existing|].
  - reject_step.
    assert (Hnull : isNullValue (Some rule) = false).
    { destruct rule; trivial. contradiction. }
    cbn [isSome]. rewrite Hnull, Hparse.
    eexists; eexists; split; [reflexivity|auto].
  - eexists; eexists; split; [reflexivity|].
    split; [auto|]. intros H. contradiction.
Qed.

(** C9. A request whose [recurrenceRule] is an object with an interval
    outside 1..365, or with a unit other than day, week, month, is turned
    down by both handlers and the database is left as it was: creation
    answers 400; an update answers 400 when the series exists for the user
    (and 404 when it does not). *)
Theorem out_of_range_rule_is_rejected newId now userId id body rule db :
  prop "recurrenceRule" body = Some rule ->
  outOfRange rule ->
  (exists message,
     POST newId now userId body db = (errorResponse message 400, db))
  /\ (exists message status,
        PUT now userId id body db = (errorResponse message status, db)
        /\ (status = 400 \/ status = 404)
        /\ (findSeries userId id db <> None -> status = 400)).
Proof.
  intros Hp Hout.
  assert (Hnn : rule <> JNull).
  { destruct Hout as (members & -> & _). discriminate. }
  pose proof (outOfRange_not_parsed Hout) as Hparse.
  split.
  - eapply post_rejects_unparsed; eauto.
  - eapply put_rejects_unparsed; eauto.
Qed.

End ApiFacts.

(** ** The route handlers: what they write *)

Module HandlerFacts.

Import IsoCalendar Api.

Lemma seriesTypeOf_not_none v k : seriesTypeOf v = Some k -> k <> none.
Proof.
  destruct v as [[| | | s | |]|]; simpl; try discriminate.
  unfold seriesTypeOfName.
  repeat match goal with
         | |- context [if ?c then _ else _] => destruct c
         end; congruence.
Qed.

Lemma optionString_owned userId v db p :
  (negb (isUndefined v) && negb (isNullValue v)
   && negb (ownsProject userId (stringOf v) db)) = false ->
  optionString v = Some p -> ownsProject userId p db = true.
Proof.
  destruct v as [[| | | s | |]|]; simpl; try discriminate.
  intros H [= <-]. destruct (ownsProject userId s db); [reflexivity|discriminate].
Qed.

Lemma null_or_not (body : json) : body = JNull \/ body <> JNull.
Proof. destruct body; [left; reflexivity|right; discriminate..]. Qed.

Lemma not_null_branch {X} (body : json) (a r : X) :
  body <> JNull ->
  match body with JNull => a | _ => r end = r.
Proof. destruct body; congruence. Qed.

(** The ways [POST] ends: an error and nothing written, or one row
    appended. *)
Lemma POST_cases newId now userId body db (P : response * Db -> Prop) :
  P (typeError, db) ->
  (forall message, P (errorResponse message 400, db)) ->
  (forall kind rule,
     seriesTypeOf (prop "recurrenceType" body) = Some kind ->
     String.length (trim (stringOf (prop "title" body))) <> 0 ->
     matchesIsoPattern (stringOf (prop "nextDueDate" body)) = true ->
     (kind = custom ->
      exists parsed,
        parseTaskCustomRecurrenceRule (prop "recurrenceRule" body)
        = Some parsed
        /\ rule = Some (serializeTaskCustomRecurrenceRule parsed)) ->
     (kind <> custom -> rule = None) ->
     (forall p, optionString (prop "projectId" body) = Some p ->
                ownsProject userId p db = true) ->
     P (jsonResponse (Some (postedRow newId now userId body db kind rule)) 201,
        insertSeries (postedRow newId now userId body db kind rule) db)) ->
  P (POST newId now userId body db).
Proof.
  intros Htype Herr Hok.
  destruct (null_or_not body) as [->|Hn]; [exact Htype|].
  unfold POST. rewrite (not_null_branch _ _ Hn). cbv zeta beta.
  (destruct (_ || _ || (String.length _ =? 0)) eqn:E1; [apply Herr|]);
    (destruct (500 <? _) eqn:E2; [apply Herr|]);
    (destruct (negb (isUndefined (prop "description" _)) && _) eqn:E3;
       [apply Herr|]);
    (destruct (truthy (prop "description" _) && _) eqn:E4; [apply Herr|]);
    (destruct (negb (isUndefined (prop "priority" _)) && _) eqn:E5;
       [apply Herr|]);
    (destruct (negb (isUndefined (prop "projectId" _)) && _ && negb (isString _))
       eqn:E6; [apply Herr|]);
    (destruct (seriesTypeOf _) as [kind|] eqn:E7; [|apply Herr]);
    cbn [isSome negb];
    (destruct (negb (isUndefined (prop "recurrenceBehavior" _)) && _) eqn:E8;
       [apply Herr|]);
    (destruct (negb (truthy (prop "nextDueDate" _)) || _) eqn:E9;
       [apply Herr|]);
    (destruct (matchesIsoPattern _) eqn:E10; [|apply Herr]);
    cbn [negb];
    (destruct (negb (isUndefined (prop "active" _)) && _) eqn:E11;
       [apply Herr|]);
    (destruct (negb (isUndefined (prop "projectId" _)) && _
               && negb (ownsProject _ _ _)) eqn:E12; [apply Herr|]).
  assert (T : String.length (trim (stringOf (prop "title" _))) <> 0)
    by (apply orb_false_iff in E1; destruct E1 as (_ & E1);
        apply Nat.eqb_neq in E1; exact E1).
  pose proof (fun p => @optionString_owned _ _ _ p E12) as Q.
  destruct kind;
    [exfalso; exact (seriesTypeOf_not_none _ E7 eq_refl)
    | | | |
      destruct (parseTaskCustomRecurrenceRule _) as [parsed|] eqn:E13;
        [|apply Herr] ];
    try (destruct (negb (isUndefined (prop "recurrenceRule" _)) && _) eqn:E13;
           [apply Herr|]).
  all: apply Hok; trivial; try congruence.
  all: intros _; eexists; split; reflexivity.
Qed.


Lemma isSome_undefined (v : option json) : isUndefined v = negb (isSome v).
Proof. destruct v; reflexivity. Qed.

(** The ways [PUT] ends: an error and nothing written, or the rows with
    that id rewritten by [applyUpdates]. *)
Lemma PUT_cases now userId id body db (P : response * Db -> Prop) :
  P (typeError, db) ->
  (forall message status, P (errorResponse message status, db)) ->
  (forall existing nextType written,
     findSeries userId id db = Some existing ->
     (isSome (prop "recurrenceType" body) = true ->
      seriesTypeOf (prop "recurrenceType" body) = Some nextType) ->
     (isSome (prop "recurrenceType" body) = false ->
      nextType = series_recurrenceType existing) ->
     (isUndefined (prop "title" body) = false ->
      String.length (trim (stringOf (prop "title" body))) <> 0) ->
     (isUndefined (prop "nextDueDate" body) = false ->
      matchesIsoPattern (stringOf (prop "nextDueDate" body)) = true) ->
     (nextType = custom -> noRule written = false) ->
     (nextType <> custom ->
      isSome (prop "recurrenceType" body)
      || isSome (prop "recurrenceRule" body) = true ->
      written = None) ->
     (isSome (prop "recurrenceType" body)
      || isSome (prop "recurrenceRule" body) = false ->
      written = series_recurrenceRule existing) ->
     (forall p, optionString (prop "projectId" body) = Some p ->
                ownsProject userId p db = true) ->
     P (putResult now id body db nextType written)) ->
  P (PUT now userId id body db).
Proof.
  intros Htype Herr Hok.
  destruct (null_or_not body) as [->|Hn]; [exact Htype|].
  unfold PUT. rewrite (not_null_branch _ _ Hn). cbv zeta beta.
  (destruct (negb (isUndefined (prop "title" _)) && (_ || _)) eqn:E1;
     [apply Herr|]);
  (destruct (truthy (prop "title" _) && _) eqn:E2; [apply Herr|]);
  (destruct (negb (isUndefined (prop "description" _)) && _) eqn:E3;
     [apply Herr|]);
  (destruct (truthy (prop "description" _) && _) eqn:E4; [apply Herr|]);
  (destruct (negb (isUndefined (prop "priority" _)) && _) eqn:E5;
     [apply Herr|]);
  (destruct (negb (isUndefined (prop "projectId" _)) && _ && negb (isString _))
     eqn:E6; [apply Herr|]);
  (destruct (negb (isUndefined (prop "recurrenceType" _)) && _) eqn:E7;
     [apply Herr|]);
  (destruct (negb (isUndefined (prop "recurrenceBehavior" _)) && _) eqn:E8;
     [apply Herr|]);
  (destruct (negb (isUndefined (prop "nextDueDate" _)) && _) eqn:E9;
     [apply Herr|]);
  (destruct (isString (prop "nextDueDate" _) && _) eqn:E10; [apply Herr|]);
  (destruct (negb (isUndefined (prop "active" _)) && _) eqn:E11;
     [apply Herr|]);
  (destruct (findSeries userId id db) as [existing|] eqn:F; [|apply Herr]);
  (destruct (negb (isUndefined (prop "projectId" _)) && _
             && negb (ownsProject _ _ _)) eqn:E12; [apply Herr|]).
  assert (T : isUndefined (prop "title" body) = false ->
              String.length (trim (stringOf (prop "title" body))) <> 0).
  { intros U. rewrite U in E1. simpl in E1.
    apply orb_false_iff in E1. destruct E1 as (_ & E1).
    apply Nat.eqb_neq in E1. exact E1. }
  assert (D : isUndefined (prop "nextDueDate" body) = false ->
              matchesIsoPattern (stringOf (prop "nextDueDate" body)) = true).
  { intros U. rewrite U in E9. simpl in E9. apply negb_false_iff in E9.
    rewrite E9 in E10. simpl in E10. apply negb_false_iff in E10. exact E10. }
  pose proof (fun p => @optionString_owned _ _ _ p E12) as Q.
  clear E1 E2 E3 E4 E5 E6 E8 E9 E10 E11 E12.
  rewrite isSome_undefined, negb_involutive in E7.
  set (nextType := if isSome (prop "recurrenceType" body) then _ else _) in *.
  assert (N1 : isSome (prop "recurrenceType" body) = true ->
               seriesTypeOf (prop "recurrenceType" body) = Some nextType).
  { intros U. subst nextType. rewrite U in *. simpl in E7.
    destruct (seriesTypeOf _); [reflexivity|discriminate]. }
  assert (N2 : isSome (prop "recurrenceType" body) = false ->
               nextType = series_recurrenceType existing).
  { intros U. subst nextType. rewrite U. reflexivity. }
  clearbody nextType. clear E7.
  pose proof (Hok existing nextType) as Hok'. clear Hok.
  destruct (isSome (prop "recurrenceRule" body)) eqn:HR;
    [destruct (isNullValue (prop "recurrenceRule" body)) eqn:NR;
       [|destruct (parseTaskCustomRecurrenceRule _) as [parsed|];
           [|apply Herr]]|];
    cbn [andb negb];
    (destruct nextType eqn:K;
       [| | | |destruct (noRule _) eqn:NN; [apply Herr|]]);
    try apply Herr;
    try (destruct (isSome (prop "recurrenceType" body)) eqn:HT);
    try (apply Hok'; trivial; simpl; congruence).
Qed.


(** The ways [DELETE] ends. *)
Lemma DELETE_cases deletedNow updatedNow userId id db
  (P : reply bool * Db -> Prop) :
  P (failure "Recurrence series not found" 404, db) ->
  (forall existing,
     In existing (recurrenceSeries db) ->
     series_id existing = id ->
     series_userId existing = userId ->
     isSet (series_deletedAt existing) = false ->
     P (success true,
        mkDb (tasks db)
          (map (fun s => if String.eqb (series_id s) id
                         then mkSeries (series_id s) (series_userId s)
                                (series_projectId s) (series_title s)
                                (series_description s) (series_priority s)
                                (series_recurrenceType s)
                                (series_recurrenceBehavior s)
                                (series_recurrenceRule s)
                                (series_nextDueDate s) (series_active s)
                                (Some deletedNow) (series_createdAt s)
                                updatedNow
                         else s) (recurrenceSeries db))
          (projects db))) ->
  P (DELETE deletedNow updatedNow userId id db).
Proof.
  intros Hno Hok. unfold DELETE.
  destruct (find _ _) as [existing|] eqn:F; [|exact Hno].
  destruct (isSet _) eqn:S; [exact Hno|].
  apply find_some in F. destruct F as (Hin & Hb).
  apply andb_true_iff in Hb. destruct Hb as (H1 & H2).
  apply String.eqb_eq in H1, H2.
  apply (Hok existing); assumption.
Qed.

Lemma findSeries_none userId id db :
  (forall s, In s (recurrenceSeries db) -> series_id s = id ->
             series_userId s = userId -> series_deletedAt s <> None) ->
  findSeries userId id db = None.
Proof.
  intros H. unfold findSeries.
  destruct (find _ _) as [s|] eqn:F; [|reflexivity].
  apply find_some in F. destruct F as (Hin & Hb).
  apply andb_true_iff in Hb. destruct Hb as (Hb & H3).
  apply andb_true_iff in Hb. destruct Hb as (H1 & H2).
  apply String.eqb_eq in H1, H2. apply isNull_true in H3.
  exfalso. exact (H s Hin H1 H2 H3).
Qed.

Lemma findSeries_some userId id db s :
  findSeries userId id db = Some s ->
  In s (recurrenceSeries db) /\ series_id s = id
  /\ series_userId s = userId /\ series_deletedAt s = None.
Proof.
  unfold findSeries. intros F.
  apply find_some in F. destruct F as (Hin & Hb).
  apply andb_true_iff in Hb. destruct Hb as (Hb & H3).
  apply andb_true_iff in Hb. destruct Hb as (H1 & H2).
  apply String.eqb_eq in H1, H2. apply isNull_true in H3. auto.
Qed.

Lemma isSet_not_null v : isSet v = true -> v <> None.
Proof. destruct v; [discriminate|discriminate]. Qed.

(** A [PUT] that finds no row answers an error. *)
Lemma PUT_not_found now userId id body db :
  findSeries userId id db = None ->
  snd (PUT now userId id body db) = db
  /\ ~ succeeded (fst (PUT now userId id body db)).
Proof.
  intros F. apply PUT_cases.
  - split; [reflexivity|]. intros (row & st & E). discriminate.
  - intros m st. split; [reflexivity|]. intros (row & st' & E). discriminate.
  - intros existing nextType written F'. congruence.
Qed.

Lemma applyUpdates_identity body nextType written now s :
  sameIdentity s (applyUpdates body nextType written now s)
  /\ series_updatedAt (applyUpdates body nextType written now s) = now.
Proof. unfold sameIdentity. simpl. auto. Qed.

Lemma changedOnly_map id change (f : Series -> Series) rows :
  (forall s, series_id s = id -> change s (f s)) ->
  changedOnly id change rows
    (map (fun s => if String.eqb (series_id s) id then f s else s) rows).
Proof.
  intros H. unfold changedOnly.
  induction rows as [|r rows IH]; simpl; constructor; [|exact IH].
  destruct (String.eqb (series_id r) id) eqn:E; [|reflexivity].
  apply H. apply String.eqb_eq. exact E.
Qed.

Lemma map_ids_same id (f : Series -> Series) rows :
  (forall s, series_id (f s) = series_id s) ->
  map series_id
    (map (fun s => if String.eqb (series_id s) id then f s else s) rows)
  = map series_id rows.
Proof.
  intros H. rewrite map_map. apply map_ext.
  intros s. destruct (String.eqb (series_id s) id); [apply H|reflexivity].
Qed.

Lemma find_by_id_unique id rows s :
  NoDup (map series_id rows) -> In s rows -> series_id s = id ->
  find (fun r => String.eqb (series_id r) id) rows = Some s.
Proof.
  intros Hnd Hin Hid.
  destruct (find _ rows) as [r|] eqn:F.
  - apply find_some in F. destruct F as (Hr & Hb).
    apply String.eqb_eq in Hb. f_equal.
    eapply NoDup_map_inj_in; eauto. congruence.
  - exfalso. pose proof (find_none _ _ F s Hin) as Hb. simpl in Hb.
    apply String.eqb_neq in Hb. contradiction.
Qed.

(** X14. The three writing handlers validate before they write: a
    request that is answered with an error leaves the three tables as
    they were. *)
Theorem handlers_write_nothing_on_error
  newId now later userId id body db :
  (snd (POST newId now userId body db) = db
   \/ succeeded (fst (POST newId now userId body db)))
  /\ (snd (PUT now userId id body db) = db
      \/ succeeded (fst (PUT now userId id body db)))
  /\ (snd (DELETE now later userId id db) = db
      \/ fst (DELETE now later userId id db) = success true).
Proof.
  split; [|split].
  - apply POST_cases.
    + left; reflexivity.
    + intros m. left; reflexivity.
    + intros. right. eexists. eexists. reflexivity.
  - apply PUT_cases.
    + left; reflexivity.
    + intros m st. left; reflexivity.
    + intros. right. eexists. eexists. reflexivity.
  - apply DELETE_cases.
    + left; reflexivity.
    + intros. right. reflexivity.
Qed.

(** X15. A [POST] that succeeds answers 201 with the one row it
    appended: a fresh id, owned by the caller, not deleted, stamped with
    the clock, a non-empty trimmed title, a project of the caller if any,
    and well formed: a kind other than [none], an ISO-shaped
    [nextDueDate], a rule exactly when the kind is [custom].  The tasks
    and projects are not touched. *)
Theorem post_appends_one_wellformed_series newId now userId body db :
  succeeded (fst (POST newId now userId body db)) ->
  exists created,
    POST newId now userId body db
    = (jsonResponse (Some created) 201, insertSeries created db)
    /\ series_id created = newId (map series_id (recurrenceSeries db))
    /\ series_userId created = userId
    /\ series_deletedAt created = None
    /\ series_createdAt created = now
    /\ series_updatedAt created = now
    /\ series_title created = trim (stringOf (prop "title" body))
    /\ series_title created <> ""
    /\ series_nextDueDate created = stringOf (prop "nextDueDate" body)
    /\ wellFormed created
    /\ (forall p, series_projectId created = Some p ->
                  ownsProject userId p db = true)
    /\ (allocatesFresh newId -> uniqueSeriesIds db ->
        uniqueSeriesIds (snd (POST newId now userId body db))).
Proof.
  apply POST_cases.
  - intros (row & st & E). discriminate.
  - intros m (row & st & E). discriminate.
  - intros kind rule K T D C N Q _.
    eexists. split; [reflexivity|]. simpl.
    repeat split; trivial.
    + intros E. rewrite E in T. apply T. reflexivity.
    + eapply seriesTypeOf_not_none; eauto.
    + intros Ek. destruct (C Ek) as (parsed & _ & ->). reflexivity.
    + intros Hf Hu. unfold uniqueSeriesIds in *. simpl.
      rewrite map_app. simpl. apply NoDup_snoc; [exact Hu|apply Hf].
Qed.

(** X16. A series that is not a live series of the caller is out of
    reach: when every row with that id belongs to someone else or is
    marked deleted, [PUT] and [DELETE] answer an error and leave the
    tables as they were. *)
Theorem foreign_or_deleted_series_is_out_of_reach
  now later userId id body db :
  (forall s, In s (recurrenceSeries db) -> series_id s = id ->
             series_userId s = userId ->
             isSet (series_deletedAt s) = true) ->
  snd (PUT now userId id body db) = db
  /\ ~ succeeded (fst (PUT now userId id body db))
  /\ DELETE now later userId id db
     = (failure "Recurrence series not found" 404, db).
Proof.
  intros H.
  destruct (@PUT_not_found now userId id body db) as (P1 & P2).
  { apply findSeries_none. intros s Hin Hid Hu.
    apply isSet_not_null. apply H; assumption. }
  split; [exact P1|]. split; [exact P2|].
  apply DELETE_cases; [reflexivity|].
  intros existing Hin Hid Hu Hs. rewrite (H existing Hin Hid Hu) in Hs.
  discriminate.
Qed.

(** X17. A [PUT] that succeeds rewrites only rows of table
    [recurrence_series] with the id it was given, and there never the
    id, the owner, the deletion mark or the creation stamp; it stamps
    [updatedAt], leaves tasks and projects alone, and, ids being unique,
    answers 200 with the caller's updated live row. *)
Theorem put_rewrites_only_the_named_series now userId id body db :
  succeeded (fst (PUT now userId id body db)) ->
  tasks (snd (PUT now userId id body db)) = tasks db
  /\ projects (snd (PUT now userId id body db)) = projects db
  /\ changedOnly id
       (fun s s' => sameIdentity s s' /\ series_updatedAt s' = now)
       (recurrenceSeries db)
       (recurrenceSeries (snd (PUT now userId id body db)))
  /\ (uniqueSeriesIds db ->
      exists existing updated,
        findSeries userId id db = Some existing
        /\ fst (PUT now userId id body db) = jsonResponse (Some updated) 200
        /\ In updated (recurrenceSeries (snd (PUT now userId id body db)))
        /\ sameIdentity existing updated
        /\ series_userId updated = userId
        /\ series_deletedAt updated = None).
Proof.
  apply PUT_cases.
  - intros (row & st & E). discriminate.
  - intros m st (row & st' & E). discriminate.
  - intros existing nextType written F _ _ _ _ _ _ _ _ _.
    unfold putResult. cbn [fst snd]. unfold updateSeriesWhere.
    cbn [tasks projects recurrenceSeries].
    split; [reflexivity|]. split; [reflexivity|].
    split; [apply changedOnly_map; intros; apply applyUpdates_identity|].
    intros Hu. destruct (findSeries_some _ _ _ F) as (Hin & Hid & Huser & Hdel).
    exists existing, (applyUpdates body nextType written now existing).
    split; [exact F|]. split; [|split; [|split; [|split]]].
    + f_equal. apply find_by_id_unique.
      * rewrite map_ids_same; [exact Hu|reflexivity].
      * apply in_map_iff. exists existing. split; [|exact Hin].
        rewrite <- Hid, String.eqb_refl. reflexivity.
      * exact Hid.
    + apply in_map_iff. exists existing. split; [|exact Hin].
      rewrite <- Hid, String.eqb_refl. reflexivity.
    + apply applyUpdates_identity.
    + exact Huser.
    + exact Hdel.
Qed.

Lemma applyUpdates_wellFormed body nextType written now existing :
  wellFormed existing ->
  (isSome (prop "recurrenceType" body) = true ->
   seriesTypeOf (prop "recurrenceType" body) = Some nextType) ->
  (isSome (prop "recurrenceType" body) = false ->
   nextType = series_recurrenceType existing) ->
  (isUndefined (prop "nextDueDate" body) = false ->
   matchesIsoPattern (stringOf (prop "nextDueDate" body)) = true) ->
  (nextType = custom -> noRule written = false) ->
  (nextType <> custom ->
   isSome (prop "recurrenceType" body)
   || isSome (prop "recurrenceRule" body) = true ->
   written = None) ->
  (isSome (prop "recurrenceType" body)
   || isSome (prop "recurrenceRule" body) = false ->
   written = series_recurrenceRule existing) ->
  wellFormed (applyUpdates body nextType written now existing).
Proof.
  intros (W1 & W2 & W3 & W4) N1 N2 D C1 C2 C3.
  unfold wellFormed, applyUpdates. cbn [series_recurrenceType
    series_nextDueDate series_recurrenceRule].
  split; [|split; [|split]].
  - destruct (isSome (prop "recurrenceType" body));
      [eapply seriesTypeOf_not_none; eauto | exact W1].
  - destruct (isUndefined (prop "nextDueDate" body)); auto.
  - destruct (isSome (prop "recurrenceType" body)) eqn:HT;
      destruct (isSome (prop "recurrenceRule" body)) eqn:HR;
      cbn [orb] in *; intros E; auto;
      try (apply C1; rewrite (N2 eq_refl); exact E).
  - destruct (isSome (prop "recurrenceType" body)) eqn:HT;
      destruct (isSome (prop "recurrenceRule" body)) eqn:HR;
      cbn [orb] in *; intros E; auto;
      try (apply C2; [rewrite (N2 eq_refl); exact E|reflexivity]).
Qed.

(** X18. The handlers keep the table well formed and its ids unique: if
    every series has a kind other than [none], an ISO-shaped
    [nextDueDate] and a rule exactly when its kind is [custom], and no
    two series share an id, the same holds after a [POST], a [PUT] or a
    [DELETE], whatever the request and its outcome. *)
Theorem handlers_keep_series_wellformed
  newId now later userId id body db :
  allocatesFresh newId ->
  uniqueSeriesIds db ->
  Forall wellFormed (recurrenceSeries db) ->
  (uniqueSeriesIds (snd (POST newId now userId body db))
   /\ Forall wellFormed (recurrenceSeries (snd (POST newId now userId body db))))
  /\ (uniqueSeriesIds (snd (PUT now userId id body db))
      /\ Forall wellFormed
           (recurrenceSeries (snd (PUT now userId id body db))))
  /\ (uniqueSeriesIds (snd (DELETE now later userId id db))
      /\ Forall wellFormed
           (recurrenceSeries (snd (DELETE now later userId id db)))).
Proof.
  intros Hf Hu Hw. split; [|split].
  - apply POST_cases; try (intros; split; assumption).
    intros kind rule K T D C N Q. cbn [snd]. unfold insertSeries.
    unfold uniqueSeriesIds. cbn [recurrenceSeries]. split.
    + rewrite map_app. simpl. apply NoDup_snoc; [exact Hu|apply Hf].
    + apply Forall_app. split; [exact Hw|]. constructor; [|constructor].
      unfold wellFormed. simpl. repeat split; trivial.
      * eapply seriesTypeOf_not_none; eauto.
      * intros Ek. destruct (C Ek) as (parsed & _ & ->). reflexivity.
  - apply PUT_cases; try (intros; split; assumption).
    intros existing nextType written F N1 N2 _ D C1 C2 C3 _.
    unfold putResult. cbn [snd]. unfold updateSeriesWhere, uniqueSeriesIds.
    cbn [recurrenceSeries]. split.
    + rewrite map_ids_same; [exact Hu|reflexivity].
    + destruct (findSeries_some _ _ _ F) as (Hin & Hid & _).
      apply Forall_forall. intros r Hr. apply in_map_iff in Hr.
      destruct Hr as (s & <- & Hs).
      rewrite Forall_forall in Hw.
      destruct (String.eqb (series_id s) id) eqn:E; [|auto].
      apply String.eqb_eq in E.
      assert (s = existing).
      { eapply NoDup_map_inj_in; eauto. congruence. }
      subst s. apply applyUpdates_wellFormed; auto.
  - apply DELETE_cases; [split; assumption|].
    intros existing Hin Hid Huser Hs. cbn [snd].
    unfold uniqueSeriesIds. cbn [recurrenceSeries]. split.
    + rewrite map_ids_same; [exact Hu|reflexivity].
    + apply Forall_forall. intros r Hr. apply in_map_iff in Hr.
      destruct Hr as (s & <- & Hs').
      rewrite Forall_forall in Hw.
      destruct (String.eqb (series_id s) id); [|auto].
      exact (Hw s Hs').
Qed.

(** X19. A [DELETE] that succeeds only marks: the rows with that id get
    [deletedAt] and [updatedAt] and keep everything else, no row is
    removed, and tasks and projects are left alone.  From then on the
    series is out of reach: a [PUT] on it fails and writes nothing, and
    so does a second [DELETE]. *)
Theorem delete_only_marks_the_series
  deletedNow updatedNow userId id db :
  fst (DELETE deletedNow updatedNow userId id db) = success true ->
  deletedNow <> "" ->
  let db' := snd (DELETE deletedNow updatedNow userId id db) in
  tasks db' = tasks db
  /\ projects db' = projects db
  /\ changedOnly id (softDeleted deletedNow updatedNow)
       (recurrenceSeries db) (recurrenceSeries db')
  /\ (exists s, In s (recurrenceSeries db) /\ series_id s = id
                /\ series_userId s = userId)
  /\ (forall now body,
        snd (PUT now userId id body db') = db'
        /\ ~ succeeded (fst (PUT now userId id body db')))
  /\ (forall now later,
        DELETE now later userId id db'
        = (failure "Recurrence series not found" 404, db')).
Proof.
  intros Hok Hne. cbv zeta. revert Hok.
  apply DELETE_cases; [discriminate|].
  intros existing Hin Hid Huser Hs _. cbn [snd tasks projects recurrenceSeries].
  split; [reflexivity|]. split; [reflexivity|].
  split; [apply changedOnly_map; intros; reflexivity|].
  split; [eauto|].
  set (db' := mkDb _ _ _).
  assert (Hdel : forall s, In s (recurrenceSeries db') -> series_id s = id ->
                           series_deletedAt s = Some deletedNow).
  { intros s Hs' Hid'. subst db'. cbn [recurrenceSeries] in Hs'.
    apply in_map_iff in Hs'. destruct Hs' as (r & <- & Hr).
    destruct (String.eqb (series_id r) id) eqn:E; [reflexivity|].
    apply String.eqb_neq in E. contradiction. }
  split.
  - intros now body. apply PUT_not_found. apply findSeries_none.
    intros s Hs' Hid' _. rewrite (Hdel s Hs' Hid'). discriminate.
  - intros now later. apply DELETE_cases; [reflexivity|].
    intros s Hs' Hid' _ Hset. rewrite (Hdel s Hs' Hid') in Hset.
    simpl in Hset. apply negb_false_iff in Hset.
    apply String.eqb_eq in Hset. contradiction.
Qed.

End HandlerFacts.

(** ** Listing, pausing and deleting, with the pass that follows *)

Module ListingFacts.

Import IsoCalendar Api HandlerFacts.

Lemma str_leb_total a b : str_leb a b = false -> str_le b a.
Proof.
  intros H. apply str_lt_le. apply str_gtb_true.
  unfold str_gtb, str_leb in *. rewrite H. reflexivity.
Qed.

Lemma insertByUpdatedAt_perm s rows :
  Permutation (insertByUpdatedAt s rows) (s :: rows).
Proof.
  induction rows as [|r rows IH]; simpl; [apply Permutation_refl|].
  destruct (str_leb _ _); [apply Permutation_refl|].
  eapply Permutation_trans; [apply perm_skip; exact IH|apply perm_swap].
Qed.

Lemma orderByUpdatedAtDesc_perm rows :
  Permutation (orderByUpdatedAtDesc rows) rows.
Proof.
  induction rows as [|r rows IH]; simpl; [constructor|].
  eapply Permutation_trans; [apply insertByUpdatedAt_perm|].
  apply perm_skip. exact IH.
Qed.

Lemma insertByUpdatedAt_sorted s rows :
  Sorted newestFirst rows -> Sorted newestFirst (insertByUpdatedAt s rows).
Proof.
  induction rows as [|r rows IH]; intros Hs; simpl.
  - constructor; constructor.
  - destruct (str_leb (series_updatedAt r) (series_updatedAt s)) eqn:E.
    + constructor; [exact Hs|]. constructor. exact E.
    + inversion Hs as [|? ? Hrest Hhd]; subst.
      constructor; [apply IH; exact Hrest|].
      apply str_leb_total in E.
      destruct rows as [|r2 rows]; simpl.
      * constructor. exact E.
      * destruct (str_leb (series_updatedAt r2) (series_updatedAt s)).
        -- constructor. exact E.
        -- inversion Hhd; subst. constructor. assumption.
Qed.

Lemma orderByUpdatedAtDesc_sorted rows :
  StronglySorted newestFirst (orderByUpdatedAtDesc rows).
Proof.
  apply Sorted_StronglySorted.
  - intros a b c Hab Hbc. unfold newestFirst in *.
    eapply str_le_trans; eauto.
  - induction rows as [|r rows IH]; simpl; [constructor|].
    apply insertByUpdatedAt_sorted. exact IH.
Qed.

(** X20. [GET] runs one pass and then lists exactly the caller's series
    that are not deleted, as they are after that pass, each once, the
    most recently updated first. *)
Theorem get_lists_the_callers_live_series
  getNext newId now userId today db :
  exists rows,
    GET getNext newId now userId today db
    = (success rows,
       syncRecurrenceSeriesForUser getNext newId userId today now db)
    /\ Permutation rows
         (filter (listedFor userId)
            (recurrenceSeries
               (syncRecurrenceSeriesForUser getNext newId userId today now
                  db)))
    /\ StronglySorted newestFirst rows
    /\ (forall s, In s rows <->
                  In s (recurrenceSeries
                          (syncRecurrenceSeriesForUser getNext newId userId
                             today now db))
                  /\ series_userId s = userId
                  /\ series_deletedAt s = None).
Proof.
  eexists. split; [reflexivity|].
  split; [apply orderByUpdatedAtDesc_perm|].
  split; [apply orderByUpdatedAtDesc_sorted|].
  intros s. split.
  - intros Hin.
    apply (Permutation_in _ (orderByUpdatedAtDesc_perm _)) in Hin.
    apply filter_In in Hin. destruct Hin as (Hin & Hb).
    apply andb_true_iff in Hb. destruct Hb as (H1 & H2).
    apply String.eqb_eq in H1. apply isNull_true in H2. auto.
  - intros (Hin & H1 & H2).
    apply (Permutation_in _ (Permutation_sym (orderByUpdatedAtDesc_perm _))).
    apply filter_In. split; [exact Hin|].
    unfold listedFor. rewrite H1, H2, String.eqb_refl. reflexivity.
Qed.

(** A series that is marked deleted, paused or of another user stays as
    it is through a pass, and is the only row with its id afterwards. *)
Lemma skipped_series_after_pass getNext newId userId today now db s r :
  allocatesFresh newId ->
  uniqueSeriesIds db ->
  In s (recurrenceSeries db) ->
  isDueSeries userId today s = false ->
  In r (recurrenceSeries
          (syncRecurrenceSeriesForUser getNext newId userId today now db)) ->
  series_id r = series_id s ->
  r = s.
Proof.
  intros Hf Hu Hin Hnd Hr Hid.
  destruct (In_nth_error _ _ Hin) as (i & Hi).
  pose proof (migrate_series_nth getNext newId userId today now db i Hi)
    as Him.
  pose proof (@sync_not_due_nth getNext newId userId today now db i s Hf Hu
                Him Hnd) as His.
  eapply NoDup_map_inj_in; [|exact Hr| |exact Hid].
  - apply sync_unique_series; assumption.
  - eapply nth_error_In; eauto.
Qed.

(** X21. A deleted series is gone for good: after a [DELETE] that
    succeeded, no later [GET], by whichever user, lists a series with
    that id, and the pass that [GET] runs creates no instance for it. *)
Theorem deleted_series_is_neither_listed_nor_materialized
  getNext newId deletedNow updatedNow userId id db caller now today :
  allocatesFresh newId ->
  uniqueSeriesIds db ->
  fst (DELETE deletedNow updatedNow userId id db) = success true ->
  let db' := snd (DELETE deletedNow updatedNow userId id db) in
  exists rows,
    fst (GET getNext newId now caller today db') = success rows
    /\ (forall s, In s rows -> series_id s <> id)
    /\ createdFor id db' (snd (GET getNext newId now caller today db')) = [].
Proof.
  intros Hf Hu Hok. cbv zeta.
  revert Hok. apply DELETE_cases; [discriminate|].
  intros existing Hin Hid Huser Hs _. cbn [snd]. set (db' := mkDb _ _ _).
  assert (Hu' : uniqueSeriesIds db').
  { unfold uniqueSeriesIds. unfold db'. cbn [recurrenceSeries].
    rewrite map_ids_same; [exact Hu|reflexivity]. }
  set (gone := mkSeries (series_id existing) (series_userId existing)
                 (series_projectId existing) (series_title existing)
                 (series_description existing) (series_priority existing)
                 (series_recurrenceType existing)
                 (series_recurrenceBehavior existing)
                 (series_recurrenceRule existing)
                 (series_nextDueDate existing) (series_active existing)
                 (Some deletedNow) (series_createdAt existing) updatedNow).
  assert (Hg : In gone (recurrenceSeries db')).
  { unfold db'. cbn [recurrenceSeries]. apply in_map_iff.
    exists existing. split; [|exact Hin].
    destruct (String.eqb (series_id existing) id) eqn:E; [reflexivity|].
    apply String.eqb_neq in E. contradiction. }
  assert (Hnd : isDueSeries caller today gone = false).
  { unfold isDueSeries. unfold gone. cbn [series_deletedAt isNull].
    rewrite andb_false_r. reflexivity. }
  assert (Hgid : series_id gone = id) by exact Hid.
  eexists. split; [reflexivity|]. split.
  - intros s Hs' E.
    apply (Permutation_in _ (orderByUpdatedAtDesc_perm _)) in Hs'.
    apply filter_In in Hs'. destruct Hs' as (Hs' & Hb).
    apply andb_true_iff in Hb. destruct Hb as (_ & H2).
    assert (s = gone).
    { eapply skipped_series_after_pass; eauto. congruence. }
    subst s. discriminate.
  - cbn [snd GET]. rewrite <- Hgid.
    apply sync_not_due_creates_nothing; assumption.
Qed.

Lemma applyUpdates_toggle entry nextType written now s :
  series_recurrenceRule
    (applyUpdates (toggleActiveBody entry) nextType written now s)
  = series_recurrenceRule s
  /\ applyUpdates (toggleActiveBody entry) nextType written now s
     = withActive (negb (series_active entry)) now s.
Proof. split; reflexivity. Qed.

(** X22. Pausing and resuming from the recurring-tasks page: the request
    [{ active: !entry.active }] on a live series of the caller whose
    rule fits its kind is answered 200 with that row, where only
    [active] and [updatedAt] changed; nothing else in the tables
    changes.  Once paused, the series gets no instance from any later
    pass. *)
Theorem pausing_a_series_stops_it
  getNext newId now userId id db entry existing :
  allocatesFresh newId ->
  uniqueSeriesIds db ->
  findSeries userId id db = Some existing ->
  (series_recurrenceType existing = custom ->
   noRule (series_recurrenceRule existing) = false) ->
  let db' := snd (PUT now userId id (toggleActiveBody entry) db) in
  fst (PUT now userId id (toggleActiveBody entry) db)
  = jsonResponse
      (Some (withActive (negb (series_active entry)) now existing)) 200
  /\ tasks db' = tasks db
  /\ projects db' = projects db
  /\ changedOnly id
       (fun s s' => s' = withActive (negb (series_active entry)) now s)
       (recurrenceSeries db) (recurrenceSeries db')
  /\ (series_active entry = true ->
      forall caller today later,
        createdFor id db'
          (syncRecurrenceSeriesForUser getNext newId caller today later db')
        = []).
Proof.
  intros Hf Hu F Hrule. cbv zeta.
  destruct (findSeries_some _ _ _ F) as (Hin & Hid & Huser & Hdel).
  assert (E : PUT now userId id (toggleActiveBody entry) db
              = putResult now id (toggleActiveBody entry) db
                  (series_recurrenceType existing)
                  (series_recurrenceRule existing)).
  { unfold PUT, toggleActiveBody.
    cbv beta iota zeta delta [prop lookup String.eqb Ascii.eqb Bool.eqb
      isUndefined isNullValue isString isBoolean truthy negb andb orb isSome
      priorityOf seriesTypeOf behaviorOf stringOf].
    rewrite F.
    destruct (series_recurrenceType existing) eqn:K; try reflexivity.
    rewrite (Hrule eq_refl). reflexivity. }
  rewrite E. unfold putResult, updateSeriesWhere.
  cbn [fst snd tasks projects recurrenceSeries].
  set (rows := map _ (recurrenceSeries db)).
  assert (Hrows : rows
                  = map (fun s => if String.eqb (series_id s) id
                                  then withActive (negb (series_active entry))
                                         now s
                                  else s) (recurrenceSeries db)).
  { unfold rows. apply map_ext. intros s.
    destruct (String.eqb (series_id s) id); [|reflexivity].
    apply applyUpdates_toggle. }
  assert (Hids : map series_id rows = map series_id (recurrenceSeries db)).
  { rewrite Hrows. apply map_ids_same. reflexivity. }
  assert (Hmine : In (withActive (negb (series_active entry)) now existing)
                    rows).
  { rewrite Hrows. apply in_map_iff. exists existing. split; [|exact Hin].
    destruct (String.eqb (series_id existing) id) eqn:B; [reflexivity|].
    apply String.eqb_neq in B. contradiction. }
  split; [|split; [reflexivity|split; [reflexivity|split]]].
  - f_equal. apply find_by_id_unique; [rewrite Hids; exact Hu|exact Hmine|].
    exact Hid.
  - rewrite Hrows. apply changedOnly_map. reflexivity.
  - intros Hact caller today later.
    set (db' := mkDb _ rows _).
    assert (Hu' : uniqueSeriesIds db')
      by (unfold uniqueSeriesIds, db'; cbn [recurrenceSeries];
          rewrite Hids; exact Hu).
    change id with (series_id (withActive (negb (series_active entry)) now
                                 existing)) at 1 || rewrite <- Hid.
    change (series_id existing)
      with (series_id (withActive (negb (series_active entry)) now existing)).
    apply sync_not_due_creates_nothing; trivial.
    unfold isDueSeries. cbn [series_active]. rewrite Hact. cbn [negb].
    rewrite andb_false_r. reflexivity.
Qed.

End ListingFacts.

(** ** The client side *)

Module ClientFacts.

Import Client.

Section PreviewFacts.

Variable describe : TaskRecurrenceType -> option string -> string.
Variable getNext :
  string -> TaskRecurrenceType -> option string -> option string.
Variable onOrAfter :
  string -> TaskRecurrenceType -> option string -> string -> option string.

Local Abbreviation preview :=
  (getTaskRecurrencePreview describe getNext onOrAfter).



Lemma previewAnchor_ge today t : str_le today (previewAnchor today t).
Proof.
  unfold previewAnchor.
  destruct (task_dueDate t) as [d|]; [|apply str_le_refl].
  destruct (present (Some d)); cbn [andb]; [|apply str_le_refl].
  destruct (str_gtb d today) eqn:G; [|apply str_le_refl].
  apply str_lt_le. apply str_gtb_true. exact G.
Qed.


(** X24. The preview of an [after_completion] task never promises a
    date before today, whatever the task's due date, as long as the
    helper does not go back in time. *)
Theorem preview_is_never_in_the_past today t n :
  neverEarlier getNext ->
  task_recurrenceBehavior t = after_completion ->
  next (preview today t) = Some n ->
  str_le today n.
Proof.
  intros Hne Hb. unfold getTaskRecurrencePreview. rewrite Hb. cbn [next].
  intros E. eapply str_le_trans; [apply previewAnchor_ge|].
  eapply Hne. exact E.
Qed.

End PreviewFacts.

(** *** The task list *)

Lemma setStatus_ids id st l : map task_id (setStatus id st l) = map task_id l.
Proof.
  unfold setStatus. rewrite map_map. apply map_ext.
  intros t. destruct (String.eqb (task_id t) id); reflexivity.
Qed.

Lemma setStatus_nth id st l i t :
  nth_error l i = Some t ->
  nth_error (setStatus id st l) i
  = Some (if String.eqb (task_id t) id then task_withStatus st t else t).
Proof.
  intros H. unfold setStatus. rewrite nth_error_map, H. reflexivity.
Qed.

Lemma task_withStatus_same t : task_withStatus (task_status t) t = t.
Proof. destruct t; reflexivity. Qed.

Lemma setStatus_click l task st :
  NoDup (map task_id l) ->
  In task l ->
  forall i t, nth_error l i = Some t ->
    nth_error (setStatus (task_id task) st l) i
    = Some (if String.eqb (task_id t) (task_id task)
            then task_withStatus st task else t).
Proof.
  intros Hnd Hin i t Hi. rewrite (@setStatus_nth _ st _ _ _ Hi).
  destruct (String.eqb (task_id t) (task_id task)) eqn:E; [|reflexivity].
  apply String.eqb_eq in E.
  assert (t = task).
  { eapply NoDup_map_inj_in; eauto. eapply nth_error_In; eauto. }
  subst t. reflexivity.
Qed.

Lemma nth_error_ext {A} (l l' : list A) :
  (forall i, nth_error l i = nth_error l' i) -> l = l'.
Proof.
  revert l'. induction l as [|a l IH]; intros [|b l'] H.
  - reflexivity.
  - specialize (H 0). discriminate.
  - specialize (H 0). discriminate.
  - pose proof (H 0) as H0. simpl in H0. injection H0 as ->.
    f_equal. apply IH. intros i. exact (H (S i)).
Qed.

Lemma setStatus_back l task st :
  NoDup (map task_id l) ->
  In task l ->
  setStatus (task_id task) (task_status task)
    (setStatus (task_id task) st l) = l.
Proof.
  intros Hnd Hin. apply nth_error_ext. intros i.
  destruct (nth_error l i) as [t|] eqn:Hi.
  - rewrite (@setStatus_nth _ _ _ _ _ (@setStatus_click l task st Hnd Hin _ _ Hi)).
    destruct (String.eqb (task_id t) (task_id task)) eqn:E.
    + cbn [task_withStatus task_id]. rewrite String.eqb_refl.
      apply String.eqb_eq in E.
      assert (t = task).
      { eapply NoDup_map_inj_in; eauto. eapply nth_error_In; eauto. }
      subst t. f_equal. destruct task; reflexivity.
    + rewrite E. reflexivity.
  - unfold setStatus. rewrite !nth_error_map, Hi. reflexivity.
Qed.

(** X25. The status button of the task list: with unique ids, a click
    whose request fails leaves the list exactly as it was; a click whose
    request succeeds moves that one task to the next status and changes
    nothing else. *)
Theorem status_toggle_is_all_or_nothing tasks task :
  NoDup (map task_id tasks) ->
  In task tasks ->
  handleStatusToggle false task tasks = tasks
  /\ (forall i t, nth_error tasks i = Some t ->
        nth_error (handleStatusToggle true task tasks) i
        = Some (if String.eqb (task_id t) (task_id task)
                then task_withStatus (nextStatus (task_status task)) task
                else t))
  /\ List.length (handleStatusToggle true task tasks) = List.length tasks.
Proof.
  intros Hnd Hin. unfold handleStatusToggle. cbv zeta.
  split; [apply setStatus_back; assumption|].
  split; [apply setStatus_click; assumption|].
  unfold setStatus. apply length_map.
Qed.

(** X26. Three successful clicks on the status button of a task bring
    the list back to where it was: open, in progress, done, open. *)
Theorem three_clicks_come_back tasks task :
  NoDup (map task_id tasks) ->
  In task tasks ->
  let once := task_withStatus (nextStatus (task_status task)) task in
  let twice := task_withStatus (nextStatus (task_status once)) once in
  handleStatusToggle true twice
    (handleStatusToggle true once
       (handleStatusToggle true task tasks)) = tasks.
Proof.
  intros Hnd Hin. cbv zeta. unfold handleStatusToggle. cbv zeta.
  cbn [task_status task_id task_withStatus].
  apply nth_error_ext. intros i.
  destruct (nth_error tasks i) as [t|] eqn:Hi.
  - rewrite (@setStatus_nth _ _ _ _ _
               (@setStatus_nth _ _ _ _ _
                  (@setStatus_click tasks task _ Hnd Hin _ _ Hi))).
    destruct (String.eqb (task_id t) (task_id task)) eqn:E.
    + cbn [task_withStatus task_id]. rewrite String.eqb_refl.
      cbn [task_withStatus task_id]. rewrite String.eqb_refl.
      apply String.eqb_eq in E.
      assert (t = task).
      { eapply NoDup_map_inj_in; eauto. eapply nth_error_In; eauto. }
      subst t. f_equal. destruct task as [? ? ? ? ? st ? ? ? ? ? ? ? ? ? ?].
      destruct st; reflexivity.
    + rewrite E, E. reflexivity.
  - unfold setStatus. rewrite !nth_error_map, Hi. reflexivity.
Qed.

End ClientFacts.

(** ** The worked examples *)

Module ExampleFacts.

Import IsoCalendar IsoCalendarFacts Api ApiFacts Examples.

Ltac distinct_ids :=
  repeat (constructor; [simpl; intuition discriminate|]); constructor.

(** *** C1 *)

(** C1 fails on the code.  A daily [duplicate_on_schedule] series left
    alone since 2022-12-01 is 528 dates behind on 2024-05-11: the first pass
    stops at its 500th turn, and a second pass right after it creates the
    28 instances that were left. *)
Lemma sync_twice_beyond_limit :
  let first := sync clock longNeglected in
  let second := sync later first in
  List.length (createdTasks longNeglected first) = 500
  /\ List.length (createdTasks first second) = 28
  /\ createdTasks first second <> [].
Proof.
  cbv zeta.
  assert (H : (List.length (createdTasks longNeglected
                              (sync clock longNeglected)),
               List.length (createdTasks (sync clock longNeglected)
                              (sync later (sync clock longNeglected))))
              = (500, 28)) by (vm_compute; reflexivity).
  pose proof (f_equal fst H) as H1. pose proof (f_equal snd H) as H2.
  cbn [fst snd] in H1, H2. clear H.
  split; [exact H1|]. split; [exact H2|].
  intros E. rewrite E in H2. clear E H1. discriminate H2.
Qed.

Lemma sync_twice_within_limit_witness :
  allocatesFresh padId
  /\ uniqueSeriesIds tenDaysBehind
  /\ withinCatchUpLimit getNextTaskRecurrenceDate alice today
       (migrate clock tenDaysBehind) = true
  /\ sync later (sync clock tenDaysBehind) = sync clock tenDaysBehind
  /\ createdTasks (sync clock tenDaysBehind)
       (sync later (sync clock tenDaysBehind)) = [].
Proof.
  assert (Hu : uniqueSeriesIds tenDaysBehind) by (unfold uniqueSeriesIds; distinct_ids).
  assert (Hl : withinCatchUpLimit getNextTaskRecurrenceDate alice today
                 (migrate clock tenDaysBehind) = true)
    by (vm_compute; reflexivity).
  split; [exact padId_fresh|]. split; [exact Hu|]. split; [exact Hl|].
  exact (@sync_twice_within_limit getNextTaskRecurrenceDate padId alice today
           clock later tenDaysBehind padId_fresh Hu Hl).
Defined.

(** *** C2 *)

(** C2 fails on the code.  With [nextDueDate] 2024-05-01 and today
    2024-05-11, ten days later, one pass creates eleven instances, not
    ten. *)
Lemma ten_days_behind_makes_eleven :
  isoAddDays 10 "2024-05-01" = Some today
  /\ List.length (createdFor "series-plants" tenDaysBehind
                    (sync clock tenDaysBehind)) = 11
  /\ List.length (createdFor "series-plants" tenDaysBehind
                    (sync clock tenDaysBehind)) <> 10.
Proof.
  assert (H : List.length (createdFor "series-plants" tenDaysBehind
                             (sync clock tenDaysBehind)) = 11)
    by (vm_compute; reflexivity).
  split; [vm_compute; reflexivity|]. split; [exact H|].
  rewrite H. clear H. discriminate.
Qed.

Lemma daily_series_ten_days_behind_witness :
  isoAddDays 10 "2024-05-01" = Some today
  /\ isoAddDays 1 today = Some "2024-05-12"
  /\ List.length (createdFor "series-plants" tenDaysBehind
                    (sync clock tenDaysBehind)) = 11
  /\ map task_dueDate (createdFor "series-plants" tenDaysBehind
                         (sync clock tenDaysBehind))
     = map (fun k => isoAddDays k "2024-05-01") (seq 0 11)
  /\ exists i s',
       nth_error (recurrenceSeries tenDaysBehind) i
       = Some (plants duplicate_on_schedule "2024-05-01")
       /\ nth_error (recurrenceSeries (sync clock tenDaysBehind)) i = Some s'
       /\ series_id s' = "series-plants"
       /\ series_nextDueDate s' = "2024-05-12".
Proof.
  assert (H10 : isoAddDays 10 "2024-05-01" = Some today)
    by (vm_compute; reflexivity).
  assert (H1 : isoAddDays 1 today = Some "2024-05-12")
    by (vm_compute; reflexivity).
  split; [exact H10|]. split; [exact H1|].
  apply (@daily_series_ten_days_behind padId alice today "2024-05-12" clock
           tenDaysBehind (plants duplicate_on_schedule "2024-05-01")).
  - exact padId_fresh.
  - unfold uniqueTaskIds. distinct_ids.
  - unfold uniqueSeriesIds. distinct_ids.
  - left; reflexivity.
  - reflexivity.
  - reflexivity.
  - reflexivity.
  - reflexivity.
  - reflexivity.
  - exact H10.
  - exact H1.
  - intros t [].
Defined.

(** *** C3 *)

(** C3 fails on the code.  An open instance of the series exists, but it
    is soft-deleted; the look-up skips it and the pass creates a new
    instance. *)
Lemma binned_instance_does_not_block :
  (exists t, In t (tasks withBinnedInstance)
             /\ task_recurrenceSeriesId t = Some "series-plants"
             /\ task_status t <> done)
  /\ createdFor "series-plants" withBinnedInstance
       (sync clock withBinnedInstance) <> [].
Proof.
  split.
  - exists binnedInstance. split; [left; reflexivity|].
    split; [reflexivity|discriminate].
  - vm_compute. discriminate.
Qed.

Lemma after_completion_materializes_once_witness :
  DueSeries alice today (plants after_completion today)
  /\ (Outstanding dueToday "series-plants" ->
      createdFor "series-plants" dueToday (sync clock dueToday) = [])
  /\ (~ Outstanding dueToday "series-plants" ->
      ~ MaterializedAt dueToday "series-plants" today ->
      exists t,
        createdFor "series-plants" dueToday (sync clock dueToday) = [t]
        /\ task_status t = open
        /\ task_dueDate t = Some today
        /\ task_title t = "Water the plants"
        /\ task_description t = None
        /\ task_priority t = medium
        /\ task_projectId t = None
        /\ task_recurrenceSeriesId t = Some "series-plants").
Proof.
  assert (Hd : DueSeries alice today (plants after_completion today))
    by (repeat split; reflexivity).
  split; [exact Hd|].
  apply (@after_completion_materializes_once getNextTaskRecurrenceDate padId
           alice today clock dueToday (plants after_completion today)).
  - exact padId_fresh.
  - unfold uniqueTaskIds. distinct_ids.
  - unfold uniqueSeriesIds. distinct_ids.
  - left; reflexivity.
  - exact Hd.
  - reflexivity.
Defined.

(** *** C4 *)

Lemma migration_series_next_due_date_witness :
  LegacyItem alice legacyReport
  /\ exists sid s t',
       nth_error (tasks (migrate clock legacyDb)) 0 = Some t'
       /\ task_recurrenceSeriesId t' = Some sid
       /\ In s (recurrenceSeries (migrate clock legacyDb))
       /\ series_id s = sid
       /\ ~ In sid (map series_id (recurrenceSeries legacyDb))
       /\ (forall s', In s' (recurrenceSeries (migrate clock legacyDb)) ->
                      series_id s' = sid -> s' = s)
       /\ (task_status legacyReport = done ->
           series_nextDueDate s
           = match getNextTaskRecurrenceDate
                     (str_max (dueAnchorOf today legacyReport) today)
                     (task_recurrenceType legacyReport)
                     (task_recurrenceRule legacyReport) with
             | Some next => next
             | None => str_max (dueAnchorOf today legacyReport) today
             end)
       /\ (task_status legacyReport <> done ->
           series_nextDueDate s = dueAnchorOf today legacyReport)
       /\ createdTasks legacyDb (migrate clock legacyDb) = [].
Proof.
  assert (Hl : LegacyItem alice legacyReport)
    by (repeat split; discriminate).
  split; [exact Hl|].
  apply (@migration_series_next_due_date getNextTaskRecurrenceDate padId
           alice today clock legacyDb 0 legacyReport).
  - exact padId_fresh.
  - unfold uniqueTaskIds. distinct_ids.
  - unfold uniqueSeriesIds. distinct_ids.
  - reflexivity.
  - exact Hl.
Defined.

(** The example of the specification: the series starts on 2024-05-01, the
    item is linked with its inline fields cleared, and no task is added. *)
Example legacy_report_migrated :
  map series_nextDueDate (recurrenceSeries (migrate clock legacyDb))
  = ["2024-05-01"]
  /\ map task_recurrenceSeriesId (tasks (migrate clock legacyDb))
     = map (fun s => Some (series_id s))
         (recurrenceSeries (migrate clock legacyDb))
  /\ map task_recurrenceType (tasks (migrate clock legacyDb)) = [none]
  /\ map task_recurrenceRule (tasks (migrate clock legacyDb)) = [None]
  /\ createdTasks legacyDb (sync clock legacyDb) = [].
Proof. vm_compute. repeat split. Qed.

(** *** C6, C7 *)

Lemma next_due_date_never_regresses_witness :
  neverEarlier getNextTaskRecurrenceDate
  /\ (forall i s, nth_error (recurrenceSeries tenDaysBehind) i = Some s ->
        exists s',
          nth_error (recurrenceSeries (sync clock tenDaysBehind)) i = Some s'
          /\ series_id s' = series_id s
          /\ str_le (series_nextDueDate s) (series_nextDueDate s'))
  /\ (forall i s,
        nth_error (recurrenceSeries (migrate clock tenDaysBehind)) i
        = Some s ->
        exists s',
          nth_error (recurrenceSeries (sync clock tenDaysBehind)) i = Some s'
          /\ series_id s' = series_id s
          /\ str_le (series_nextDueDate s) (series_nextDueDate s')).
Proof.
  split; [exact getNext_neverEarlier|].
  apply (@next_due_date_never_regresses getNextTaskRecurrenceDate padId
           alice today clock tenDaysBehind).
  - exact getNext_neverEarlier.
  - exact padId_fresh.
  - unfold uniqueSeriesIds. distinct_ids.
Defined.

Lemma after_completion_row_untouched_witness :
  uniqueSeriesIds dueToday
  /\ (forall i s, nth_error (recurrenceSeries dueToday) i = Some s ->
        series_recurrenceBehavior s = after_completion ->
        nth_error (recurrenceSeries (sync clock dueToday)) i = Some s)
  /\ (forall i s,
        nth_error (recurrenceSeries (migrate clock dueToday)) i = Some s ->
        series_recurrenceBehavior s = after_completion ->
        nth_error (recurrenceSeries (sync clock dueToday)) i = Some s).
Proof.
  assert (Hu : uniqueSeriesIds dueToday)
    by (unfold uniqueSeriesIds; distinct_ids).
  split; [exact Hu|].
  exact (@after_completion_row_untouched getNextTaskRecurrenceDate padId
           alice today clock dueToday padId_fresh Hu).
Defined.

(** *** C9 *)

Lemma out_of_range_rule_is_rejected_witness :
  outOfRange every400Days
  /\ (exists message,
        POST padId clock alice backupsBody dueToday
        = (errorResponse message 400, dueToday))
  /\ (exists message status,
        PUT clock alice "series-plants" backupsBody dueToday
        = (errorResponse message status, dueToday)
        /\ (status = 400 \/ status = 404)
        /\ (findSeries alice "series-plants" dueToday <> None ->
            status = 400)).
Proof.
  assert (Ho : outOfRange every400Days).
  { eexists. split; [reflexivity|]. left.
    exists 400%Z, 1%positive. split; [reflexivity|]. right. lia. }
  split; [exact Ho|].
  exact (@out_of_range_rule_is_rejected padId clock alice "series-plants"
           backupsBody every400Days dueToday eq_refl Ho).
Defined.

(** *** C10 *)

Lemma materialized_instance_is_plain_witness :
  In firstInstance (createdTasks dueToday (sync clock dueToday))
  /\ task_recurrenceType firstInstance = none
  /\ task_recurrenceBehavior firstInstance = after_completion
  /\ task_recurrenceRule firstInstance = None
  /\ task_recurrenceProcessedAt firstInstance = None
  /\ task_status firstInstance = open
  /\ (exists s, In s (recurrenceSeries (migrate clock dueToday))
                /\ DueSeries alice today s
                /\ task_recurrenceSeriesId firstInstance
                   = Some (series_id s))
  /\ (forall u, ~ LegacyItem u firstInstance)
  /\ (forall u d, ~ RolloverSelected u d firstInstance).
Proof.
  assert (Hin : In firstInstance (createdTasks dueToday (sync clock dueToday)))
    by (vm_compute; left; reflexivity).
  split; [exact Hin|].
  exact (@materialized_instance_is_plain getNextTaskRecurrenceDate padId
           alice today clock dueToday firstInstance Hin).
Defined.

End ExampleFacts.

(** ** Worked examples for the further properties *)

Module MoreExampleFacts.

Import IsoCalendar IsoCalendarFacts Api HandlerFacts ListingFacts Client
  ClientFacts Examples ExampleFacts.

Lemma tenDaysBehind_unique : uniqueSeriesIds tenDaysBehind.
Proof. unfold uniqueSeriesIds. distinct_ids. Defined.

Lemma legacyDb_unique : uniqueTaskIds legacyDb /\ uniqueSeriesIds legacyDb.
Proof. split; [unfold uniqueTaskIds|unfold uniqueSeriesIds]; distinct_ids. Defined.

(** *** The pass *)

Lemma pass_creates_at_most_500_per_series_witness :
  allocatesFresh padId
  /\ uniqueSeriesIds tenDaysBehind
  /\ List.length (createdFor "series-plants" tenDaysBehind
                    (sync clock tenDaysBehind)) <= 500
  /\ (forall s, In s (recurrenceSeries (migrate clock tenDaysBehind)) ->
        series_id s = "series-plants" ->
        series_recurrenceBehavior s = after_completion ->
        List.length (createdFor "series-plants" tenDaysBehind
                       (sync clock tenDaysBehind)) <= 1).
Proof.
  split; [exact padId_fresh|]. split; [exact tenDaysBehind_unique|].
  exact (@pass_creates_at_most_500_per_series getNextTaskRecurrenceDate padId
           alice today clock tenDaysBehind "series-plants" padId_fresh
           tenDaysBehind_unique).
Defined.

Lemma pass_never_materializes_a_date_twice_witness :
  allocatesFresh padId
  /\ uniqueSeriesIds tenDaysBehind
  /\ NoDup (map task_dueDate
              (createdFor "series-plants" tenDaysBehind
                 (sync clock tenDaysBehind)))
  /\ (forall x, In x (createdFor "series-plants" tenDaysBehind
                        (sync clock tenDaysBehind)) ->
        exists d, task_dueDate x = Some d
                  /\ ~ MaterializedAt (migrate clock tenDaysBehind)
                         "series-plants" d)
  /\ (uniqueTaskIds tenDaysBehind ->
      In "series-plants" (map series_id (recurrenceSeries tenDaysBehind)) ->
      forall x, In x (createdFor "series-plants" tenDaysBehind
                        (sync clock tenDaysBehind)) ->
        exists d, task_dueDate x = Some d
                  /\ ~ MaterializedAt tenDaysBehind "series-plants" d).
Proof.
  split; [exact padId_fresh|]. split; [exact tenDaysBehind_unique|].
  exact (@pass_never_materializes_a_date_twice getNextTaskRecurrenceDate padId
           alice today clock tenDaysBehind "series-plants" padId_fresh
           tenDaysBehind_unique).
Defined.

Lemma pass_creates_only_due_instances_of_the_user_witness :
  In firstInstance (createdTasks dueToday (sync clock dueToday))
  /\ task_userId firstInstance = alice
  /\ task_deletedAt firstInstance = None
  /\ exists d, task_dueDate firstInstance = Some d /\ str_le d today.
Proof.
  assert (Hin : In firstInstance (createdTasks dueToday (sync clock dueToday)))
    by (vm_compute; left; reflexivity).
  split; [exact Hin|].
  exact (@pass_creates_only_due_instances_of_the_user
           getNextTaskRecurrenceDate padId alice today clock dueToday
           firstInstance Hin).
Defined.

Lemma pass_leaves_other_users_rows_witness :
  allocatesFresh padId
  /\ uniqueTaskIds twoUsers
  /\ uniqueSeriesIds twoUsers
  /\ (forall i t, nth_error (tasks twoUsers) i = Some t ->
        task_userId t <> alice ->
        nth_error (tasks (sync clock twoUsers)) i = Some t)
  /\ (forall i s, nth_error (recurrenceSeries twoUsers) i = Some s ->
        series_userId s <> alice ->
        nth_error (recurrenceSeries (sync clock twoUsers)) i = Some s)
  /\ projects (sync clock twoUsers) = projects twoUsers.
Proof.
  assert (Ht : uniqueTaskIds twoUsers) by (unfold uniqueTaskIds; distinct_ids).
  assert (Hs : uniqueSeriesIds twoUsers)
    by (unfold uniqueSeriesIds; distinct_ids).
  split; [exact padId_fresh|]. split; [exact Ht|]. split; [exact Hs|].
  exact (@pass_leaves_other_users_rows getNextTaskRecurrenceDate padId alice
           today clock twoUsers padId_fresh Ht Hs).
Defined.

Lemma pass_keeps_ids_unique_witness :
  allocatesFresh padId
  /\ uniqueTaskIds legacyDb
  /\ uniqueSeriesIds legacyDb
  /\ uniqueTaskIds (sync clock legacyDb)
  /\ uniqueSeriesIds (sync clock legacyDb).
Proof.
  split; [exact padId_fresh|].
  split; [exact (proj1 legacyDb_unique)|].
  split; [exact (proj2 legacyDb_unique)|].
  exact (@pass_keeps_ids_unique getNextTaskRecurrenceDate padId alice today
           clock legacyDb padId_fresh (proj1 legacyDb_unique)
           (proj2 legacyDb_unique)).
Defined.

Lemma pass_skips_series_not_due_witness :
  allocatesFresh padId
  /\ uniqueSeriesIds tenDaysBehind
  /\ nth_error (recurrenceSeries tenDaysBehind) 0
     = Some (plants duplicate_on_schedule "2024-05-01")
  /\ ~ DueSeries bob today (plants duplicate_on_schedule "2024-05-01")
  /\ nth_error
       (recurrenceSeries
          (syncRecurrenceSeriesForUser getNextTaskRecurrenceDate padId bob
             today clock tenDaysBehind)) 0
     = Some (plants duplicate_on_schedule "2024-05-01")
  /\ createdFor "series-plants" tenDaysBehind
       (syncRecurrenceSeriesForUser getNextTaskRecurrenceDate padId bob
          today clock tenDaysBehind) = [].
Proof.
  assert (Hn : ~ DueSeries bob today
                 (plants duplicate_on_schedule "2024-05-01")).
  { intros (H & _). discriminate H. }
  split; [exact padId_fresh|]. split; [exact tenDaysBehind_unique|].
  split; [reflexivity|]. split; [exact Hn|].
  exact (@pass_skips_series_not_due getNextTaskRecurrenceDate padId bob today
           clock tenDaysBehind 0 (plants duplicate_on_schedule "2024-05-01")
           padId_fresh tenDaysBehind_unique eq_refl Hn).
Defined.

Lemma after_a_pass_due_series_are_served_witness :
  allocatesFresh padId
  /\ uniqueSeriesIds dueToday
  /\ In (plants after_completion today)
       (recurrenceSeries (sync clock dueToday))
  /\ DueSeries alice today (plants after_completion today)
  /\ (series_recurrenceBehavior (plants after_completion today)
      = after_completion ->
      Outstanding (sync clock dueToday) "series-plants"
      \/ MaterializedAt (sync clock dueToday) "series-plants" today)
  /\ (series_recurrenceBehavior (plants after_completion today)
      = duplicate_on_schedule ->
      withinCatchUpLimit getNextTaskRecurrenceDate alice today
        (migrate clock dueToday) = true ->
      MaterializedAt (sync clock dueToday) "series-plants" today
      /\ stalls today (getNextTaskRecurrenceDate today daily None) = true).
Proof.
  assert (Hu : uniqueSeriesIds dueToday)
    by (unfold uniqueSeriesIds; distinct_ids).
  assert (Hin : In (plants after_completion today)
                  (recurrenceSeries (sync clock dueToday)))
    by (vm_compute; left; reflexivity).
  assert (Hd : DueSeries alice today (plants after_completion today))
    by (repeat split; reflexivity).
  split; [exact padId_fresh|]. split; [exact Hu|]. split; [exact Hin|].
  split; [exact Hd|].
  exact (@after_a_pass_due_series_are_served getNextTaskRecurrenceDate padId
           alice today clock dueToday (plants after_completion today)
           padId_fresh Hu Hin Hd).
Defined.

(** *** Migration *)

Lemma legacyReport_is_legacy : LegacyItem alice legacyReport.
Proof. repeat split; try reflexivity. discriminate. Defined.

Lemma pass_does_not_duplicate_migrated_item_witness :
  allocatesFresh padId
  /\ uniqueTaskIds legacyDb
  /\ uniqueSeriesIds legacyDb
  /\ LegacyItem alice legacyReport
  /\ exists sid t',
       nth_error (tasks (sync clock legacyDb)) 0 = Some t'
       /\ task_recurrenceSeriesId t' = Some sid
       /\ task_dueDate t' = Some "2024-05-01"
       /\ forall x, In x (createdFor sid legacyDb (sync clock legacyDb)) ->
                    task_dueDate x <> Some "2024-05-01".
Proof.
  split; [exact padId_fresh|].
  split; [exact (proj1 legacyDb_unique)|].
  split; [exact (proj2 legacyDb_unique)|].
  split; [exact legacyReport_is_legacy|].
  exact (@pass_does_not_duplicate_migrated_item getNextTaskRecurrenceDate
           padId alice today clock legacyDb 0 legacyReport "2024-05-01"
           padId_fresh (proj1 legacyDb_unique) (proj2 legacyDb_unique)
           eq_refl legacyReport_is_legacy eq_refl).
Defined.

Lemma migration_copies_the_item_witness :
  allocatesFresh padId
  /\ uniqueTaskIds legacyDb
  /\ LegacyItem alice legacyReport
  /\ exists s t',
       nth_error (tasks (migrate clock legacyDb)) 0 = Some t'
       /\ In s (recurrenceSeries (migrate clock legacyDb))
       /\ task_recurrenceSeriesId t' = Some (series_id s)
       /\ series_userId s = alice
       /\ series_projectId s = None
       /\ series_title s = "Daily report"
       /\ series_description s = None
       /\ series_priority s = high
       /\ series_recurrenceType s = daily
       /\ series_recurrenceBehavior s = after_completion
       /\ series_recurrenceRule s = None
       /\ series_active s = true
       /\ series_deletedAt s = None
       /\ sameContent legacyReport t'
       /\ task_recurrenceType t' = none
       /\ task_recurrenceBehavior t' = after_completion
       /\ task_recurrenceRule t' = None
       /\ (task_status legacyReport = done ->
           task_recurrenceProcessedAt t' = Some clock)
       /\ (task_status legacyReport <> done ->
           task_recurrenceProcessedAt t' = None).
Proof.
  split; [exact padId_fresh|].
  split; [exact (proj1 legacyDb_unique)|].
  split; [exact legacyReport_is_legacy|].
  exact (@migration_copies_the_item getNextTaskRecurrenceDate padId alice
           today clock legacyDb 0 legacyReport padId_fresh
           (proj1 legacyDb_unique) eq_refl legacyReport_is_legacy).
Defined.

Lemma done_item_series_starts_no_earlier_than_today_witness :
  neverEarlier getNextTaskRecurrenceDate
  /\ allocatesFresh padId
  /\ uniqueTaskIds legacyDoneDb
  /\ LegacyItem alice legacyReportDone
  /\ task_status legacyReportDone = done
  /\ exists s t',
       nth_error (tasks (migrate clock legacyDoneDb)) 0 = Some t'
       /\ In s (recurrenceSeries (migrate clock legacyDoneDb))
       /\ task_recurrenceSeriesId t' = Some (series_id s)
       /\ str_le today (series_nextDueDate s)
       /\ str_le (dueAnchorOf today legacyReportDone) (series_nextDueDate s).
Proof.
  assert (Ht : uniqueTaskIds legacyDoneDb)
    by (unfold uniqueTaskIds; distinct_ids).
  assert (Hl : LegacyItem alice legacyReportDone)
    by (repeat split; try reflexivity; discriminate).
  split; [exact getNext_neverEarlier|]. split; [exact padId_fresh|].
  split; [exact Ht|]. split; [exact Hl|]. split; [reflexivity|].
  exact (@done_item_series_starts_no_earlier_than_today
           getNextTaskRecurrenceDate padId alice today clock legacyDoneDb 0
           legacyReportDone getNext_neverEarlier padId_fresh Ht eq_refl Hl
           eq_refl).
Defined.

Lemma rollover_after_pass_changes_nothing_witness :
  (forall t, In t (tasks legacyDoneDb) -> task_userId t = alice ->
             task_recurrenceType t <> none ->
             task_recurrenceSeriesId t = None)
  /\ releaseDueRecurringTasksForUser alice "2024-05-12" later
       (sync clock legacyDoneDb)
     = sync clock legacyDoneDb.
Proof.
  assert (H : forall t, In t (tasks legacyDoneDb) -> task_userId t = alice ->
                        task_recurrenceType t <> none ->
                        task_recurrenceSeriesId t = None).
  { intros t [<-|[]] _ _. reflexivity. }
  split; [exact H|].
  exact (@rollover_after_pass_changes_nothing getNextTaskRecurrenceDate padId
           alice today clock "2024-05-12" later legacyDoneDb H).
Defined.

(** *** The handlers *)

Lemma weeklyBody_accepted :
  POST padId clock alice weeklyBody dueToday
  = (jsonResponse (Some backupsRow) 201, insertSeries backupsRow dueToday).
Proof. vm_compute. reflexivity. Defined.

Lemma post_appends_one_wellformed_series_witness :
  succeeded (fst (POST padId clock alice weeklyBody dueToday))
  /\ exists created,
       POST padId clock alice weeklyBody dueToday
       = (jsonResponse (Some created) 201, insertSeries created dueToday)
       /\ series_id created
          = padId (map series_id (recurrenceSeries dueToday))
       /\ series_userId created = alice
       /\ series_deletedAt created = None
       /\ series_createdAt created = clock
       /\ series_updatedAt created = clock
       /\ series_title created = trim (stringOf (prop "title" weeklyBody))
       /\ series_title created <> ""
       /\ series_nextDueDate created
          = stringOf (prop "nextDueDate" weeklyBody)
       /\ wellFormed created
       /\ (forall p, series_projectId created = Some p ->
                     ownsProject alice p dueToday = true)
       /\ (allocatesFresh padId -> uniqueSeriesIds dueToday ->
           uniqueSeriesIds (snd (POST padId clock alice weeklyBody dueToday))).
Proof.
  assert (H : succeeded (fst (POST padId clock alice weeklyBody dueToday))).
  { exists (Some backupsRow), 201. rewrite weeklyBody_accepted. reflexivity. }
  split; [exact H|].
  exact (@post_appends_one_wellformed_series padId clock alice weeklyBody
           dueToday H).
Defined.

Lemma foreign_or_deleted_series_is_out_of_reach_witness :
  (forall s, In s (recurrenceSeries tenDaysBehind) ->
             series_id s = "series-plants" ->
             series_userId s = bob ->
             isSet (series_deletedAt s) = true)
  /\ snd (PUT clock bob "series-plants" renameBody tenDaysBehind)
     = tenDaysBehind
  /\ ~ succeeded (fst (PUT clock bob "series-plants" renameBody tenDaysBehind))
  /\ DELETE clock later bob "series-plants" tenDaysBehind
     = (failure "Recurrence series not found" 404, tenDaysBehind).
Proof.
  assert (H : forall s, In s (recurrenceSeries tenDaysBehind) ->
                        series_id s = "series-plants" ->
                        series_userId s = bob ->
                        isSet (series_deletedAt s) = true).
  { intros s [<-|[]] _ E. discriminate E. }
  split; [exact H|].
  exact (@foreign_or_deleted_series_is_out_of_reach clock later bob
           "series-plants" renameBody tenDaysBehind H).
Defined.

Lemma renameBody_accepted :
  PUT clock alice "series-plants" renameBody tenDaysBehind
  = (jsonResponse (Some renamedPlants) 200, mkDb [] [renamedPlants] []).
Proof. vm_compute. reflexivity. Defined.

Lemma put_rewrites_only_the_named_series_witness :
  succeeded (fst (PUT clock alice "series-plants" renameBody tenDaysBehind))
  /\ tasks (snd (PUT clock alice "series-plants" renameBody tenDaysBehind))
     = tasks tenDaysBehind
  /\ projects (snd (PUT clock alice "series-plants" renameBody tenDaysBehind))
     = projects tenDaysBehind
  /\ changedOnly "series-plants"
       (fun s s' => sameIdentity s s' /\ series_updatedAt s' = clock)
       (recurrenceSeries tenDaysBehind)
       (recurrenceSeries
          (snd (PUT clock alice "series-plants" renameBody tenDaysBehind)))
  /\ (uniqueSeriesIds tenDaysBehind ->
      exists existing updated,
        findSeries alice "series-plants" tenDaysBehind = Some existing
        /\ fst (PUT clock alice "series-plants" renameBody tenDaysBehind)
           = jsonResponse (Some updated) 200
        /\ In updated
             (recurrenceSeries
                (snd (PUT clock alice "series-plants" renameBody
                        tenDaysBehind)))
        /\ sameIdentity existing updated
        /\ series_userId updated = alice
        /\ series_deletedAt updated = None).
Proof.
  assert (H : succeeded
                (fst (PUT clock alice "series-plants" renameBody
                        tenDaysBehind))).
  { exists (Some renamedPlants), 200. rewrite renameBody_accepted.
    reflexivity. }
  split; [exact H|].
  exact (@put_rewrites_only_the_named_series clock alice "series-plants"
           renameBody tenDaysBehind H).
Defined.

Lemma tenDaysBehind_wellFormed :
  Forall wellFormed (recurrenceSeries tenDaysBehind).
Proof.
  constructor; [|constructor].
  unfold wellFormed. simpl. repeat split; try reflexivity; discriminate.
Defined.

Lemma handlers_keep_series_wellformed_witness :
  allocatesFresh padId
  /\ uniqueSeriesIds tenDaysBehind
  /\ Forall wellFormed (recurrenceSeries tenDaysBehind)
  /\ (uniqueSeriesIds (snd (POST padId clock alice weeklyBody tenDaysBehind))
      /\ Forall wellFormed
           (recurrenceSeries
              (snd (POST padId clock alice weeklyBody tenDaysBehind))))
  /\ (uniqueSeriesIds
        (snd (PUT clock alice "series-plants" weeklyBody tenDaysBehind))
      /\ Forall wellFormed
           (recurrenceSeries
              (snd (PUT clock alice "series-plants" weeklyBody
                      tenDaysBehind))))
  /\ (uniqueSeriesIds
        (snd (DELETE clock later alice "series-plants" tenDaysBehind))
      /\ Forall wellFormed
           (recurrenceSeries
              (snd (DELETE clock later alice "series-plants"
                      tenDaysBehind)))).
Proof.
  split; [exact padId_fresh|]. split; [exact tenDaysBehind_unique|].
  split; [exact tenDaysBehind_wellFormed|].
  exact (@handlers_keep_series_wellformed padId clock later alice
           "series-plants" weeklyBody tenDaysBehind padId_fresh
           tenDaysBehind_unique tenDaysBehind_wellFormed).
Defined.

Lemma plants_deleted :
  fst (DELETE clock later alice "series-plants" tenDaysBehind) = success true.
Proof. vm_compute. reflexivity. Defined.

Lemma clock_not_empty : clock <> "".
Proof. discriminate. Defined.

Lemma delete_only_marks_the_series_witness :
  fst (DELETE clock later alice "series-plants" tenDaysBehind) = success true
  /\ clock <> ""
  /\ tasks (snd (DELETE clock later alice "series-plants" tenDaysBehind))
     = tasks tenDaysBehind
  /\ projects (snd (DELETE clock later alice "series-plants" tenDaysBehind))
     = projects tenDaysBehind
  /\ changedOnly "series-plants" (softDeleted clock later)
       (recurrenceSeries tenDaysBehind)
       (recurrenceSeries
          (snd (DELETE clock later alice "series-plants" tenDaysBehind)))
  /\ (exists s, In s (recurrenceSeries tenDaysBehind)
                /\ series_id s = "series-plants"
                /\ series_userId s = alice)
  /\ (forall now body,
        snd (PUT now alice "series-plants" body
               (snd (DELETE clock later alice "series-plants"
                       tenDaysBehind)))
        = snd (DELETE clock later alice "series-plants" tenDaysBehind)
        /\ ~ succeeded
               (fst (PUT now alice "series-plants" body
                       (snd (DELETE clock later alice "series-plants"
                               tenDaysBehind)))))
  /\ (forall now later',
        DELETE now later' alice "series-plants"
          (snd (DELETE clock later alice "series-plants" tenDaysBehind))
        = (failure "Recurrence series not found" 404,
           snd (DELETE clock later alice "series-plants" tenDaysBehind))).
Proof.
  split; [exact plants_deleted|]. split; [exact clock_not_empty|].
  exact (@delete_only_marks_the_series clock later alice "series-plants"
           tenDaysBehind plants_deleted clock_not_empty).
Defined.

(** *** Listing, pausing, deleting *)

Lemma deleted_series_is_neither_listed_nor_materialized_witness :
  allocatesFresh padId
  /\ uniqueSeriesIds tenDaysBehind
  /\ fst (DELETE clock later alice "series-plants" tenDaysBehind)
     = success true
  /\ exists rows,
       fst (GET getNextTaskRecurrenceDate padId later alice today
              (snd (DELETE clock later alice "series-plants" tenDaysBehind)))
       = success rows
       /\ (forall s, In s rows -> series_id s <> "series-plants")
       /\ createdFor "series-plants"
            (snd (DELETE clock later alice "series-plants" tenDaysBehind))
            (snd (GET getNextTaskRecurrenceDate padId later alice today
                    (snd (DELETE clock later alice "series-plants"
                            tenDaysBehind)))) = [].
Proof.
  split; [exact padId_fresh|]. split; [exact tenDaysBehind_unique|].
  split; [exact plants_deleted|].
  exact (@deleted_series_is_neither_listed_nor_materialized
           getNextTaskRecurrenceDate padId clock later alice "series-plants"
           tenDaysBehind alice later today padId_fresh tenDaysBehind_unique
           plants_deleted).
Defined.

Lemma pausing_a_series_stops_it_witness :
  allocatesFresh padId
  /\ uniqueSeriesIds tenDaysBehind
  /\ findSeries alice "series-plants" tenDaysBehind
     = Some (plants duplicate_on_schedule "2024-05-01")
  /\ fst (PUT clock alice "series-plants"
            (toggleActiveBody (plants duplicate_on_schedule "2024-05-01"))
            tenDaysBehind)
     = jsonResponse
         (Some (withActive false clock
                  (plants duplicate_on_schedule "2024-05-01"))) 200
  /\ createdFor "series-plants"
       (snd (PUT clock alice "series-plants"
               (toggleActiveBody (plants duplicate_on_schedule "2024-05-01"))
               tenDaysBehind))
       (sync later
          (snd (PUT clock alice "series-plants"
                  (toggleActiveBody
                     (plants duplicate_on_schedule "2024-05-01"))
                  tenDaysBehind))) = [].
Proof.
  assert (Hc : series_recurrenceType
                 (plants duplicate_on_schedule "2024-05-01") = custom ->
               noRule (series_recurrenceRule
                         (plants duplicate_on_schedule "2024-05-01"))
               = false).
  { intros E. discriminate E. }
  pose proof (@pausing_a_series_stops_it getNextTaskRecurrenceDate padId
                clock alice "series-plants" tenDaysBehind
                (plants duplicate_on_schedule "2024-05-01")
                (plants duplicate_on_schedule "2024-05-01") padId_fresh
                tenDaysBehind_unique eq_refl Hc) as H.
  cbv zeta in H. destruct H as (H1 & _ & _ & _ & H5).
  split; [exact padId_fresh|]. split; [exact tenDaysBehind_unique|].
  split; [reflexivity|]. split; [exact H1|].
  exact (H5 eq_refl alice today later).
Defined.

(** *** The client side *)


Lemma preview_is_never_in_the_past_witness :
  neverEarlier getNextTaskRecurrenceDate
  /\ task_recurrenceBehavior legacyReport = after_completion
  /\ next (getTaskRecurrencePreview describeKind getNextTaskRecurrenceDate
             noDuplicateDate today legacyReport) = Some "2024-05-12"
  /\ str_le today "2024-05-12".
Proof.
  assert (E : next (getTaskRecurrencePreview describeKind
                      getNextTaskRecurrenceDate noDuplicateDate today
                      legacyReport) = Some "2024-05-12")
    by (vm_compute; reflexivity).
  split; [exact getNext_neverEarlier|]. split; [reflexivity|].
  split; [exact E|].
  exact (@preview_is_never_in_the_past describeKind getNextTaskRecurrenceDate
           noDuplicateDate today legacyReport "2024-05-12"
           getNext_neverEarlier eq_refl E).
Defined.

Lemma status_toggle_is_all_or_nothing_witness :
  NoDup (map task_id [legacyReport; binnedInstance])
  /\ In legacyReport [legacyReport; binnedInstance]
  /\ handleStatusToggle false legacyReport [legacyReport; binnedInstance]
     = [legacyReport; binnedInstance]
  /\ (forall i t, nth_error [legacyReport; binnedInstance] i = Some t ->
        nth_error
          (handleStatusToggle true legacyReport
             [legacyReport; binnedInstance]) i
        = Some (if String.eqb (task_id t) (task_id legacyReport)
                then task_withStatus (nextStatus (task_status legacyReport))
                       legacyReport
                else t))
  /\ List.length
       (handleStatusToggle true legacyReport [legacyReport; binnedInstance])
     = List.length [legacyReport; binnedInstance].
Proof.
  assert (Hn : NoDup (map task_id [legacyReport; binnedInstance]))
    by distinct_ids.
  assert (Hi : In legacyReport [legacyReport; binnedInstance])
    by (left; reflexivity).
  split; [exact Hn|]. split; [exact Hi|].
  exact (@status_toggle_is_all_or_nothing [legacyReport; binnedInstance]
           legacyReport Hn Hi).
Defined.

Lemma three_clicks_come_back_witness :
  NoDup (map task_id [legacyReport; binnedInstance])
  /\ In legacyReport [legacyReport; binnedInstance]
  /\ handleStatusToggle true
       (task_withStatus done (task_withStatus in_progress legacyReport))
       (handleStatusToggle true (task_withStatus in_progress legacyReport)
          (handleStatusToggle true legacyReport
             [legacyReport; binnedInstance]))
     = [legacyReport; binnedInstance].
Proof.
  assert (Hn : NoDup (map task_id [legacyReport; binnedInstance]))
    by distinct_ids.
  assert (Hi : In legacyReport [legacyReport; binnedInstance])
    by (left; reflexivity).
  split; [exact Hn|]. split; [exact Hi|].
  exact (@three_clicks_come_back [legacyReport; binnedInstance] legacyReport
           Hn Hi).
Defined.

End MoreExampleFacts.
